(** * Praggo AI: the quota-aware, multi-key request dispatcher

    A shallow embedding of [server/praggoAI.ts] (class [PraggoAIService])
    and the properties of its key rotation, failure classification,
    retry loop and degraded ("demo") mode.

    Conventions of the embedding.
    - A JavaScript string is the [string] of the bytes of its UTF-8 text.
      Searching ([includes]) goes byte by byte, which finds the same
      matches; [length] counts UTF-16 code units and is computed from the
      bytes; [trim] removes the white space of ECMAScript, whatever the
      number of its bytes.
    - The case mapping of [toLowerCase] is the one of the ASCII letters.
      For the use made of it here, a search for keywords of small ASCII
      letters, it answers as the Unicode mapping does: the only characters
      outside ASCII whose small form contains an ASCII letter are U+212A
      (to "k") and U+0130 (to "i" followed by U+0307), and no keyword
      has a "k" or ends in "i".
    - A thrown value is an [Error]-like object: a record with an optional
      string [message] and two free-form fields [status] and [code]. The
      classifier, whose parameter is [any], is also given on values whose
      [message] is not a string ([Untyped.isQuotaError]).
    - The clock is read as a function of the number of backend
      invocations made so far: the readings taken between two invocations
      are not told apart.
    - [async] methods run to completion one after the other; every
      [await] is a sequential step of a state-and-exception monad.
    - The external world (the Gemini backend, the clock, the database and
      its failures) is explicit: the backend and the clock are oracles,
      the database is a pair of tables with a script of faults. *)

From Stdlib Require Import ZArith String Ascii List Bool Lia Arith PeanoNat.
From Stdlib Require Import DecimalString Decimal Sorted.
From stdpp Require Import base tactics option list gmap strings.

Import ListNotations.
Local Open Scope string_scope.
Local Open Scope nat_scope.

(** ** JavaScript values and string primitives *)

Module Js.

(** The values a free-form field such as [error.status] can hold;
    [object] is an object or an array of plain data. *)
Inductive value : Type :=
| undefined
| null
| number (z : Z)
| str (s : string)
| boolean (b : bool)
| object.

(** [ToBoolean]. *)
Definition truthy (v : value) : bool :=
  match v with
  | undefined | null => false
  | number z => negb (z =? 0)%Z
  | str s => negb (String.eqb s "")
  | boolean b => b
  | object => true
  end.

(** [a || b]. *)
Definition or (a b : value) : value := if truthy a then a else b.

(** [v === n] for a number literal [n]. *)
Definition strictEqNumber (v : value) (n : Z) : bool :=
  match v with
  | number z => (z =? n)%Z
  | _ => false
  end.

Definition lowerChar (c : ascii) : ascii :=
  let n := nat_of_ascii c in
  if (65 <=? n) && (n <=? 90) then ascii_of_nat (n + 32) else c.

(** [s.toLowerCase()]. *)
Fixpoint toLowerCase (s : string) : string :=
  match s with
  | EmptyString => EmptyString
  | String c r => String (lowerChar c) (toLowerCase r)
  end.

(** [s.startsWith(p)]. *)
Fixpoint startsWith (s p : string) {struct p} : bool :=
  match p, s with
  | EmptyString, _ => true
  | String _ _, EmptyString => false
  | String a p', String b s' => Ascii.eqb a b && startsWith s' p'
  end.

(** [s.includes(p)]. *)
Fixpoint includes (s p : string) : bool :=
  startsWith s p ||
  match s with
  | EmptyString => false
  | String _ r => includes r p
  end.

(** The string of the given bytes. *)
Definition bytes (l : list nat) : string :=
  fold_right (fun n s => String (ascii_of_nat n) s) EmptyString l.

(** The white space [trim] removes, each character as its UTF-8 text: the
    WhiteSpace and LineTerminator characters of ECMAScript, which are
    U+0009 to U+000D, U+0020, U+00A0, U+1680, U+2000 to U+200A, U+2028,
    U+2029, U+202F, U+205F, U+3000 and U+FEFF. *)
Definition whiteSpaces : list string :=
  map bytes
    [ [9]; [10]; [11]; [12]; [13]; [32];
      [194; 160];
      [225; 154; 128];
      [226; 128; 128]; [226; 128; 129]; [226; 128; 130]; [226; 128; 131];
      [226; 128; 132]; [226; 128; 133]; [226; 128; 134]; [226; 128; 135];
      [226; 128; 136]; [226; 128; 137]; [226; 128; 138];
      [226; 128; 168]; [226; 128; 169];
      [226; 128; 175];
      [226; 129; 159];
      [227; 128; 128];
      [239; 187; 191] ].

Definition isSpace (s : string) : bool := existsb (String.eqb s) whiteSpaces.

(** Drops the leading white space, a character of one, two or three
    bytes at a time. *)
Fixpoint trimStart (s : string) : string :=
  match s with
  | EmptyString => EmptyString
  | String a r1 =>
      if isSpace (String a EmptyString) then trimStart r1 else
      match r1 with
      | EmptyString => s
      | String b r2 =>
          if isSpace (String a (String b EmptyString)) then trimStart r2 else
          match r2 with
          | EmptyString => s
          | String c r3 =>
              if isSpace (String a (String b (String c EmptyString)))
              then trimStart r3 else s
          end
      end
  end.

(** Drops the trailing white space: the text is cut at the first place
    from which on it holds white space only. *)
Fixpoint trimEnd (s : string) : string :=
  match s with
  | EmptyString => EmptyString
  | String c r =>
      if String.eqb (trimStart s) EmptyString then EmptyString
      else String c (trimEnd r)
  end.

(** [s.trim()]. *)
Definition trim (s : string) : string := trimEnd (trimStart s).

(** The UTF-16 code units of the character that a byte of its UTF-8 text
    begins: one for a character of one, two or three bytes, two for a
    character of four bytes; a byte that continues a character adds
    none. *)
Definition codeUnits (c : ascii) : nat :=
  let n := nat_of_ascii c in
  if n <? 128 then 1 else if n <? 192 then 0 else if n <? 240 then 1 else 2.

(** [s.length]. *)
Fixpoint length (s : string) : nat :=
  match s with
  | EmptyString => 0
  | String c r => codeUnits c + length r
  end.

(** A string as the C string the platform is handed: what comes before
    its first NUL. *)
Fixpoint cString (s : string) : string :=
  match s with
  | EmptyString => EmptyString
  | String c r => if nat_of_ascii c =? 0 then EmptyString else String c (cString r)
  end.

(** A string in a boolean position: [''] is falsy. *)
Definition nonEmpty (s : string) : bool := negb (String.eqb s "").

(** [String(n)] for a natural number. *)
Definition ofNat (n : nat) : string := NilEmpty.string_of_uint (Nat.to_uint n).

End Js.

(** ** Errors *)

(** What [catch (error: any)] binds, an [Error] object: its [message],
    which is a string when it is there, and the two fields the Gemini
    client may add to it, which may hold any value. *)
Record JsError : Type := mkError {
  message : option string;
  status : Js.value;
  code : Js.value
}.

(** [new Error(msg)]. *)
Definition newError (msg : string) : JsError :=
  {| message := Some msg; status := Js.undefined; code := Js.undefined |}.

(** [error?.message?.toLowerCase() || ''] *)
Definition errorMessageLower (error : option JsError) : string :=
  match error ≫= message with
  | Some m => if Js.nonEmpty (Js.toLowerCase m) then Js.toLowerCase m else ""
  | None => ""
  end.

(** [error?.status || error?.code] *)
Definition errorStatus (error : option JsError) : Js.value :=
  match error with
  | Some e => Js.or (status e) (code e)
  | None => Js.or Js.undefined Js.undefined
  end.

(** [isQuotaError]: is the error quota or rate-limit related? *)
Definition isQuotaError (error : option JsError) : bool :=
  let errorMessage := errorMessageLower error in
  let errorStatus := errorStatus error in
  Js.includes errorMessage "quota" ||
  Js.includes errorMessage "rate limit" ||
  Js.includes errorMessage "limit exceeded" ||
  Js.includes errorMessage "resource exhausted" ||
  Js.strictEqNumber errorStatus 429 ||
  Js.strictEqNumber errorStatus 403.

(** *** The classifier on any value

    The parameter of [isQuotaError] is [any]. What the function reads of
    its argument are three members; a member an object does not have, and
    every member of a primitive value, reads [undefined]. *)
Record AnyError : Type := mkAny {
  a_message : Js.value;
  a_status : Js.value;
  a_code : Js.value
}.


(** What evaluating an expression comes to: a value, or the [TypeError]
    of calling something that is not a function. *)
Inductive Evaluated (A : Type) : Type :=
| evaluates (a : A)
| typeError.
Arguments evaluates {A} a.
Arguments typeError {A}.

Module Untyped.

(** [error?.message?.toLowerCase() || '']: the call is skipped for a
    message that is [null] or [undefined], made on a string, and a
    [TypeError] on any other value, which has no such method. *)
Definition errorMessageLower (error : option AnyError) : Evaluated string :=
  match error with
  | None => evaluates ""
  | Some e =>
      match a_message e with
      | Js.undefined | Js.null => evaluates ""
      | Js.str m =>
          evaluates (if Js.nonEmpty (Js.toLowerCase m) then Js.toLowerCase m else "")
      | Js.number _ | Js.boolean _ | Js.object => typeError
      end
  end.

(** [error?.status || error?.code] *)
Definition errorStatus (error : option AnyError) : Js.value :=
  match error with
  | Some e => Js.or (a_status e) (a_code e)
  | None => Js.or Js.undefined Js.undefined
  end.

Definition isQuotaError (error : option AnyError) : Evaluated bool :=
  match errorMessageLower error with
  | typeError => typeError
  | evaluates errorMessage =>
      let errorStatus := errorStatus error in
      evaluates
        (Js.includes errorMessage "quota" ||
         Js.includes errorMessage "rate limit" ||
         Js.includes errorMessage "limit exceeded" ||
         Js.includes errorMessage "resource exhausted" ||
         Js.strictEqNumber errorStatus 429 ||
         Js.strictEqNumber errorStatus 403)
  end.

End Untyped.


(** ** Data model *)

(** An entry of [apiKeys]. *)
Record ApiKey : Type := mkApiKey {
  keyName : string;
  keyValue : string;
  keyIndex : nat
}.

Inductive UserRole : Type := teacher | student.
Inductive RequestType : Type := generate_questions | solve_doubt.

(** A row of the [praggoAIUsage] table, as [logUsage] writes it. *)
Record UsageRecord : Type := mkUsage {
  u_userId : string;
  u_userRole : UserRole;
  u_requestType : RequestType;
  u_keyUsed : string;
  u_subject : string;
  u_success : bool;
  u_errorMessage : option string;
  u_processingTime : option Z;
  u_promptLength : option nat;
  u_responseLength : option nat
}.

Inductive KeyStatus : Type := active | quota_exceeded | disabled.

(** Modelled from the spec: the declaration of the [praggoAIKeys] table
    (module [@shared/schema]) is not part of the sources; the columns are
    the ones the service reads and writes, with the value set of [status]
    taken from the specification's Credential record. *)
Record KeyRow : Type := mkKeyRow {
  r_keyName : string;
  r_keyIndex : nat;
  r_keyValue : option string;
  r_status : KeyStatus;
  r_isEnabled : bool;
  r_dailyUsageCount : Z;
  r_quotaResetDate : option Z;
  r_lastUsed : option Z
}.

Record Database : Type := mkDb {
  praggoAIUsage : list UsageRecord;
  praggoAIKeys : list KeyRow
}.

(** The state a run of the service reads and writes: its two fields, the
    process environment, the database with the script of its faults (one
    entry per statement still to come, [true] for a statement that fails;
    past the end of the script every statement succeeds), and the log of
    the backend invocations made so far (the API key and the prompt). *)
Record World : Type := mkWorld {
  apiKeys : list ApiKey;
  currentKeyIndex : nat;
  processEnv : gmap string string;
  db : Database;
  dbFaults : list bool;
  backendCalls : list (string * string)
}.

Definition setApiKeys (ks : list ApiKey) (w : World) : World :=
  mkWorld ks (currentKeyIndex w) (processEnv w) (db w) (dbFaults w) (backendCalls w).
Definition setCurrentKeyIndex (i : nat) (w : World) : World :=
  mkWorld (apiKeys w) i (processEnv w) (db w) (dbFaults w) (backendCalls w).
Definition setProcessEnv (e : gmap string string) (w : World) : World :=
  mkWorld (apiKeys w) (currentKeyIndex w) e (db w) (dbFaults w) (backendCalls w).
Definition setDb (d : Database) (w : World) : World :=
  mkWorld (apiKeys w) (currentKeyIndex w) (processEnv w) d (dbFaults w) (backendCalls w).
Definition setDbFaults (f : list bool) (w : World) : World :=
  mkWorld (apiKeys w) (currentKeyIndex w) (processEnv w) (db w) f (backendCalls w).
Definition logBackendCall (c : string * string) (w : World) : World :=
  mkWorld (apiKeys w) (currentKeyIndex w) (processEnv w) (db w) (dbFaults w)
          (backendCalls w ++ [c]).

(** [process.env[name] = value], as Node does it on a POSIX system:
    name and value reach [setenv] as C strings, and the assignment is
    dropped, without an error, when [setenv] refuses the name, which it
    does for the empty name and for a name with an ['='] in it. *)
Definition assignEnv (name value : string) (env : gmap string string)
    : gmap string string :=
  let name := Js.cString name in
  if Js.nonEmpty name && negb (Js.includes name "=")
  then <[name := Js.cString value]> env
  else env.

(** ** The monad of the service: state and exceptions *)

Inductive Outcome (A : Type) : Type :=
| Return (a : A)
| Throw (e : JsError).
Arguments Return {A} a.
Arguments Throw {A} e.

Definition M (A : Type) : Type := World -> Outcome A * World.

Definition ret {A} (a : A) : M A := fun w => (Return a, w).
Definition throw {A} (e : JsError) : M A := fun w => (Throw e, w).
Definition bind {A B} (m : M A) (k : A -> M B) : M B :=
  fun w =>
    match m w with
    | (Return a, w') => k a w'
    | (Throw e, w') => (Throw e, w')
    end.
Definition gets {A} (f : World -> A) : M A := fun w => (Return (f w), w).
Definition modify (f : World -> World) : M unit := fun w => (Return tt, f w).

(** [try { m } catch (e) { h e }] *)
Definition tryCatch {A} (m : M A) (h : JsError -> M A) : M A :=
  fun w =>
    match m w with
    | (Return a, w') => (Return a, w')
    | (Throw e, w') => h e w'
    end.

Notation "'let*' x ':=' m 'in' k" := (bind m (fun x => k))
  (at level 10, x pattern, m at level 100, k at level 200).

(** ** The database *)

(** The error of a failed statement. *)
Definition dbError : JsError := newError "database error".

(** One statement: it consumes one entry of the script of faults and
    either fails, leaving the tables as they are, or runs. *)
Definition dbStatement {A} (f : Database -> A * Database) : M A :=
  fun w =>
    match dbFaults w with
    | true :: rest => (Throw dbError, setDbFaults rest w)
    | false :: rest =>
        let '(a, d) := f (db w) in (Return a, setDb d (setDbFaults rest w))
    | [] =>
        let '(a, d) := f (db w) in (Return a, setDb d w)
    end.

(** [db.insert(praggoAIUsage).values(r)] *)
Definition insertUsage (r : UsageRecord) : M unit :=
  dbStatement (fun d => (tt, mkDb (praggoAIUsage d ++ [r]) (praggoAIKeys d))).

(** [db.update(praggoAIKeys).set(f).where(eq(praggoAIKeys.keyName, name))] *)
Definition updateKeyRows (name : string) (f : KeyRow -> KeyRow) : M unit :=
  dbStatement (fun d =>
    (tt, mkDb (praggoAIUsage d)
              (map (fun r => if String.eqb (r_keyName r) name then f r else r)
                   (praggoAIKeys d)))).

(** [db.select().from(praggoAIKeys).where(p)] *)
Definition selectKeyRows (p : KeyRow -> bool) : M (list KeyRow) :=
  dbStatement (fun d => (List.filter p (praggoAIKeys d), d)).

(** [db.insert(praggoAIKeys).values(r)] *)
Definition insertKeyRow (r : KeyRow) : M unit :=
  dbStatement (fun d => (tt, mkDb (praggoAIUsage d) (praggoAIKeys d ++ [r]))).

Fixpoint forEach {A} (l : list A) (f : A -> M unit) : M unit :=
  match l with
  | [] => ret tt
  | x :: r => let* _ := f x in forEach r f
  end.

(** ** The Gemini backend *)

(** A callable [text] accessor: what calling it does. *)
Inductive TextAccessor : Type :=
| textReturns (s : string)
| textThrows (e : JsError).

(** The part of a response object that carries text: a callable [text]
    member, if there is one, and the value of
    [candidates?.[0]?.content?.parts?.[0]?.text], if there is one. *)
Record Envelope : Type := mkEnvelope {
  textFn : option TextAccessor;
  candidateText : option string
}.

(** What [generateContent] resolves to: its own envelope and the one of
    its [response] member, if it has one. *)
Record GeminiResponse : Type := mkResponse {
  g_response : option Envelope;
  g_top : Envelope
}.

Inductive BackendReply : Type :=
| rejects (e : JsError)
| resolvesNothing
| resolves (r : GeminiResponse).

(** The messages of the service. *)
Definition MSG_NO_KEYS : string :=
  "Praggo AI এর কোনো API key কনফিগার করা নেই। অনুগ্রহ করে GEMINI_API_KEY_1, GEMINI_API_KEY_2 ইত্যাদি সেট করুন।".
Definition MSG_DAILY_LIMIT : string :=
  "আজের জন্য আপনার Praggo AI ব্যবহারের সীমা শেষ! আগামীকাল আবার চেষ্টা করুন।".
Definition MSG_ALL_KEYS_LIMIT : string :=
  "Praggo AI এর সকল API key এর সীমা পূর্ণ! অনুগ্রহ করে কিছুক্ষণ পর চেষ্টা করুন।".
Definition MSG_SERVICE_PROBLEM : string :=
  "Praggo AI সেবায় সমস্যা হয়েছে। অনুগ্রহ করে আবার চেষ্টা করুন।".

Definition maxRetries : nat := 7.

Definition keyNames : list string :=
  [ "GEMINI_API_KEY"; "GEMINI_API_KEY_2"; "GEMINI_API_KEY_3"; "GEMINI_API_KEY_4";
    "GEMINI_API_KEY_5"; "GEMINI_API_KEY_6"; "GEMINI_API_KEY_7" ].

(** A value interpolated in a template literal. *)
Definition interpolate (o : option string) : string := default "undefined" o.

(** [o || d] for an optional string. *)
Definition orElse (o : option string) (d : string) : string :=
  match o with
  | Some s => if Js.nonEmpty s then s else d
  | None => d
  end.

(** A text in a boolean position. *)
Definition truthyText (o : option string) : option string :=
  match o with
  | Some t => if Js.nonEmpty t then Some t else None
  | None => None
  end.

(** ** The service *)

Section Service.

(** The backend: what the [n]-th invocation (counted over the life of
    the process) answers to an API key and a prompt. *)
Variable backend : nat -> string -> string -> BackendReply.

(** The clock: [Date.now()] when [n] backend invocations have been made. *)
Variable clock : nat -> Z.

Definition now : M Z := gets (fun w => clock (length (backendCalls w))).

(** [genAI.models.generateContent(...)] with the client of [apiKey]. *)
Definition generateContent (apiKey prompt : string) : M (option GeminiResponse) :=
  fun w =>
    let w' := logBackendCall (apiKey, prompt) w in
    match backend (length (backendCalls w)) apiKey prompt with
    | rejects e => (Throw e, w')
    | resolvesNothing => (Return None, w')
    | resolves r => (Return (Some r), w')
    end.

(** Restoring one database key to the environment. *)
Definition restoreKey (dbKey : KeyRow) : M unit :=
  match r_keyValue dbKey with
  | Some v =>
      if Js.nonEmpty v && (10 <? Js.length (Js.trim v))
      then modify (fun w =>
             setProcessEnv (assignEnv (r_keyName dbKey) v (processEnv w)) w)
      else ret tt
  | None => ret tt
  end.

Definition initializeDatabaseKeys : M unit :=
  tryCatch
    (let* keys := gets apiKeys in
     forEach keys (fun key =>
       let* existingKey :=
         selectKeyRows (fun r => String.eqb (r_keyName r) (keyName key)) in
       if length (take 1 existingKey) =? 0
       then insertKeyRow
              (mkKeyRow (keyName key) (keyIndex key) None active true 0%Z None None)
       else ret tt))
    (fun _ => ret tt).

(** The first step of [initializeAPIKeys]: the enabled keys of the
    database are restored to the environment. *)
Definition restoreKeys : M unit :=
  tryCatch
    (let* dbKeys := selectKeyRows r_isEnabled in forEach dbKeys restoreKey)
    (fun _ => ret tt).

Definition initializeAPIKeys : M unit :=
  let* _ := restoreKeys in
  let* env := gets processEnv in
  let* _ :=
    modify (setApiKeys
      (List.filter
         (fun key => Js.nonEmpty (keyValue key) && Js.nonEmpty (Js.trim (keyValue key)))
         (imap (fun index keyName => mkApiKey keyName (orElse (env !! keyName) "") index)
               keyNames))) in
  initializeDatabaseKeys.

Definition refreshKeys : M unit := initializeAPIKeys.

Definition getCurrentKey : M (option ApiKey) :=
  gets (fun w =>
    if length (apiKeys w) =? 0 then None
    else apiKeys w !! currentKeyIndex w).

(** The client is the API key it was made with. *)
Definition createGeminiClient : M (option string) :=
  let* currentKey := getCurrentKey in
  match currentKey with
  | None => ret None
  | Some k => ret (Some (keyValue k))
  end.

Definition markQuotaExceeded (resetDate : Z) (r : KeyRow) : KeyRow :=
  mkKeyRow (r_keyName r) (r_keyIndex r) (r_keyValue r) quota_exceeded
           (r_isEnabled r) (r_dailyUsageCount r) (Some resetDate) (r_lastUsed r).

Definition rotateToNextKey : M bool :=
  let* keys := gets apiKeys in
  if length keys <=? 1 then ret false
  else
    let* oldKey := getCurrentKey in
    let* _ :=
      match oldKey with
      | Some k =>
          tryCatch
            (let* t := now in
             updateKeyRows (keyName k)
               (markQuotaExceeded (t + 24 * 60 * 60 * 1000)%Z))
            (fun _ => ret tt)
      | None => ret tt
      end in
    let* _ :=
      modify (fun w =>
        setCurrentKeyIndex ((currentKeyIndex w + 1) mod length (apiKeys w)) w) in
    ret true.

Definition countUse (t : Z) (r : KeyRow) : KeyRow :=
  mkKeyRow (r_keyName r) (r_keyIndex r) (r_keyValue r) (r_status r)
           (r_isEnabled r) (r_dailyUsageCount r + 1)%Z (r_quotaResetDate r) (Some t).

Definition logUsage (userId : string) (userRole : UserRole)
    (requestType : RequestType) (subject : string) (success : bool)
    (keyUsed errorMessage : option string) (processingTime : option Z)
    (promptLength responseLength : option nat) : M unit :=
  tryCatch
    (let* _ :=
       insertUsage
         (mkUsage userId userRole requestType (orElse keyUsed "none") subject
                  success errorMessage processingTime promptLength responseLength) in
     match truthyText keyUsed with
     | Some k =>
         if success then (let* t := now in updateKeyRows k (countUse t))
         else ret tt
     | None => ret tt
     end)
    (fun _ => ret tt).

(** The text of a response, looked for in four places in turn. *)
Definition callText (f : TextAccessor) : M string :=
  match f with
  | textReturns s => ret s
  | textThrows e => throw e
  end.

Definition extractText (response : GeminiResponse) : M string :=
  tryCatch
    (match g_response response ≫= textFn with
     | Some f => callText f
     | None =>
     match truthyText (g_response response ≫= candidateText) with
     | Some t => ret t
     | None =>
     match textFn (g_top response) with
     | Some f => callText f
     | None =>
     match truthyText (candidateText (g_top response)) with
     | Some t => ret t
     | None => throw (newError "Gemini API returned invalid response structure")
     end end end end)
    (fun textError =>
       throw (newError ("Failed to extract text from Gemini response: "
                        ++ interpolate (message textError)))).

(** How the [while] loop of [makeAPICall] is left, when not by a throw. *)
Inductive LoopExit : Type :=
| Returned (result : string)
| Exited (attempt : nat) (lastError : option JsError).

Section MakeAPICall.

Variables (prompt userId : string) (userRole : UserRole)
          (requestType : RequestType) (subject : string).
Variable startTime : Z.

(** The body of the [try] block of one attempt. *)
Definition attemptOnce (genAI : string) (currentKey : ApiKey) : M string :=
  let* response := generateContent genAI prompt in
  match response with
  | None => throw (newError "Gemini API returned no response")
  | Some response =>
      let* result := extractText response in
      let* t := now in
      let processingTime := (t - startTime)%Z in
      let responseLength := Js.length result in
      let* _ :=
        logUsage userId userRole requestType subject true
                 (Some (keyName currentKey)) None (Some processingTime)
                 (Some (Js.length prompt)) (Some responseLength) in
      ret result
  end.

(** The [catch] block of one attempt, up to the test on the error. *)
Definition attemptFailed (currentKey : ApiKey) (error : JsError) : M unit :=
  let* t := now in
  let processingTime := (t - startTime)%Z in
  logUsage userId userRole requestType subject false
           (Some (keyName currentKey)) (message error) (Some processingTime)
           (Some (Js.length prompt)) None.

(** The [while] loop. The first argument bounds the iterations still
    to come; [makeAPICall] starts it at [S maxRetries], more than the
    guard of the loop lets it use (see [attemptLoop_fuel]). *)
Fixpoint attemptLoop (fuel attempt : nat) (lastError : option JsError)
    : M LoopExit :=
  match fuel with
  | 0 => ret (Exited attempt lastError)
  | S fuel' =>
      let* keys := gets apiKeys in
      if (attempt <? maxRetries) && (attempt <? length keys) then
        let* currentKey := getCurrentKey in
        match currentKey with
        | None =>
            let* _ :=
              logUsage userId userRole requestType subject false
                       None (Some MSG_NO_KEYS) None None None in
            throw (newError MSG_NO_KEYS)
        | Some currentKey =>
            let* genAI := createGeminiClient in
            match genAI with
            | None => attemptLoop fuel' (S attempt) lastError
            | Some genAI =>
                tryCatch
                  (let* result := attemptOnce genAI currentKey in
                   ret (Returned result))
                  (fun error =>
                     let* _ := attemptFailed currentKey error in
                     if isQuotaError (Some error) then
                       let* _ := rotateToNextKey in
                       attemptLoop fuel' (S attempt) (Some error)
                     else ret (Exited attempt (Some error)))
            end
        end
      else ret (Exited attempt lastError)
  end.

End MakeAPICall.

(** [lastError?.message?.includes('exhausted')] *)
Definition mentionsExhausted (lastError : option JsError) : bool :=
  match lastError ≫= message with
  | Some m => Js.includes m "exhausted"
  | None => false
  end.

(** The message of the error thrown after the loop. *)
Definition finalMessage (attempt : nat) (lastError : option JsError)
    (keys : list ApiKey) : string :=
  if mentionsExhausted lastError || (length keys <=? attempt) then MSG_DAILY_LIMIT
  else if isQuotaError lastError then MSG_ALL_KEYS_LIMIT
  else orElse (lastError ≫= message) MSG_SERVICE_PROBLEM.

Definition makeAPICall (prompt userId : string) (userRole : UserRole)
    (requestType : RequestType) (subject : string) : M string :=
  let* startTime := now in
  let* exit :=
    attemptLoop prompt userId userRole requestType subject startTime
                (S maxRetries) 0 None in
  match exit with
  | Returned result => ret result
  | Exited attempt lastError =>
      let* keys := gets apiKeys in
      throw (newError (finalMessage attempt lastError keys))
  end.

(** *** The two operations offered to callers *)

(** A sample question of the demo mode. *)
Record Question : Type := mkQuestion {
  questionText : string;
  questionType : string;
  options : option (list string);
  correctAnswer : option string;
  answer : string;
  marks : nat
}.

(** The prompt templates, the two regular-expression matches on the
    backend's text and [JSON.parse] are taken as they come: the texts are
    fixed Bengali instructions around the request's fields, the matches
    and the parser are the JavaScript library's. *)
Variable Json : Type.
Variable questionsPrompt :
  string -> string -> string -> string -> string -> string -> string -> Z -> string.
Variable doubtPrompt : string -> string -> string.
Variable matchArrayBlock : string -> option string.
Variable matchFencedBlock : string -> option string.
Variable JSON_parse : string -> option Json.

Inductive Questions : Type :=
| sampleQuestions (l : list Question)
| parsedQuestions (j : Json).

Definition sampleQuestion (subject chapter questionType difficulty : string)
    (i : nat) : Question :=
  {| questionText :=
       "নমুনা " ++ (if String.eqb subject "chemistry" then "রসায়ন" else "ICT")
       ++ " প্রশ্ন " ++ Js.ofNat (i + 1) ++ " - " ++ chapter
       ++ " (" ++ difficulty ++ " স্তর)";
     questionType := questionType;
     options :=
       if String.eqb questionType "mcq"
       then Some ["বিকল্প ক"; "বিকল্প খ"; "বিকল্প গ"; "বিকল্প ঘ"] else None;
     correctAnswer :=
       if String.eqb questionType "mcq" then Some "বিকল্প ক" else None;
     answer := "Praggo AI সঠিক উত্তর এখানে প্রদান করবে। sir এর সাথে যোগাযোগ করুন।";
     marks :=
       if String.eqb questionType "creative" then 10
       else if String.eqb questionType "cq" then 2 else 1 |}.

Definition generateQuestions
    (subject examType classLevel chapter questionType questionCategory
     difficulty : string) (count : Z) (userId : string) (userRole : UserRole)
    : M Questions :=
  let* keys := gets apiKeys in
  if length keys =? 0 then
    ret (sampleQuestions
           (map (sampleQuestion subject chapter questionType difficulty)
                (seq 0 (Z.to_nat count))))
  else
    let prompt :=
      questionsPrompt subject examType classLevel chapter questionType
                      questionCategory difficulty count in
    tryCatch
      (let* content :=
         makeAPICall prompt userId userRole generate_questions subject in
       let jsonMatch :=
         match matchArrayBlock content with
         | Some m => Some m
         | None => matchFencedBlock content
         end in
       match jsonMatch with
       | Some m =>
           match JSON_parse m with
           | Some j => ret (parsedQuestions j)
           | None =>
               throw (newError "Praggo AI থেকে সঠিক ফরম্যাটে উত্তর পাওয়া যায়নি।")
           end
       | None => throw (newError "Praggo AI থেকে JSON ফরম্যাটে উত্তর পাওয়া যায়নি।")
       end)
      (fun error => throw error).

Definition nl : string := String (ascii_of_nat 10) EmptyString.
Definition dq : string := String (ascii_of_nat 34) EmptyString.

Definition demoModeText (subject question : string) : string :=
  "🤖 Praggo AI সমাধান (ডেমো মোড)" ++ nl ++ nl ++ "আপনার "
  ++ (if String.eqb subject "chemistry" then "রসায়ন" else "ICT")
  ++ " প্রশ্ন: " ++ dq ++ question ++ dq ++ nl ++ nl
  ++ "এটি Praggo AI দ্বারা প্রদত্ত বিস্তারিত ব্যাখ্যা হবে। সঠিক AI সমাধান পেতে sir এর সাথে যোগাযোগ করুন।".

Definition errorText (subjectBangla question : string) (error : JsError) : string :=
  "🤖 Praggo AI সমাধান (ত্রুটি)" ++ nl ++ nl ++ "আপনার " ++ subjectBangla
  ++ " প্রশ্ন: " ++ dq ++ question ++ dq ++ nl ++ nl ++ "❌ "
  ++ interpolate (message error) ++ nl ++ nl
  ++ "অনুগ্রহ করে কিছুক্ষণ পর আবার চেষ্টা করুন বা শিক্ষকের সাহায্য নিন।".

Definition solveDoubt (question subject userId : string) (userRole : UserRole)
    : M string :=
  let* keys := gets apiKeys in
  if length keys =? 0 then ret (demoModeText subject question)
  else
    let subjectBangla :=
      if String.eqb subject "chemistry" then "রসায়ন"
      else "তথ্য ও যোগাযোগ প্রযুক্তি" in
    let prompt := doubtPrompt question subject in
    tryCatch
      (let* result := makeAPICall prompt userId userRole solve_doubt subject in
       ret result)
      (fun error => ret (errorText subjectBangla question error)).

End Service.

(** * Vocabulary of the properties *)

(** The words that mark a quota error. *)
Definition quotaKeywords : list string :=
  [ "quota"; "rate limit"; "limit exceeded"; "resource exhausted" ].








(** Two worlds that agree on everything but the database and its faults. *)
Definition sameService (w1 w2 : World) : Prop :=
  apiKeys w1 = apiKeys w2 /\
  currentKeyIndex w1 = currentKeyIndex w2 /\
  processEnv w1 = processEnv w2 /\
  backendCalls w1 = backendCalls w2.

(** A computation that touches the database only. *)
Definition StoreOnly {A} (m : M A) : Prop :=
  forall w, sameService w (snd (m w)).

(** A computation whose outcome and whose effect on the service do not
    depend on the database. *)
Definition Independent {A} (m : M A) : Prop :=
  forall w1 w2, sameService w1 w2 ->
    fst (m w1) = fst (m w2) /\ sameService (snd (m w1)) (snd (m w2)).

(** The slot the cursor moves to. *)
Definition nextIndex (size cursor : nat) : nat :=
  if size <=? 1 then cursor else (cursor + 1) mod size.

(** The world after [k] rotations. *)
Definition rotations (clock : nat -> Z) (k : nat) (w : World) : World :=
  Nat.iter k (fun v => snd (rotateToNextKey clock v)) w.

(** Will the next database statement fail? *)
Definition nextStatementFails (w : World) : bool :=
  match dbFaults w with
  | true :: _ => true
  | _ => false
  end.

(** The API key in slot [i] of a pool. *)
Definition keyValueAt (keys : list ApiKey) (i : nat) : string :=
  default "" (keyValue <$> keys !! i).

(** The backend invocations of [n] attempts in a row that start at slot
    [cursor] and rotate after each. *)
Definition rotatingCalls (keys : list ApiKey) (cursor : nat) (prompt : string)
    (n : nat) : list (string * string) :=
  map (fun i => (keyValueAt keys ((cursor + i) mod length keys), prompt)) (seq 0 n).

(** The usage record of a failed attempt with key [k], begun at
    [startTime] and finished at [finished]. *)
Definition failedUsage (prompt userId : string) (userRole : UserRole)
    (requestType : RequestType) (subject : string) (startTime : Z)
    (k : ApiKey) (error : JsError) (finished : Z) : UsageRecord :=
  mkUsage userId userRole requestType (orElse (Some (keyName k)) "none") subject
          false (message error) (Some (finished - startTime)%Z)
          (Some (Js.length prompt)) None.

(** The first [j] backend invocations of a run that starts in [w] are
    rejected with quota-classified errors. *)
Definition quotaRejections (backend : nat -> string -> string -> BackendReply)
    (prompt : string) (w : World) (j : nat) : Prop :=
  forall i, i < j ->
    exists e,
      backend (length (backendCalls w) + i)
              (keyValueAt (apiKeys w)
                          ((currentKeyIndex w + i) mod length (apiKeys w)))
              prompt = rejects e /\
      isQuotaError (Some e) = true.

(** A computation that leaves the component [f] of the world alone. *)
Definition Keeps {X A} (f : World -> X) (m : M A) : Prop :=
  forall w, f (snd (m w)) = f w.

(** The pool [initializeAPIKeys] derives from an environment. *)
Definition poolOf (env : gmap string string) : list ApiKey :=
  List.filter
    (fun key => Js.nonEmpty (keyValue key) && Js.nonEmpty (Js.trim (keyValue key)))
    (imap (fun index keyName => mkApiKey keyName (orElse (env !! keyName) "") index)
          keyNames).

(** The label of the subject in the sample questions. *)
Definition subjectLabel (subject : string) : string :=
  if String.eqb subject "chemistry" then "রসায়ন" else "ICT".

(** The Bengali name of the subject in the error text of [solveDoubt]. *)
Definition subjectBangla (subject : string) : string :=
  if String.eqb subject "chemistry" then "রসায়ন" else "তথ্য ও যোগাযোগ প্রযুক্তি".

(** ** Example services and backends *)

Definition key1 : ApiKey := mkApiKey "GEMINI_API_KEY" "AIzaSy-first-key" 0.
Definition key2 : ApiKey := mkApiKey "GEMINI_API_KEY_2" "AIzaSy-second-key" 1.
Definition key3 : ApiKey := mkApiKey "GEMINI_API_KEY_3" "AIzaSy-third-key" 2.

(** A service with the given pool and cursor, an empty environment and an
    empty, healthy database. *)
Definition service (keys : list ApiKey) (cursor : nat) : World :=
  mkWorld keys cursor ∅ (mkDb [] []) [] [].

Definition tick (n : nat) : Z := (1000 * Z.of_nat n)%Z.

Definition quotaError : JsError :=
  mkError (Some "You exceeded your current quota") (Js.number 429) Js.undefined.
Definition timeoutError : JsError :=
  newError "fetch failed: connection timed out".
Definition phAnswer : GeminiResponse :=
  mkResponse None (mkEnvelope None (Some "pH is a measure of acidity")).

Definition alwaysQuota (n : nat) (apiKey prompt : string) : BackendReply :=
  rejects quotaError.
Definition alwaysTimeout (n : nat) (apiKey prompt : string) : BackendReply :=
  rejects timeoutError.
Definition onlySecondKeyAnswers (n : nat) (apiKey prompt : string) : BackendReply :=
  if String.eqb apiKey (keyValue key1) then rejects quotaError else resolves phAnswer.

(** The environment with both keys, and with the second one gone. *)
Definition envTwoKeys : gmap string string :=
  <["GEMINI_API_KEY_2" := keyValue key2]> {["GEMINI_API_KEY" := keyValue key1]}.
Definition envOneKey : gmap string string :=
  {["GEMINI_API_KEY" := keyValue key1]}.

(** A service built with two keys, rotated once, and refreshed after the
    second key was taken out of the environment. *)
Definition shrunkService : World :=
  let built := snd (refreshKeys (setProcessEnv envTwoKeys (service [] 0))) in
  let rotated := snd (rotateToNextKey tick built) in
  snd (refreshKeys (setProcessEnv envOneKey rotated)).

(** ** Usage statistics *)

(** What [getUsageStats] returns. *)
Record UsageStats : Type := mkStats {
  todayUsage : nat;
  successfulCalls : nat;
  failedCalls : nat;
  questionsGenerated : nat;
  doubtsResolved : nat
}.

Definition isGenerateQuestions (t : RequestType) : bool :=
  match t with generate_questions => true | solve_doubt => false end.

Definition isSolveDoubt (t : RequestType) : bool :=
  match t with generate_questions => false | solve_doubt => true end.

(** [db.select().from(praggoAIUsage).where(p)]; the condition may look at
    the position of a row in the table, which stands for the columns the
    database fills in when a row is inserted. *)
Definition selectUsageRows (p : nat -> UsageRecord -> bool) : M (list UsageRecord) :=
  dbStatement (fun d =>
    (map snd (List.filter (fun iu => p (fst iu) (snd iu))
                          (imap pair (praggoAIUsage d))), d)).

Section Statistics.

Variable clock : nat -> Z.

(** Modelled from the spec: the [createdAt] column of [praggoAIUsage]
    (module [@shared/schema]) is not part of the sources; it is the
    timestamp of the usage record, here the time the database gave to the
    [i]-th row of the append-only table. *)
Variable createdAt : nat -> Z.

(** [setHours(0, 0, 0, 0)]: the start of the local day of a time. *)
Variable startOfDay : Z -> Z.

Definition getUsageStats (userId : string) : M UsageStats :=
  tryCatch
    (let* t := now clock in
     let today := startOfDay t in
     let* usage :=
       selectUsageRows (fun i u =>
         String.eqb (u_userId u) userId && (today <=? createdAt i)%Z) in
     ret {| todayUsage := length usage;
            successfulCalls := length (List.filter u_success usage);
            failedCalls := length (List.filter (fun u => negb (u_success u)) usage);
            questionsGenerated :=
              length (List.filter (fun u => isGenerateQuestions (u_requestType u)) usage);
            doubtsResolved :=
              length (List.filter (fun u => isSolveDoubt (u_requestType u)) usage) |})
    (fun _ => ret (mkStats 0 0 0 0 0)).

End Statistics.

(** ** Vocabulary of the further properties *)

(** The cursor points into the pool. *)
Definition inRange (w : World) : Prop :=
  currentKeyIndex w < length (apiKeys w).

(** The value [restoreKey] takes from a database row, if it takes one. *)
Definition restorable (r : KeyRow) : option string :=
  match r_keyValue r with
  | Some v =>
      if Js.nonEmpty v && (10 <? Js.length (Js.trim v)) then Some v else None
  | None => None
  end.

(** The assignment to the environment a row leads to, if it leads to
    one: the name and the value the environment then holds. *)
Definition assignment (r : KeyRow) : option (string * string) :=
  match restorable r with
  | Some v =>
      let name := Js.cString (r_keyName r) in
      if Js.nonEmpty name && negb (Js.includes name "=")
      then Some (name, Js.cString v) else None
  | None => None
  end.

(** The row [initializeDatabaseKeys] inserts for a key without one. *)
Definition freshKeyRow (key : ApiKey) : KeyRow :=
  mkKeyRow (keyName key) (keyIndex key) None active true 0%Z None None.

(** Is there a row of that name? *)
Definition hasRow (name : string) (rows : list KeyRow) : bool :=
  existsb (fun r => String.eqb (r_keyName r) name) rows.

(** The rows of a key name marked as [rotateToNextKey] marks them. *)
Definition markRows (name : string) (resetDate : Z) (rows : list KeyRow)
    : list KeyRow :=
  map (fun r => if String.eqb (r_keyName r) name
                then markQuotaExceeded resetDate r else r) rows.

(** The rows of a key name counted as [logUsage] counts a success. *)
Definition countRows (name : string) (t : Z) (rows : list KeyRow) : list KeyRow :=
  map (fun r => if String.eqb (r_keyName r) name then countUse t r else r) rows.

(** A response in which none of the four places holds a text. *)
Definition textless (r : GeminiResponse) : Prop :=
  g_response r ≫= textFn = None /\
  truthyText (g_response r ≫= candidateText) = None /\
  textFn (g_top r) = None /\
  truthyText (candidateText (g_top r)) = None.

(** What made the reading of a response's text fail, as the message of
    the failure names it: the message of what the text accessor of the
    nested response threw; or, when the nested response holds no text,
    the message of what the accessor of the response itself threw; or the
    text for a response without a text in any of the four places. *)
Definition extractionCause (r : GeminiResponse) (cause : string) : Prop :=
  (exists inner,
      g_response r ≫= textFn = Some (textThrows inner) /\
      cause = interpolate (message inner)) \/
  (exists inner,
      g_response r ≫= textFn = None /\
      truthyText (g_response r ≫= candidateText) = None /\
      textFn (g_top r) = Some (textThrows inner) /\
      cause = interpolate (message inner)) \/
  (textless r /\ cause = "Gemini API returned invalid response structure").

(** A blank text, the empty one included: white space characters one
    after the other. *)
Definition blank (s : string) : Prop :=
  exists l, Forall (fun ws => In ws Js.whiteSpaces) l /\
            s = fold_right String.append "" l.

(** The value of a key is usable: neither empty nor blank. *)
Definition usableValue (v : string) : bool :=
  Js.nonEmpty v && Js.nonEmpty (Js.trim v).

Definition MSG_NO_RESPONSE : string := "Gemini API returned no response".
Definition MSG_INVALID_STRUCTURE : string :=
  "Failed to extract text from Gemini response: Gemini API returned invalid response structure".
Definition EXTRACT_PREFIX : string :=
  "Failed to extract text from Gemini response: ".

(** The error an attempt fails with, given what the backend answers to
    its invocation: the error the backend rejects with; the no-response
    error when it resolves with nothing; the error of the extraction
    when the text of its response cannot be read. *)
Definition attemptError (reply : BackendReply) (err : JsError) : Prop :=
  match reply with
  | rejects e => err = e
  | resolvesNothing => err = newError MSG_NO_RESPONSE
  | resolves r => forall v, extractText r v = (Throw err, v)
  end.

(** A usage record of the given request. *)
Definition usageOf (userId : string) (userRole : UserRole)
    (requestType : RequestType) (subject : string) (u : UsageRecord) : Prop :=
  u_userId u = userId /\ u_userRole u = userRole /\
  u_requestType u = requestType /\ u_subject u = subject.

(** The name of the key in slot [i] of a pool. *)
Definition keyNameAt (keys : list ApiKey) (i : nat) : string :=
  default "" (keyName <$> keys !! i).

(** The names of the keys [n] attempts in a row go through, from slot
    [cursor] on. *)
Definition rotatingNames (keys : list ApiKey) (cursor n : nat) : list string :=
  map (fun i => keyNameAt keys ((cursor + i) mod length keys)) (seq 0 n).

(** Row [r'] is row [r] after the keys named in [names] were marked: it
    is quota-exceeded with a reset date when its name is among them, and
    untouched otherwise. *)
Definition markedRow (names : list string) (r r' : KeyRow) : Prop :=
  r_keyName r' = r_keyName r /\
  (r_keyName r ∈ names ->
   r_status r' = quota_exceeded /\ is_Some (r_quotaResetDate r')) /\
  (r_keyName r ∉ names -> r' = r).

(** The environment after the rows of a database answer were restored
    in turn. *)
Definition restoredEnv (rows : list KeyRow) (env : gmap string string)
    : gmap string string :=
  fold_left (fun e r => match assignment r with
                        | Some (name, v) => <[name := v]> e
                        | None => e
                        end) rows env.

(** The keys table after [initializeDatabaseKeys] went through the keys
    in turn, on a healthy database. *)
Definition ensureRows (keys : list ApiKey) (rows : list KeyRow) : list KeyRow :=
  fold_left (fun rs key => if hasRow (keyName key) rs then rs
                           else (rs ++ [freshKeyRow key])%list) keys rows.

(** The rows [getUsageStats] selects: those of the user, created today. *)
Definition todaysRows (createdAt : nat -> Z) (today : Z) (userId : string)
    (table : list UsageRecord) : list UsageRecord :=
  map snd (List.filter (fun iu => String.eqb (u_userId (snd iu)) userId
                                  && (today <=? createdAt (fst iu))%Z)
                       (imap pair table)).

(** A backend that resolves with nothing, one that always answers, and a
    response whose text accessor throws an error with status 429. *)
Definition silentBackend (n : nat) (apiKey prompt : string) : BackendReply :=
  resolvesNothing.
Definition alwaysAnswers (n : nat) (apiKey prompt : string) : BackendReply :=
  resolves phAnswer.
Definition throwingResponse : GeminiResponse :=
  mkResponse
    (Some (mkEnvelope (Some (textThrows (mkError (Some "boom") (Js.number 429)
                                                 Js.undefined))) None))
    (mkEnvelope None None).

(** Rows of the keys table: one for each of the first two keys, one for a
    key that is in no pool, and one that stores a value for the second
    key name. *)
Definition row1 : KeyRow := mkKeyRow "GEMINI_API_KEY" 0 None active true 3%Z None None.
Definition row2 : KeyRow := mkKeyRow "GEMINI_API_KEY_2" 1 None active true 0%Z None None.
Definition rowOther : KeyRow := mkKeyRow "OLD_KEY" 9 None active true 5%Z None None.
Definition storedRow : KeyRow :=
  mkKeyRow "GEMINI_API_KEY_2" 1 (Some "AIzaSy-stored-key") active true 0%Z None None.

(** A service of two keys over a keys table of three rows. *)
Definition serviceWithRows : World :=
  mkWorld [key1; key2] 0 ∅ (mkDb [] [row1; row2; rowOther]) [] [].

(** A fresh service whose database stores the second key, and one whose
    database does not answer the first statement. *)
Definition serviceWithStore : World :=
  mkWorld [] 0 envOneKey (mkDb [] [storedRow]) [] [].
Definition offlineService : World :=
  mkWorld [] 0 envTwoKeys (mkDb [] []) [true] [].

(** The usage table of one user's day: positions 0 and 1 are yesterday's. *)
Definition dayOfUsage : list UsageRecord :=
  [ mkUsage "u1" student solve_doubt "k" "ict" true None None None None;
    mkUsage "u1" student solve_doubt "k" "ict" false None None None None;
    mkUsage "u1" teacher generate_questions "k" "ict" true None None None None;
    mkUsage "u2" student solve_doubt "k" "ict" true None None None None;
    mkUsage "u1" student solve_doubt "k" "ict" false None None None None ].
Definition serviceWithUsage : World :=
  mkWorld [key1] 0 ∅ (mkDb dayOfUsage []) [] [].
Definition createdAtDay (i : nat) : Z := if i <? 2 then 10%Z else 100%Z.

(** An error that is not quota-classified but mentions "exhausted". *)
Definition poolError : JsError := newError "Connection pool exhausted".
Definition alwaysPoolError (n : nat) (apiKey prompt : string) : BackendReply :=
  rejects poolError.

(** An error to which the backend has added a status and a code, and a
    backend that rejects every invocation with it. *)
Definition internalError : JsError :=
  mkError (Some "Internal error") (Js.number 500) (Js.str "INTERNAL").
Definition alwaysInternalError (n : nat) (apiKey prompt : string) : BackendReply :=
  rejects internalError.

(** A response whose nested response holds no text and whose own text
    accessor throws. *)
Definition topThrowingResponse : GeminiResponse :=
  mkResponse (Some (mkEnvelope None None))
             (mkEnvelope (Some (textThrows (newError "bang"))) None).

(** An environment whose second key is a no-break space. *)
Definition nbsp : string := Js.bytes [194; 160].
Definition envBlankKey : gmap string string :=
  <["GEMINI_API_KEY_2" := nbsp]> {["GEMINI_API_KEY" := keyValue key1]}.

(** A service whose database stores, for the third key name, a value of
    nine letters, which are 27 bytes of UTF-8. *)
Definition shortStoredRow : KeyRow :=
  mkKeyRow "GEMINI_API_KEY_3" 2 (Some "রসায়নবিদ") active true 0%Z None None.
Definition serviceWithShortStore : World :=
  mkWorld [] 0 envOneKey (mkDb [] [shortStoredRow]) [] [].


(** * Properties *)

(** ** The failure classifier *)

Section Strings.

Lemma startsWith_prefix (s p : string) :
  Js.startsWith s p = true <-> exists suf, s = p ++ suf.
Proof.
  revert s. induction p as [|a p IH]; intros s; simpl.
  - split; [intros _; now exists s | reflexivity].
  - destruct s as [|b s].
    + split; [discriminate | intros [suf H]; discriminate].
    + rewrite andb_true_iff, Ascii.eqb_eq, IH. split.
      * intros [-> [suf ->]]. now exists suf.
      * intros [suf H]. injection H as -> ->. split; [reflexivity | now exists suf].
Qed.

Lemma includes_substring (s p : string) :
  Js.includes s p = true <-> exists pre suf, s = pre ++ p ++ suf.
Proof.
  induction s as [|c s IH].
  - simpl. rewrite orb_false_r, startsWith_prefix. split.
    + intros [suf H]. now exists "", suf.
    + intros [[|c pre] [suf H]]; [now exists suf | discriminate].
  - cbn [Js.includes]. rewrite orb_true_iff, startsWith_prefix, IH. split.
    + intros [[suf H] | [pre [suf H]]].
      * now exists "", suf.
      * exists (String c pre), suf. simpl. now rewrite H.
    + intros [[|c' pre] [suf H]].
      * left. now exists suf.
      * right. simpl in H. injection H as _ H. now exists pre, suf.
Qed.



Lemma lowerChar_idem (c : ascii) : Js.lowerChar (Js.lowerChar c) = Js.lowerChar c.
Proof.
  unfold Js.lowerChar.
  destruct ((65 <=? nat_of_ascii c) && (nat_of_ascii c <=? 90)) eqn:E.
  - apply andb_true_iff in E as [E1 E2].
    apply Nat.leb_le in E1, E2.
    rewrite nat_ascii_embedding by lia.
    replace (nat_of_ascii c + 32 <=? 90) with false
      by (symmetry; apply Nat.leb_gt; lia).
    now rewrite andb_false_r.
  - now rewrite E.
Qed.

Lemma toLowerCase_idem (s : string) :
  Js.toLowerCase (Js.toLowerCase s) = Js.toLowerCase s.
Proof.
  induction s as [|c s IH]; simpl; [reflexivity|].
  now rewrite lowerChar_idem, IH.
Qed.

End Strings.














(** ** What the database cannot influence *)

Lemma sameService_refl w : sameService w w.
Proof. now repeat split. Qed.

Lemma sameService_sym w1 w2 : sameService w1 w2 -> sameService w2 w1.
Proof. intros (? & ? & ? & ?). now repeat split. Qed.

Lemma sameService_trans w1 w2 w3 :
  sameService w1 w2 -> sameService w2 w3 -> sameService w1 w3.
Proof.
  intros (? & ? & ? & ?) (? & ? & ? & ?). repeat split; congruence.
Qed.

Section Frames.

Context {A B : Type}.

Lemma storeOnly_ret (a : A) : StoreOnly (ret a).
Proof. intros w. apply sameService_refl. Qed.

Lemma storeOnly_gets (f : World -> A) : StoreOnly (gets f).
Proof. intros w. apply sameService_refl. Qed.

Lemma storeOnly_bind (m : M A) (k : A -> M B) :
  StoreOnly m -> (forall a, StoreOnly (k a)) -> StoreOnly (bind m k).
Proof.
  intros Hm Hk w. unfold bind. specialize (Hm w).
  destruct (m w) as [[a|e] w']; simpl in *; [|exact Hm].
  eapply sameService_trans; [exact Hm | apply Hk].
Qed.

Lemma storeOnly_tryCatch (m : M A) (h : JsError -> M A) :
  StoreOnly m -> (forall e, StoreOnly (h e)) -> StoreOnly (tryCatch m h).
Proof.
  intros Hm Hh w. unfold tryCatch. specialize (Hm w).
  destruct (m w) as [[a|e] w']; simpl in *; [exact Hm|].
  eapply sameService_trans; [exact Hm | apply Hh].
Qed.

Lemma storeOnly_dbStatement (f : Database -> A * Database) :
  StoreOnly (dbStatement f).
Proof.
  intros w. unfold dbStatement.
  destruct (dbFaults w) as [|[|] rest]; try destruct (f (db w)) as [a d];
    unfold sameService; simpl; tauto.
Qed.

Lemma independent_ret (a : A) : Independent (ret a).
Proof. intros w1 w2 H. now split. Qed.

Lemma independent_throw (e : JsError) : Independent (@throw A e).
Proof. intros w1 w2 H. now split. Qed.

Lemma independent_gets (f : World -> A) :
  (forall w1 w2, sameService w1 w2 -> f w1 = f w2) -> Independent (gets f).
Proof. intros Hf w1 w2 H. unfold gets; simpl. split; [now rewrite (Hf _ _ H) | exact H]. Qed.

Lemma independent_bind (m : M A) (k : A -> M B) :
  Independent m -> (forall a, Independent (k a)) -> Independent (bind m k).
Proof.
  intros Hm Hk w1 w2 H. unfold bind. destruct (Hm _ _ H) as [Ho Hw].
  destruct (m w1) as [[a1|e1] w1'], (m w2) as [[a2|e2] w2'];
    simpl in *; try discriminate.
  - injection Ho as ->. now apply Hk.
  - injection Ho as ->. now split.
Qed.

Lemma independent_tryCatch (m : M A) (h : JsError -> M A) :
  Independent m -> (forall e, Independent (h e)) -> Independent (tryCatch m h).
Proof.
  intros Hm Hh w1 w2 H. unfold tryCatch. destruct (Hm _ _ H) as [Ho Hw].
  destruct (m w1) as [[a1|e1] w1'], (m w2) as [[a2|e2] w2'];
    simpl in *; try discriminate.
  - injection Ho as ->. now split.
  - injection Ho as ->. now apply Hh.
Qed.

End Frames.

(** A block [try { m } catch { }] around database statements: it always
    completes, and nothing outside the database can tell how. *)
Lemma swallowed_returns (m : M unit) w :
  fst (tryCatch m (fun _ => ret tt) w) = Return tt.
Proof. unfold tryCatch, ret. now destruct (m w) as [[[]|e] w']. Qed.

Lemma swallowed_storeOnly (m : M unit) :
  StoreOnly m -> StoreOnly (tryCatch m (fun _ => ret tt)).
Proof. intros H. apply storeOnly_tryCatch; [exact H | intros e; apply storeOnly_ret]. Qed.

Lemma swallowed_independent (m : M unit) :
  StoreOnly m -> Independent (tryCatch m (fun _ => ret tt)).
Proof.
  intros Hm w1 w2 H. split.
  - now rewrite !swallowed_returns.
  - pose proof (swallowed_storeOnly m Hm) as Hs.
    eapply sameService_trans; [apply sameService_sym, Hs|].
    eapply sameService_trans; [exact H | apply Hs].
Qed.

Section ServiceFrames.

Variable backend : nat -> string -> string -> BackendReply.
Variable clock : nat -> Z.

Lemma storeOnly_now : StoreOnly (now clock).
Proof. apply storeOnly_gets. Qed.

Lemma independent_now : Independent (now clock).
Proof. apply independent_gets. intros w1 w2 (_ & _ & _ & ->). reflexivity. Qed.

Lemma storeOnly_logUsage_body userId userRole requestType subject success
      keyUsed errorMessage processingTime promptLength responseLength :
  StoreOnly
    (let* _ :=
       insertUsage
         (mkUsage userId userRole requestType (orElse keyUsed "none") subject
                  success errorMessage processingTime promptLength responseLength) in
     match truthyText keyUsed with
     | Some k =>
         if success then (let* t := now clock in updateKeyRows k (countUse t))
         else ret tt
     | None => ret tt
     end).
Proof.
  apply storeOnly_bind; [apply storeOnly_dbStatement|]. intros _.
  destruct (truthyText keyUsed); [|apply storeOnly_ret].
  destruct success; [|apply storeOnly_ret].
  apply storeOnly_bind; [apply storeOnly_now|]. intros t. apply storeOnly_dbStatement.
Qed.

Lemma logUsage_returns userId userRole requestType subject success
      keyUsed errorMessage processingTime promptLength responseLength w :
  fst (logUsage clock userId userRole requestType subject success keyUsed
                errorMessage processingTime promptLength responseLength w)
  = Return tt.
Proof. apply swallowed_returns. Qed.

Lemma storeOnly_logUsage userId userRole requestType subject success
      keyUsed errorMessage processingTime promptLength responseLength :
  StoreOnly (logUsage clock userId userRole requestType subject success keyUsed
                      errorMessage processingTime promptLength responseLength).
Proof. apply swallowed_storeOnly, storeOnly_logUsage_body. Qed.

Lemma independent_logUsage userId userRole requestType subject success
      keyUsed errorMessage processingTime promptLength responseLength :
  Independent (logUsage clock userId userRole requestType subject success keyUsed
                        errorMessage processingTime promptLength responseLength).
Proof. apply swallowed_independent, storeOnly_logUsage_body. Qed.

Lemma independent_getCurrentKey : Independent getCurrentKey.
Proof.
  apply independent_gets. intros w1 w2 (-> & -> & _). reflexivity.
Qed.

Lemma independent_rotateToNextKey : Independent (rotateToNextKey clock).
Proof.
  unfold rotateToNextKey.
  apply independent_bind.
  { apply independent_gets. now intros w1 w2 (-> & _). }
  intros keys. destruct (length keys <=? 1); [apply independent_ret|].
  apply independent_bind; [apply independent_getCurrentKey|]. intros oldKey.
  apply independent_bind.
  { destruct oldKey as [k|]; [|apply independent_ret].
    apply swallowed_independent.
    apply storeOnly_bind; [apply storeOnly_now|]. intros t. apply storeOnly_dbStatement. }
  intros _. apply independent_bind; [|intros; apply independent_ret].
  intros w1 w2 (Hk & Hc & He & Hb). unfold modify; simpl.
  split; [reflexivity|]. repeat split; simpl; congruence.
Qed.

Lemma independent_generateContent apiKey prompt :
  Independent (generateContent backend apiKey prompt).
Proof.
  intros w1 w2 (Hk & Hc & He & Hb). unfold generateContent. rewrite Hb.
  destruct (backend _ _ _); simpl; (split; [reflexivity|]);
    repeat split; simpl; congruence.
Qed.

Lemma independent_callText f : Independent (callText f).
Proof. destruct f; [apply independent_ret | apply independent_throw]. Qed.

Lemma independent_extractText response : Independent (extractText response).
Proof.
  unfold extractText. apply independent_tryCatch; [|intros; apply independent_throw].
  repeat match goal with
         | |- Independent (match ?x with _ => _ end) => destruct x
         end;
    first [apply independent_callText | apply independent_ret | apply independent_throw].
Qed.

Section Loop.

Variables (prompt userId : string) (userRole : UserRole)
          (requestType : RequestType) (subject : string).

Lemma independent_attemptOnce startTime genAI currentKey :
  Independent (attemptOnce backend clock prompt userId userRole requestType
                           subject startTime genAI currentKey).
Proof.
  unfold attemptOnce.
  apply independent_bind; [apply independent_generateContent|].
  intros [response|]; [|apply independent_throw].
  apply independent_bind; [apply independent_extractText|]. intros result.
  apply independent_bind; [apply independent_now|]. intros t.
  apply independent_bind; [apply independent_logUsage|]. intros _.
  apply independent_ret.
Qed.

Lemma independent_attemptFailed startTime currentKey error :
  Independent (attemptFailed clock prompt userId userRole requestType subject
                             startTime currentKey error).
Proof.
  unfold attemptFailed.
  apply independent_bind; [apply independent_now|]. intros t.
  apply independent_logUsage.
Qed.

Lemma independent_attemptLoop startTime fuel :
  forall attempt lastError,
    Independent (attemptLoop backend clock prompt userId userRole requestType
                             subject startTime fuel attempt lastError).
Proof.
  induction fuel as [|fuel IH]; intros attempt lastError; cbn [attemptLoop].
  - apply independent_ret.
  - apply independent_bind.
    { apply independent_gets. now intros w1 w2 (-> & _). }
    intros keys.
    destruct ((attempt <? maxRetries) && (attempt <? length keys));
      [|apply independent_ret].
    apply independent_bind; [apply independent_getCurrentKey|].
    intros [currentKey|].
    + apply independent_bind.
      { unfold createGeminiClient.
        apply independent_bind; [apply independent_getCurrentKey|].
        intros [k|]; apply independent_ret. }
      intros [genAI|]; [|apply IH].
      apply independent_tryCatch.
      * apply independent_bind; [apply independent_attemptOnce|].
        intros result. apply independent_ret.
      * intros error.
        apply independent_bind; [apply independent_attemptFailed|]. intros _.
        destruct (isQuotaError (Some error)); [|apply independent_ret].
        apply independent_bind; [apply independent_rotateToNextKey|].
        intros _. apply IH.
    + apply independent_bind; [apply independent_logUsage|].
      intros _. apply independent_throw.
Qed.

Lemma independent_makeAPICall :
  Independent (makeAPICall backend clock prompt userId userRole requestType subject).
Proof.
  unfold makeAPICall.
  apply independent_bind; [apply independent_now|]. intros startTime.
  apply independent_bind; [apply independent_attemptLoop|].
  intros [result|attempt lastError]; [apply independent_ret|].
  apply independent_bind.
  { apply independent_gets. now intros w1 w2 (-> & _). }
  intros keys. apply independent_throw.
Qed.

End Loop.

Lemma swallowed_run (m : M unit) w :
  StoreOnly m ->
  exists w', tryCatch m (fun _ => ret tt) w = (Return tt, w') /\ sameService w w'.
Proof.
  intros Hm.
  exists (snd (tryCatch m (fun _ => ret tt) w)). split.
  - rewrite <- (swallowed_returns m w). now destruct (tryCatch _ _ w).
  - now apply swallowed_storeOnly.
Qed.

Lemma logUsage_run userId userRole requestType subject success
      keyUsed errorMessage processingTime promptLength responseLength w :
  exists w',
    logUsage clock userId userRole requestType subject success keyUsed
             errorMessage processingTime promptLength responseLength w
    = (Return tt, w') /\ sameService w w'.
Proof. apply swallowed_run, storeOnly_logUsage_body. Qed.

Lemma rotateToNextKey_run w :
  exists w',
    rotateToNextKey clock w = (Return (negb (length (apiKeys w) <=? 1)), w') /\
    apiKeys w' = apiKeys w /\
    currentKeyIndex w' = nextIndex (length (apiKeys w)) (currentKeyIndex w) /\
    processEnv w' = processEnv w /\
    backendCalls w' = backendCalls w /\
    (length (apiKeys w) <= 1 -> w' = w).
Proof.
  unfold rotateToNextKey, nextIndex, bind at 1, gets at 1.
  destruct (length (apiKeys w) <=? 1) eqn:E.
  - exists w. simpl. now repeat split.
  - apply Nat.leb_gt in E.
    unfold bind at 1, getCurrentKey, gets.
    set (store := match _ with Some k => _ | None => _ end).
    assert (exists w1, store w = (Return tt, w1) /\ sameService w w1)
      as (w1 & Hrun & Hk & Hc & He & Hb).
    { subst store. destruct (if _ =? 0 then _ else _) as [k|].
      - apply swallowed_run.
        apply storeOnly_bind; [apply storeOnly_now|]. intros t.
        apply storeOnly_dbStatement.
      - exists w. split; [reflexivity | apply sameService_refl]. }
    unfold bind, modify, ret. rewrite Hrun. simpl.
    eexists. split; [reflexivity|]. simpl.
    rewrite <- Hk, <- Hc, <- He, <- Hb. repeat split. lia.
Qed.

End ServiceFrames.

(** C9. No failure of the database reaches the caller: [logUsage] and
    [rotateToNextKey] complete normally whatever the database does, the
    rotation moves the cursor all the same, and [makeAPICall] gives its
    caller the same outcome, and leaves the service in the same state,
    under any script of database faults as with a database that never
    fails. *)
Theorem persistence_failures_swallowed
    (backend : nat -> string -> string -> BackendReply) (clock : nat -> Z) :
  (forall userId userRole requestType subject success keyUsed errorMessage
          processingTime promptLength responseLength w,
      exists w',
        logUsage clock userId userRole requestType subject success keyUsed
                 errorMessage processingTime promptLength responseLength w
        = (Return tt, w') /\ sameService w w') /\
  (forall w,
      exists w',
        rotateToNextKey clock w = (Return (negb (length (apiKeys w) <=? 1)), w') /\
        apiKeys w' = apiKeys w /\
        currentKeyIndex w' = nextIndex (length (apiKeys w)) (currentKeyIndex w)) /\
  (forall prompt userId userRole requestType subject w faults,
      let call := makeAPICall backend clock prompt userId userRole requestType subject in
      fst (call (setDbFaults faults w)) = fst (call (setDbFaults [] w)) /\
      sameService (snd (call (setDbFaults faults w))) (snd (call (setDbFaults [] w)))).
Proof.
  split; [|split].
  - intros. apply logUsage_run.
  - intros w. destruct (rotateToNextKey_run clock w) as (w' & H & Hk & Hc & _).
    now exists w'.
  - intros prompt userId userRole requestType subject w faults call.
    apply independent_makeAPICall. now repeat split.
Qed.

(** ** Rotation *)

Section Rotation.

Variable clock : nat -> Z.

Lemma rotate_apiKeys w : apiKeys (snd (rotateToNextKey clock w)) = apiKeys w.
Proof.
  destruct (rotateToNextKey_run clock w) as (w' & -> & H & _). exact H.
Qed.

Lemma rotate_cursor w :
  currentKeyIndex (snd (rotateToNextKey clock w))
  = nextIndex (length (apiKeys w)) (currentKeyIndex w).
Proof.
  destruct (rotateToNextKey_run clock w) as (w' & -> & _ & H & _). exact H.
Qed.

Lemma rotations_apiKeys k w : apiKeys (rotations clock k w) = apiKeys w.
Proof.
  induction k as [|k IH]; [reflexivity|].
  unfold rotations in *. simpl. now rewrite rotate_apiKeys.
Qed.

Lemma nextIndex_mod size cursor k :
  1 <= size ->
  nextIndex size ((cursor + k) mod size) = (cursor + S k) mod size.
Proof.
  intros Hsize. unfold nextIndex.
  destruct (size <=? 1) eqn:E.
  - apply Nat.leb_le in E. assert (size = 1) as -> by lia.
    now rewrite !Nat.mod_1_r.
  - rewrite Nat.Div0.add_mod_idemp_l. f_equal. lia.
Qed.

Lemma rotations_cursor k w :
  1 <= length (apiKeys w) -> currentKeyIndex w < length (apiKeys w) ->
  currentKeyIndex (rotations clock k w)
  = (currentKeyIndex w + k) mod length (apiKeys w).
Proof.
  intros HN Hc. induction k as [|k IH].
  - simpl. rewrite Nat.add_0_r. symmetry. now apply Nat.mod_small.
  - change (rotations clock (S k) w)
      with (snd (rotateToNextKey clock (rotations clock k w))).
    rewrite rotate_cursor, rotations_apiKeys, IH. now apply nextIndex_mod.
Qed.

Lemma shifted_mod_inj size c i j :
  i < size -> j < size -> (c + i) mod size = (c + j) mod size -> i = j.
Proof.
  intros Hi Hj H.
  pose proof (Nat.div_mod_eq (c + i) size) as Ei.
  pose proof (Nat.div_mod_eq (c + j) size) as Ej.
  rewrite H in Ei.
  assert ((c + i) / size = (c + j) / size) by nia.
  nia.
Qed.

Lemma shifted_mod_surj size c slot :
  c < size -> slot < size ->
  (c + (slot + size - c) mod size) mod size = slot.
Proof.
  intros Hc Hs. rewrite Nat.Div0.add_mod_idemp_r.
  replace (c + (slot + size - c)) with (slot + 1 * size) by lia.
  rewrite Nat.Div0.mod_add. now apply Nat.mod_small.
Qed.

End Rotation.

(** C7. On a pool of at most one key the rotation does nothing (it
    returns before the remainder is taken). On a pool of [N >= 1] keys with
    the cursor in range, the cursor stays in range under any number of
    rotations, the first [N] positions it takes are pairwise distinct and
    cover every slot, and after [N] rotations it is back where it started. *)
Theorem rotation_cycles (clock : nat -> Z) :
  (forall w, length (apiKeys w) <= 1 ->
             rotateToNextKey clock w = (Return false, w)) /\
  (forall w,
      let N := length (apiKeys w) in
      let cursor k := currentKeyIndex (rotations clock k w) in
      1 <= N -> currentKeyIndex w < N ->
      (forall k, cursor k < N) /\
      (forall k, cursor k = (currentKeyIndex w + k) mod N) /\
      (forall i j, i < N -> j < N -> cursor i = cursor j -> i = j) /\
      (forall slot, slot < N -> exists k, k < N /\ cursor k = slot) /\
      cursor N = currentKeyIndex w).
Proof.
  split.
  - intros w Hw.
    destruct (rotateToNextKey_run clock w) as (w' & -> & _ & _ & _ & _ & Hnoop).
    rewrite (Hnoop Hw). f_equal. f_equal.
    apply negb_false_iff. now apply Nat.leb_le.
  - intros w N cursor HN Hc.
    assert (Hcur : forall k, cursor k = (currentKeyIndex w + k) mod N)
      by (intros k; now apply rotations_cursor).
    repeat split.
    + intros k. rewrite Hcur. apply Nat.mod_upper_bound. lia.
    + exact Hcur.
    + intros i j Hi Hj. rewrite !Hcur. now apply shifted_mod_inj.
    + intros slot Hs. exists ((slot + N - currentKeyIndex w) mod N). split.
      * apply Nat.mod_upper_bound. lia.
      * rewrite Hcur. now apply shifted_mod_surj.
    + rewrite Hcur.
      replace (currentKeyIndex w + N) with (currentKeyIndex w + 1 * N) by lia.
      rewrite Nat.Div0.mod_add. now apply Nat.mod_small.
Qed.

(** ** One attempt of the dispatch loop *)

Section Running.

Context {A B : Type}.

Lemma bind_gets (f : World -> A) (k : A -> M B) w :
  bind (gets f) k w = k (f w) w.
Proof. reflexivity. Qed.

Lemma bind_return (m : M A) (k : A -> M B) w a w' :
  m w = (Return a, w') -> bind m k w = k a w'.
Proof. intros H. unfold bind. now rewrite H. Qed.

Lemma bind_throw (m : M A) (k : A -> M B) w e w' :
  m w = (Throw e, w') -> bind m k w = (Throw e, w').
Proof. intros H. unfold bind. now rewrite H. Qed.

Lemma tryCatch_return (m : M A) (h : JsError -> M A) w a w' :
  m w = (Return a, w') -> tryCatch m h w = (Return a, w').
Proof. intros H. unfold tryCatch. now rewrite H. Qed.

Lemma tryCatch_throw (m : M A) (h : JsError -> M A) w e w' :
  m w = (Throw e, w') -> tryCatch m h w = h e w'.
Proof. intros H. unfold tryCatch. now rewrite H. Qed.

End Running.

Section Attempt.

Variable backend : nat -> string -> string -> BackendReply.
Variable clock : nat -> Z.
Variables (prompt userId : string) (userRole : UserRole)
          (requestType : RequestType) (subject : string).
Variable startTime : Z.

Lemma getCurrentKey_run w k :
  apiKeys w !! currentKeyIndex w = Some k ->
  getCurrentKey w = (Return (Some k), w).
Proof.
  intros H. unfold getCurrentKey, gets.
  destruct (apiKeys w) as [|k0 ks] eqn:E; [discriminate|]. simpl length.
  cbn [Nat.eqb]. now rewrite H.
Qed.

Lemma createGeminiClient_run w k :
  apiKeys w !! currentKeyIndex w = Some k ->
  createGeminiClient w = (Return (Some (keyValue k)), w).
Proof.
  intros H. unfold createGeminiClient.
  now rewrite (bind_return _ _ _ _ _ (getCurrentKey_run w k H)).
Qed.

Lemma attemptFailed_run k error w :
  exists w',
    attemptFailed clock prompt userId userRole requestType subject startTime
                  k error w = (Return tt, w') /\
    sameService w w' /\
    praggoAIKeys (db w') = praggoAIKeys (db w) /\
    praggoAIUsage (db w')
    = (praggoAIUsage (db w)
       ++ (if nextStatementFails w then []
           else [failedUsage prompt userId userRole requestType subject startTime k error
                          (clock (length (backendCalls w)))]))%list /\
    (dbFaults w = [] -> dbFaults w' = []).
Proof.
  unfold attemptFailed, now. rewrite bind_gets.
  unfold logUsage, tryCatch, bind, insertUsage, dbStatement, nextStatementFails,
    failedUsage.
  destruct (dbFaults w) as [|[|] rest] eqn:E; cbv beta iota zeta.
  - destruct (truthyText (Some (keyName k))); eexists; (split; [reflexivity|]);
      (split; [now repeat split|]); simpl; rewrite ?E; auto.
  - eexists; split; [reflexivity|]. split; [now repeat split|].
    simpl. rewrite app_nil_r. repeat split. discriminate.
  - destruct (truthyText (Some (keyName k))); eexists; (split; [reflexivity|]);
      (split; [now repeat split|]); simpl; repeat split; discriminate.
Qed.

Lemma rotate_keeps_store w :
  dbFaults w = [] -> dbFaults (snd (rotateToNextKey clock w)) = [].
Proof.
  intros E. unfold rotateToNextKey. rewrite bind_gets.
  destruct (length (apiKeys w) <=? 1); [exact E|].
  unfold getCurrentKey. rewrite bind_gets.
  destruct (if _ =? 0 then _ else _) as [k|].
  - unfold tryCatch, bind, now, gets, updateKeyRows, dbStatement, modify, ret.
    rewrite E. simpl. exact E.
  - unfold bind, ret, modify. simpl. exact E.
Qed.

Section Iteration.

Variables (fuel attempt : nat) (lastError : option JsError) (w : World)
          (k : ApiKey).
Hypothesis Hretries : attempt < maxRetries.
Hypothesis Hkeys : attempt < length (apiKeys w).
Hypothesis Hcurrent : apiKeys w !! currentKeyIndex w = Some k.

Local Abbreviation loop :=
  (attemptLoop backend clock prompt userId userRole requestType subject
               startTime).

Lemma iteration_enters :
  loop (S fuel) attempt lastError w
  = tryCatch
      (let* result :=
         attemptOnce backend clock prompt userId userRole requestType subject
                     startTime (keyValue k) k in
       ret (Returned result))
      (fun error =>
         let* _ :=
           attemptFailed clock prompt userId userRole requestType subject
                         startTime k error in
         if isQuotaError (Some error) then
           let* _ := rotateToNextKey clock in
           loop fuel (S attempt) (Some error)
         else ret (Exited attempt (Some error)))
      w.
Proof.
  cbn [attemptLoop]. rewrite bind_gets.
  apply Nat.ltb_lt in Hretries as ->. apply Nat.ltb_lt in Hkeys as ->.
  cbn [andb].
  rewrite (bind_return _ _ _ _ _ (getCurrentKey_run w k Hcurrent)).
  now rewrite (bind_return _ _ _ _ _ (createGeminiClient_run w k Hcurrent)).
Qed.

Lemma attemptOnce_rejected e :
  backend (length (backendCalls w)) (keyValue k) prompt = rejects e ->
  attemptOnce backend clock prompt userId userRole requestType subject
              startTime (keyValue k) k w
  = (Throw e, logBackendCall (keyValue k, prompt) w).
Proof.
  intros Hb. unfold attemptOnce. apply bind_throw.
  unfold generateContent. now rewrite Hb.
Qed.

(** A rejected attempt, quota-classified: one usage record is tried,
    the cursor moves on and the loop goes round again. *)
Lemma iteration_quota e :
  backend (length (backendCalls w)) (keyValue k) prompt = rejects e ->
  isQuotaError (Some e) = true ->
  exists w',
    loop (S fuel) attempt lastError w = loop fuel (S attempt) (Some e) w' /\
    apiKeys w' = apiKeys w /\
    currentKeyIndex w' = nextIndex (length (apiKeys w)) (currentKeyIndex w) /\
    backendCalls w' = (backendCalls w ++ [(keyValue k, prompt)])%list /\
    (dbFaults w = [] -> dbFaults w' = []).
Proof.
  intros Hb Hq. rewrite iteration_enters.
  rewrite (tryCatch_throw _ _ _ _ _
             (bind_throw _ _ _ _ _ (attemptOnce_rejected e Hb))).
  destruct (attemptFailed_run k e (logBackendCall (keyValue k, prompt) w))
    as (w1 & Hrun & (Hk1 & Hc1 & _ & Hb1) & _ & _ & Hf1).
  rewrite (bind_return _ _ _ _ _ Hrun), Hq.
  destruct (rotateToNextKey_run clock w1) as (w2 & Hrot & Hk2 & Hc2 & _ & Hb2 & _).
  rewrite (bind_return _ _ _ _ _ Hrot).
  exists w2. split; [reflexivity|].
  rewrite Hk2, Hc2, Hb2, <- Hk1, <- Hc1, <- Hb1. repeat split.
  intros E. replace w2 with (snd (rotateToNextKey clock w1)) by now rewrite Hrot.
  apply rotate_keeps_store, Hf1. exact E.
Qed.

(** A rejected attempt, not quota-classified: one usage record is
    tried against the same key and the loop is left at once. *)
Lemma iteration_other e :
  backend (length (backendCalls w)) (keyValue k) prompt = rejects e ->
  isQuotaError (Some e) = false ->
  exists w',
    loop (S fuel) attempt lastError w = (Return (Exited attempt (Some e)), w') /\
    apiKeys w' = apiKeys w /\
    currentKeyIndex w' = currentKeyIndex w /\
    backendCalls w' = (backendCalls w ++ [(keyValue k, prompt)])%list /\
    praggoAIKeys (db w') = praggoAIKeys (db w) /\
    praggoAIUsage (db w')
    = (praggoAIUsage (db w)
       ++ (if nextStatementFails w then []
           else [failedUsage prompt userId userRole requestType subject startTime k e
                          (clock (S (length (backendCalls w))))]))%list.
Proof.
  intros Hb Hq. rewrite iteration_enters.
  rewrite (tryCatch_throw _ _ _ _ _
             (bind_throw _ _ _ _ _ (attemptOnce_rejected e Hb))).
  destruct (attemptFailed_run k e (logBackendCall (keyValue k, prompt) w))
    as (w1 & Hrun & (Hk1 & Hc1 & _ & Hb1) & Hkeys1 & Husage1 & _).
  rewrite (bind_return _ _ _ _ _ Hrun), Hq.
  exists w1. split; [reflexivity|].
  rewrite <- Hk1, <- Hc1, <- Hb1, Hkeys1, Husage1. repeat split.
  simpl. rewrite length_app. simpl. now rewrite Nat.add_1_r.
Qed.

(** A successful attempt: the text is returned; the cursor stays. *)
Lemma iteration_success r text :
  backend (length (backendCalls w)) (keyValue k) prompt = resolves r ->
  (forall v, extractText r v = (Return text, v)) ->
  exists w',
    loop (S fuel) attempt lastError w = (Return (Returned text), w') /\
    apiKeys w' = apiKeys w /\
    currentKeyIndex w' = currentKeyIndex w /\
    backendCalls w' = (backendCalls w ++ [(keyValue k, prompt)])%list.
Proof.
  intros Hb Htext. rewrite iteration_enters.
  set (w0 := logBackendCall (keyValue k, prompt) w).
  destruct (logUsage_run clock userId userRole requestType subject true
              (Some (keyName k)) None
              (Some (clock (length (backendCalls w0)) - startTime)%Z)
              (Some (Js.length prompt)) (Some (Js.length text)) w0)
    as (w1 & Hlog & Hk1 & Hc1 & _ & Hb1).
  assert (Hrun : attemptOnce backend clock prompt userId userRole requestType
                             subject startTime (keyValue k) k w
                 = (Return text, w1)).
  { unfold attemptOnce.
    erewrite bind_return; [|unfold generateContent; rewrite Hb; reflexivity].
    cbv beta iota. fold w0. rewrite (bind_return _ _ _ _ _ (Htext w0)).
    unfold now. rewrite bind_gets.
    now rewrite (bind_return _ _ _ _ _ Hlog). }
  exists w1. split.
  - unfold tryCatch. now rewrite (bind_return _ _ _ _ _ Hrun).
  - rewrite <- Hk1, <- Hc1, <- Hb1. now repeat split.
Qed.

End Iteration.

End Attempt.

(** ** Runs of the dispatch loop *)

Lemma keyValueAt_lookup (keys : list ApiKey) (i : nat) (k : ApiKey) :
  keys !! i = Some k -> keyValueAt keys i = keyValue k.
Proof. intros H. unfold keyValueAt. now rewrite H. Qed.

Lemma rotatingCalls_S keys cursor prompt n :
  rotatingCalls keys cursor prompt (S n)
  = (keyValueAt keys (cursor mod length keys), prompt)
      :: rotatingCalls keys ((cursor + 1) mod length keys) prompt n.
Proof.
  unfold rotatingCalls. cbn [seq map]. rewrite Nat.add_0_r. f_equal.
  rewrite <- seq_shift, map_map. apply map_ext. intros i.
  rewrite Nat.Div0.add_mod_idemp_l. do 2 f_equal. f_equal. lia.
Qed.

Lemma rotatingCalls_snoc keys cursor prompt n :
  rotatingCalls keys cursor prompt (S n)
  = (rotatingCalls keys cursor prompt n
     ++ [(keyValueAt keys ((cursor + n) mod length keys), prompt)])%list.
Proof.
  unfold rotatingCalls. now rewrite seq_S, map_app.
Qed.

Lemma rotatingCalls_length keys cursor prompt n :
  length (rotatingCalls keys cursor prompt n) = n.
Proof. unfold rotatingCalls. now rewrite length_map, length_seq. Qed.

Section Runs.

Variable backend : nat -> string -> string -> BackendReply.
Variable clock : nat -> Z.
Variables (prompt userId : string) (userRole : UserRole)
          (requestType : RequestType) (subject : string).

Variable startTime : Z.

Local Abbreviation loop :=
  (attemptLoop backend clock prompt userId userRole requestType subject
               startTime).

Lemma loop_exhausted fuel attempt lastError w :
  maxRetries <= attempt \/ length (apiKeys w) <= attempt ->
  loop fuel attempt lastError w = (Return (Exited attempt lastError), w).
Proof.
  intros H. destruct fuel as [|fuel]; [reflexivity|].
  cbn [attemptLoop]. rewrite bind_gets.
  replace ((attempt <? maxRetries) && (attempt <? length (apiKeys w))) with false;
    [reflexivity|].
  symmetry. apply andb_false_iff.
  destruct H; [left | right]; now apply Nat.ltb_ge.
Qed.

Lemma quota_prefix j :
  forall fuel attempt lastError w,
    currentKeyIndex w < length (apiKeys w) ->
    attempt + j <= maxRetries -> attempt + j <= length (apiKeys w) ->
    quotaRejections backend prompt w j ->
    exists w' lastError',
      loop (j + fuel) attempt lastError w = loop fuel (attempt + j) lastError' w' /\
      apiKeys w' = apiKeys w /\
      currentKeyIndex w' = (currentKeyIndex w + j) mod length (apiKeys w) /\
      backendCalls w'
      = (backendCalls w
         ++ rotatingCalls (apiKeys w) (currentKeyIndex w) prompt j)%list /\
      (dbFaults w = [] -> dbFaults w' = []) /\
      (j = 0 -> lastError' = lastError) /\
      (0 < j -> exists e, lastError' = Some e /\ isQuotaError (Some e) = true).
Proof.
  induction j as [|j IH]; intros fuel attempt lastError w Hc Hr Hk Hq.
  - exists w, lastError. rewrite !Nat.add_0_r, Nat.mod_small by exact Hc.
    unfold rotatingCalls. simpl. rewrite app_nil_r.
    repeat split; auto. intros H; lia.
  - destruct (lookup_lt_is_Some_2 _ _ Hc) as [k Hcur].
    destruct (Hq 0 ltac:(lia)) as (e & Hb & He).
    rewrite !Nat.add_0_r, Nat.mod_small in Hb by exact Hc.
    rewrite (keyValueAt_lookup _ _ _ Hcur) in Hb.
    destruct (iteration_quota backend clock prompt userId userRole requestType
                subject startTime (j + fuel) attempt lastError w k
                ltac:(lia) ltac:(lia) Hcur e Hb He)
      as (w1 & Hstep & Hk1 & Hc1 & Hb1 & Hf1).
    assert (Hnext : currentKeyIndex w1
                    = (currentKeyIndex w + 1) mod length (apiKeys w)).
    { rewrite Hc1.
      pose proof (nextIndex_mod (length (apiKeys w)) (currentKeyIndex w) 0) as Hn.
      rewrite Nat.add_0_r, Nat.mod_small in Hn by exact Hc. apply Hn. lia. }
    destruct (IH fuel (S attempt) (Some e) w1)
      as (w' & le' & Hrun & Hk' & Hc' & Hb' & Hf' & Hle0 & Hle').
    + rewrite Hk1, Hnext. apply Nat.mod_upper_bound. lia.
    + lia.
    + rewrite Hk1. lia.
    + intros i Hi. destruct (Hq (S i) ltac:(lia)) as (e' & Hb2 & He').
      exists e'. split; [|exact He'].
      rewrite Hk1, Hb1, Hnext, length_app, Nat.Div0.add_mod_idemp_l. simpl length.
      replace (length (backendCalls w) + 1 + i) with (length (backendCalls w) + S i) by lia.
      replace (currentKeyIndex w + 1 + i) with (currentKeyIndex w + S i) by lia.
      exact Hb2.
    + exists w', le'.
      change (S j + fuel) with (S (j + fuel)). rewrite Hstep, Hrun.
      replace (S attempt + j) with (attempt + S j) by lia.
      split; [reflexivity|].
      split; [congruence|].
      split; [rewrite Hc', Hk1, Hnext, Nat.Div0.add_mod_idemp_l; f_equal; lia|].
      split.
      { rewrite Hb', Hb1, Hk1, Hnext, rotatingCalls_S.
        rewrite (Nat.mod_small _ _ Hc), (keyValueAt_lookup _ _ _ Hcur).
        now rewrite <- app_assoc. }
      repeat split; auto.
      * intros H; lia.
      * intros _. destruct j as [|j'].
        -- exists e. split; [now apply Hle0 | exact He].
        -- apply Hle'. lia.
Qed.

End Runs.

Section Calls.

Variable backend : nat -> string -> string -> BackendReply.
Variable clock : nat -> Z.
Variables (prompt userId : string) (userRole : UserRole)
          (requestType : RequestType) (subject : string).

Local Abbreviation call :=
  (makeAPICall backend clock prompt userId userRole requestType subject).
Local Abbreviation loopFrom w :=
  (attemptLoop backend clock prompt userId userRole requestType subject
               (clock (length (backendCalls w)))).

Lemma makeAPICall_exited w attempt lastError w' :
  loopFrom w (S maxRetries) 0 None w = (Return (Exited attempt lastError), w') ->
  call w = (Throw (newError (finalMessage attempt lastError (apiKeys w'))), w').
Proof.
  intros H. unfold makeAPICall, now. rewrite bind_gets.
  now rewrite (bind_return _ _ _ _ _ H).
Qed.

Lemma makeAPICall_returned w result w' :
  loopFrom w (S maxRetries) 0 None w = (Return (Returned result), w') ->
  call w = (Return result, w').
Proof.
  intros H. unfold makeAPICall, now. rewrite bind_gets.
  now rewrite (bind_return _ _ _ _ _ H).
Qed.

(** The state of a run when its first [j] invocations have been
    rejected with quota-classified errors. *)
Lemma after_quota_rejections w j :
  currentKeyIndex w < length (apiKeys w) ->
  j <= maxRetries -> j <= length (apiKeys w) ->
  quotaRejections backend prompt w j ->
  exists w' lastError',
    loopFrom w (S maxRetries) 0 None w
    = loopFrom w (S (maxRetries - j)) j lastError' w' /\
    apiKeys w' = apiKeys w /\
    currentKeyIndex w' = (currentKeyIndex w + j) mod length (apiKeys w) /\
    backendCalls w'
    = (backendCalls w ++ rotatingCalls (apiKeys w) (currentKeyIndex w) prompt j)%list /\
    length (backendCalls w') = length (backendCalls w) + j /\
    (dbFaults w = [] -> dbFaults w' = []) /\
    (0 < j -> exists e, lastError' = Some e /\ isQuotaError (Some e) = true).
Proof.
  intros Hc Hr Hk Hq.
  destruct (quota_prefix backend clock prompt userId userRole requestType subject
              (clock (length (backendCalls w))) j (S (maxRetries - j)) 0 None w
              Hc ltac:(lia) ltac:(lia) Hq)
    as (w' & le' & Hrun & Hk' & Hc' & Hb' & Hf' & _ & Hle').
  exists w', le'.
  replace (S maxRetries) with (j + S (maxRetries - j)) by lia.
  rewrite Hrun. repeat split; auto.
  rewrite Hb', length_app, rotatingCalls_length. reflexivity.
Qed.

End Calls.

(** C1. On a pool of [N >= 1] keys with the cursor in range, against a
    backend that rejects every invocation with a quota-classified error,
    [makeAPICall] invokes the backend exactly [min maxRetries N] times, with
    the keys of the successive slots from the cursor on (it rotates after
    each attempt), leaves the cursor [min maxRetries N] slots further, and
    throws one of the two limit-reached errors: the one for all keys tried
    whenever [N <= maxRetries]. *)
Theorem quota_on_every_key_exhausts
    (backend : nat -> string -> string -> BackendReply) (clock : nat -> Z)
    (prompt userId : string) (userRole : UserRole) (requestType : RequestType)
    (subject : string) (w : World) :
  let N := length (apiKeys w) in
  1 <= N -> currentKeyIndex w < N ->
  (forall n apiKey,
      exists e, backend n apiKey prompt = rejects e /\ isQuotaError (Some e) = true) ->
  exists msg w',
    makeAPICall backend clock prompt userId userRole requestType subject w
    = (Throw (newError msg), w') /\
    backendCalls w'
    = (backendCalls w
       ++ rotatingCalls (apiKeys w) (currentKeyIndex w) prompt (Nat.min maxRetries N))%list /\
    apiKeys w' = apiKeys w /\
    currentKeyIndex w' = (currentKeyIndex w + Nat.min maxRetries N) mod N /\
    (msg = MSG_DAILY_LIMIT \/ msg = MSG_ALL_KEYS_LIMIT) /\
    (N <= maxRetries -> msg = MSG_DAILY_LIMIT).
Proof.
  intros N HN Hc Hq.
  destruct (after_quota_rejections backend clock prompt userId userRole requestType
              subject w (Nat.min maxRetries N) Hc ltac:(lia) ltac:(lia))
    as (w' & le' & Hrun & Hk' & Hc' & Hb' & _ & _ & Hle').
  { intros i _. apply Hq. }
  assert (Hstop : maxRetries <= Nat.min maxRetries N
                  \/ length (apiKeys w') <= Nat.min maxRetries N)
    by (rewrite Hk'; fold N; lia).
  rewrite (loop_exhausted _ _ _ _ _ _ _ _ _ _ _ _ Hstop) in Hrun.
  apply makeAPICall_exited in Hrun.
  destruct Hle' as (e & -> & He); [unfold maxRetries; lia|].
  exists (finalMessage (Nat.min maxRetries N) (Some e) (apiKeys w')), w'.
  repeat split; auto.
  - unfold finalMessage. rewrite He.
    destruct (_ || _); auto.
  - intros Hle. unfold finalMessage. rewrite Hk'. fold N.
    replace (N <=? Nat.min maxRetries N) with true
      by (symmetry; apply Nat.leb_le; lia).
    now rewrite orb_true_r.
Qed.

(** The message thrown after an attempt that was made and was rejected
    with an error that is not quota-classified. *)
Lemma finalMessage_other attempt e keys :
  attempt < length keys ->
  isQuotaError (Some e) = false ->
  finalMessage attempt (Some e) keys
  = if mentionsExhausted (Some e) then MSG_DAILY_LIMIT
    else orElse (message e) MSG_SERVICE_PROBLEM.
Proof.
  intros Hlt Hq. unfold finalMessage. rewrite Hq.
  replace (length keys <=? attempt) with false by (symmetry; apply Nat.leb_gt; lia).
  now rewrite orb_false_r.
Qed.

(** C2 (as the code has it). An attempt rejected with an error that is
    not quota-classified, a network or timeout error included, ends the
    call: after [j] quota-classified rejections and one such error,
    [makeAPICall] has invoked the backend [j + 1] times and no more, the
    cursor is still on the key of the failed attempt, and with a healthy
    database the last usage record is the failed one of that key. What is
    thrown to the caller is a new error, without the status and the code
    of the backend's: its message is the backend's, or the
    service-problem text when the backend's error has no message or an
    empty one, or the daily-limit text when the backend's message
    contains "exhausted". *)
Theorem non_quota_failure_stops
    (backend : nat -> string -> string -> BackendReply) (clock : nat -> Z)
    (prompt userId : string) (userRole : UserRole) (requestType : RequestType)
    (subject : string) (w : World) (j : nat) (e : JsError) :
  currentKeyIndex w < length (apiKeys w) ->
  j < maxRetries -> j < length (apiKeys w) ->
  quotaRejections backend prompt w j ->
  backend (length (backendCalls w) + j)
          (keyValueAt (apiKeys w) ((currentKeyIndex w + j) mod length (apiKeys w)))
          prompt = rejects e ->
  isQuotaError (Some e) = false ->
  exists k w',
    apiKeys w !! ((currentKeyIndex w + j) mod length (apiKeys w)) = Some k /\
    makeAPICall backend clock prompt userId userRole requestType subject w
    = (Throw (newError (if mentionsExhausted (Some e) then MSG_DAILY_LIMIT
                        else orElse (message e) MSG_SERVICE_PROBLEM)), w') /\
    apiKeys w' = apiKeys w /\
    currentKeyIndex w' = (currentKeyIndex w + j) mod length (apiKeys w) /\
    backendCalls w'
    = (backendCalls w
       ++ rotatingCalls (apiKeys w) (currentKeyIndex w) prompt (S j))%list /\
    (dbFaults w = [] ->
     last (praggoAIUsage (db w'))
     = Some (failedUsage prompt userId userRole requestType subject
               (clock (length (backendCalls w))) k e
               (clock (length (backendCalls w) + S j)))).
Proof.
  intros Hc Hr Hk Hq Hb He.
  destruct (after_quota_rejections backend clock prompt userId userRole requestType
              subject w j Hc ltac:(lia) ltac:(lia) Hq)
    as (w1 & le1 & Hrun & Hk1 & Hc1 & Hb1 & Hlen1 & Hf1 & _).
  assert (Hslot : (currentKeyIndex w + j) mod length (apiKeys w) < length (apiKeys w))
    by (apply Nat.mod_upper_bound; lia).
  destruct (lookup_lt_is_Some_2 _ _ Hslot) as [k Hcur].
  rewrite (keyValueAt_lookup _ _ _ Hcur) in Hb.
  destruct (iteration_other backend clock prompt userId userRole requestType subject
              (clock (length (backendCalls w))) (maxRetries - j) j le1 w1 k)
    with (e := e) as (w' & Hstep & Hk' & Hc' & Hb' & _ & Hu'); auto.
  { rewrite Hk1. lia. }
  { now rewrite Hk1, Hc1. }
  { now rewrite Hlen1. }
  rewrite Hstep in Hrun. apply makeAPICall_exited in Hrun.
  exists k, w'. split; [exact Hcur|].
  rewrite <- (finalMessage_other j e (apiKeys w) Hk He).
  rewrite Hrun, Hk', Hk1, Hc', Hc1, Hb', Hb1, rotatingCalls_snoc.
  rewrite (keyValueAt_lookup _ _ _ Hcur), <- app_assoc.
  repeat split.
  intros Hdb. rewrite Hu'. unfold nextStatementFails.
  rewrite (Hf1 Hdb), last_snoc, Hlen1. do 3 f_equal. lia.
Qed.

(** C4. A first attempt rejected with an error that is not
    quota-classified ends the call at once: the backend has been invoked
    once, the cursor and the pool are as they were, an error is thrown,
    with the backend's own message unless that message mentions
    "exhausted", and one usage record, the failed attempt's, has been
    handed to the database (and is in the table unless the statement
    failed). *)
Theorem fatal_first_attempt_stops
    (backend : nat -> string -> string -> BackendReply) (clock : nat -> Z)
    (prompt userId : string) (userRole : UserRole) (requestType : RequestType)
    (subject : string) (w : World) (k : ApiKey) (e : JsError) :
  apiKeys w !! currentKeyIndex w = Some k ->
  backend (length (backendCalls w)) (keyValue k) prompt = rejects e ->
  isQuotaError (Some e) = false ->
  exists w',
    makeAPICall backend clock prompt userId userRole requestType subject w
    = (Throw (newError (finalMessage 0 (Some e) (apiKeys w))), w') /\
    apiKeys w' = apiKeys w /\
    currentKeyIndex w' = currentKeyIndex w /\
    backendCalls w' = (backendCalls w ++ [(keyValue k, prompt)])%list /\
    praggoAIKeys (db w') = praggoAIKeys (db w) /\
    praggoAIUsage (db w')
    = (praggoAIUsage (db w)
       ++ (if nextStatementFails w then []
           else [failedUsage prompt userId userRole requestType subject
                   (clock (length (backendCalls w))) k e
                   (clock (S (length (backendCalls w))))]))%list /\
    (mentionsExhausted (Some e) = false ->
     finalMessage 0 (Some e) (apiKeys w) = orElse (message e) MSG_SERVICE_PROBLEM).
Proof.
  intros Hcur Hb He.
  pose proof (lookup_lt_Some _ _ _ Hcur) as Hlt.
  destruct (iteration_other backend clock prompt userId userRole requestType subject
              (clock (length (backendCalls w))) maxRetries 0 None w k)
    with (e := e) as (w' & Hstep & Hk' & Hc' & Hb' & Hkeys' & Hu'); auto.
  { unfold maxRetries. lia. }
  { lia. }
  apply makeAPICall_exited in Hstep.
  exists w'. rewrite Hstep, Hk'. repeat split; auto.
  intros Hex. unfold finalMessage. rewrite Hex, He.
  replace (length (apiKeys w) <=? 0) with false
    by (symmetry; apply Nat.leb_gt; lia).
  reflexivity.
Qed.

(** C6. A successful attempt returns the backend's text and leaves the
    cursor where that attempt found it: after [j] quota-classified
    rejections and a success, the cursor is on the slot whose key made the
    successful (and last) invocation, so that key is the current one for
    the next call. *)
Theorem success_keeps_cursor
    (backend : nat -> string -> string -> BackendReply) (clock : nat -> Z)
    (prompt userId : string) (userRole : UserRole) (requestType : RequestType)
    (subject : string) (w : World) (j : nat) (r : GeminiResponse) (text : string) :
  currentKeyIndex w < length (apiKeys w) ->
  j < maxRetries -> j < length (apiKeys w) ->
  quotaRejections backend prompt w j ->
  backend (length (backendCalls w) + j)
          (keyValueAt (apiKeys w) ((currentKeyIndex w + j) mod length (apiKeys w)))
          prompt = resolves r ->
  (forall v, extractText r v = (Return text, v)) ->
  exists k w',
    makeAPICall backend clock prompt userId userRole requestType subject w
    = (Return text, w') /\
    apiKeys w' = apiKeys w /\
    currentKeyIndex w' = (currentKeyIndex w + j) mod length (apiKeys w) /\
    backendCalls w'
    = (backendCalls w
       ++ rotatingCalls (apiKeys w) (currentKeyIndex w) prompt (S j))%list /\
    getCurrentKey w' = (Return (Some k), w') /\
    last (backendCalls w') = Some (keyValue k, prompt).
Proof.
  intros Hc Hr Hk Hq Hb Htext.
  destruct (after_quota_rejections backend clock prompt userId userRole requestType
              subject w j Hc ltac:(lia) ltac:(lia) Hq)
    as (w1 & le1 & Hrun & Hk1 & Hc1 & Hb1 & Hlen1 & _ & _).
  assert (Hslot : (currentKeyIndex w + j) mod length (apiKeys w) < length (apiKeys w))
    by (apply Nat.mod_upper_bound; lia).
  destruct (lookup_lt_is_Some_2 _ _ Hslot) as [k Hcur].
  rewrite (keyValueAt_lookup _ _ _ Hcur) in Hb.
  destruct (iteration_success backend clock prompt userId userRole requestType subject
              (clock (length (backendCalls w))) (maxRetries - j) j le1 w1 k)
    with (r := r) (text := text) as (w' & Hstep & Hk' & Hc' & Hb'); auto.
  { rewrite Hk1. lia. }
  { now rewrite Hk1, Hc1. }
  { now rewrite Hlen1. }
  rewrite Hstep in Hrun. apply makeAPICall_returned in Hrun.
  exists k, w'. rewrite Hrun, Hk', Hk1, Hc', Hc1.
  repeat split.
  - rewrite Hb', Hb1, rotatingCalls_snoc, (keyValueAt_lookup _ _ _ Hcur).
    now rewrite <- app_assoc.
  - apply getCurrentKey_run. now rewrite Hk', Hc', Hk1, Hc1.
  - now rewrite Hb', last_snoc.
Qed.

(** ** Rebuilding the pool *)

Lemma keeps_bind {X A B} (f : World -> X) (m : M A) (k : A -> M B) :
  Keeps f m -> (forall a, Keeps f (k a)) -> Keeps f (bind m k).
Proof.
  intros Hm Hk w. unfold bind. specialize (Hm w).
  destruct (m w) as [[a|e] w']; simpl in *; [|exact Hm].
  now rewrite Hk.
Qed.

Lemma keeps_tryCatch {X A} (f : World -> X) (m : M A) (h : JsError -> M A) :
  Keeps f m -> (forall e, Keeps f (h e)) -> Keeps f (tryCatch m h).
Proof.
  intros Hm Hh w. unfold tryCatch. specialize (Hm w).
  destruct (m w) as [[a|e] w']; simpl in *; [exact Hm|].
  now rewrite Hh.
Qed.

Lemma keeps_forEach {X A} (f : World -> X) (l : list A) (g : A -> M unit) :
  (forall a, Keeps f (g a)) -> Keeps f (forEach l g).
Proof.
  intros Hg. induction l as [|x l IH]; simpl.
  - intros w. reflexivity.
  - apply keeps_bind; [apply Hg | intros _; exact IH].
Qed.

(** The components the database statements cannot reach. *)
Lemma keeps_storeOnly {X A} (f : World -> X) (m : M A) :
  (forall w1 w2, sameService w1 w2 -> f w1 = f w2) -> StoreOnly m -> Keeps f m.
Proof. intros Hf Hm w. symmetry. apply Hf, Hm. Qed.

Lemma restoreKey_touches_env dbKey w :
  apiKeys (snd (restoreKey dbKey w)) = apiKeys w /\
  currentKeyIndex (snd (restoreKey dbKey w)) = currentKeyIndex w /\
  backendCalls (snd (restoreKey dbKey w)) = backendCalls w.
Proof.
  unfold restoreKey. destruct (r_keyValue dbKey) as [v|]; [|now repeat split].
  destruct (_ && _); now repeat split.
Qed.

Lemma keeps_restoreKeys {X} (f : World -> X) :
  (forall w1 w2, sameService w1 w2 -> f w1 = f w2) ->
  (forall dbKey, Keeps f (restoreKey dbKey)) ->
  Keeps f restoreKeys.
Proof.
  intros Hf Hrestore. unfold restoreKeys.
  apply keeps_tryCatch; [|intros e w; reflexivity].
  apply keeps_bind.
  - apply keeps_storeOnly; [exact Hf | apply storeOnly_dbStatement].
  - intros dbKeys. now apply keeps_forEach.
Qed.

Lemma restoreKeys_run w :
  exists w',
    restoreKeys w = (Return tt, w') /\
    apiKeys w' = apiKeys w /\
    currentKeyIndex w' = currentKeyIndex w /\
    backendCalls w' = backendCalls w.
Proof.
  exists (snd (restoreKeys w)). split; [|repeat split].
  - pose proof (swallowed_returns
                  (let* dbKeys := selectKeyRows r_isEnabled in forEach dbKeys restoreKey)
                  w) as H.
    fold restoreKeys in H. destruct (restoreKeys w) as [o v]. simpl in *. now subst.
  - apply (keeps_restoreKeys apiKeys); [now intros w1 w2 (-> & _)|].
    intros dbKey v. apply restoreKey_touches_env.
  - apply (keeps_restoreKeys currentKeyIndex); [now intros w1 w2 (_ & -> & _)|].
    intros dbKey v. apply restoreKey_touches_env.
  - apply (keeps_restoreKeys backendCalls); [now intros w1 w2 (_ & _ & _ & ->)|].
    intros dbKey v. apply restoreKey_touches_env.
Qed.

Lemma storeOnly_databaseKeys :
  StoreOnly
    (let* keys := gets apiKeys in
     forEach keys (fun key =>
       let* existingKey :=
         selectKeyRows (fun r => String.eqb (r_keyName r) (keyName key)) in
       if length (take 1 existingKey) =? 0
       then insertKeyRow
              (mkKeyRow (keyName key) (keyIndex key) None active true 0%Z None None)
       else ret tt)).
Proof.
  apply storeOnly_bind; [apply storeOnly_gets|]. intros keys.
  induction keys as [|key keys IH]; simpl; [apply storeOnly_ret|].
  apply storeOnly_bind; [|intros _; exact IH].
  apply storeOnly_bind; [apply storeOnly_dbStatement|]. intros existingKey.
  destruct (_ =? 0); [apply storeOnly_dbStatement | apply storeOnly_ret].
Qed.

Lemma initializeDatabaseKeys_run w :
  exists w', initializeDatabaseKeys w = (Return tt, w') /\ sameService w w'.
Proof. apply swallowed_run, storeOnly_databaseKeys. Qed.

Lemma poolOf_length env : length (poolOf env) <= length keyNames.
Proof.
  unfold poolOf.
  etransitivity; [apply List.filter_length_le|]. now rewrite length_imap.
Qed.

Lemma refreshKeys_run w :
  exists w',
    refreshKeys w = (Return tt, w') /\
    currentKeyIndex w' = currentKeyIndex w /\
    apiKeys w' = poolOf (processEnv w') /\
    backendCalls w' = backendCalls w.
Proof.
  unfold refreshKeys, initializeAPIKeys.
  destruct (restoreKeys_run w) as (w1 & Hrestore & _ & Hc1 & Hb1).
  rewrite (bind_return _ _ _ _ _ Hrestore), bind_gets.
  unfold bind at 1, modify at 1.
  set (w2 := setApiKeys _ w1).
  destruct (initializeDatabaseKeys_run w2) as (w3 & Hrun & Hk3 & Hc3 & He3 & Hb3).
  exists w3. split; [exact Hrun|].
  rewrite <- Hk3, <- Hc3, <- He3, <- Hb3. now repeat split.
Qed.

(** ** Behaviour without keys, and the caller-facing operations *)

Lemma string_app_assoc (a b c : string) : (a ++ b) ++ c = a ++ b ++ c.
Proof.
  induction a as [|x a IH]; [reflexivity|].
  change (String x ((a ++ b) ++ c) = String x (a ++ b ++ c)). now rewrite IH.
Qed.

Lemma includes_here (p rest : string) : Js.includes (p ++ rest) p = true.
Proof. apply includes_substring. now exists "", rest. Qed.

Lemma includes_after (a b p : string) :
  Js.includes b p = true -> Js.includes (a ++ b) p = true.
Proof.
  rewrite !includes_substring. intros (pre & suf & ->).
  exists (a ++ pre), suf. now rewrite string_app_assoc.
Qed.

(** C5. With no key configured, [generateQuestions] returns, for a count
    of [c], exactly [c] sample questions and leaves the world as it is: no
    backend invocation, no usage record. The [i]-th question carries the
    requested kind, names the subject and the difficulty in its text, has
    options and a correct answer exactly when the kind is mcq, and is
    worth 10 marks when creative, 2 when cq and 1 when mcq. *)
Theorem demo_mode_sample_questions
    (backend : nat -> string -> string -> BackendReply) (clock : nat -> Z)
    (Json : Type)
    (questionsPrompt :
       string -> string -> string -> string -> string -> string -> string -> Z -> string)
    (matchArrayBlock matchFencedBlock : string -> option string)
    (JSON_parse : string -> option Json)
    (subject examType classLevel chapter kind questionCategory difficulty : string)
    (c : nat) (userId : string) (userRole : UserRole) (w : World) :
  apiKeys w = [] ->
  exists l,
    generateQuestions backend clock Json questionsPrompt matchArrayBlock
      matchFencedBlock JSON_parse subject examType classLevel chapter kind
      questionCategory difficulty (Z.of_nat c) userId userRole w
    = (Return (sampleQuestions Json l), w) /\
    length l = c /\
    forall i, i < c ->
      exists q,
        l !! i = Some q /\
        q = sampleQuestion subject chapter kind difficulty i /\
        questionType q = kind /\
        Js.includes (questionText q) (subjectLabel subject) = true /\
        Js.includes (questionText q) difficulty = true /\
        Js.includes (questionText q) (Js.ofNat (i + 1)) = true /\
        (is_Some (options q) <-> kind = "mcq") /\
        (is_Some (correctAnswer q) <-> kind = "mcq") /\
        (kind = "creative" -> marks q = 10) /\
        (kind = "cq" -> marks q = 2) /\
        (kind = "mcq" -> marks q = 1).
Proof.
  intros Hkeys.
  exists (map (sampleQuestion subject chapter kind difficulty) (seq 0 c)).
  split; [|split].
  - unfold generateQuestions. rewrite bind_gets, Hkeys. cbn [length Nat.eqb].
    now rewrite Nat2Z.id.
  - now rewrite length_map, length_seq.
  - intros i Hi. exists (sampleQuestion subject chapter kind difficulty i).
    split.
    { rewrite list_lookup_fmap, lookup_seq_lt by exact Hi. reflexivity. }
    split; [reflexivity|]. split; [reflexivity|].
    unfold sampleQuestion, subjectLabel. cbn [questionText options correctAnswer marks].
    split; [apply includes_after, includes_here|].
    split; [do 7 apply includes_after; apply includes_here|].
    split; [do 3 apply includes_after; apply includes_here|].
    destruct (String.eqb_spec kind "mcq") as [->|Hmcq].
    + repeat split; auto; try discriminate; intros _; now eexists.
    + repeat split; try (intros [x Hx]; discriminate); try contradiction.
      * intros ->. reflexivity.
      * intros ->. reflexivity.
Qed.

Section Thrown.

Variable backend : nat -> string -> string -> BackendReply.
Variable clock : nat -> Z.
Variables (prompt userId : string) (userRole : UserRole)
          (requestType : RequestType) (subject : string).

Lemma createGeminiClient_gets w :
  createGeminiClient w
  = (Return (keyValue <$> (if length (apiKeys w) =? 0 then None
                           else apiKeys w !! currentKeyIndex w)), w).
Proof.
  unfold createGeminiClient, getCurrentKey. rewrite bind_gets.
  now destruct (if _ =? 0 then _ else _).
Qed.

(** The loop itself throws in one case only: no current key. *)
Lemma attemptLoop_throws startTime fuel :
  forall attempt lastError w e w',
    attemptLoop backend clock prompt userId userRole requestType subject
                startTime fuel attempt lastError w = (Throw e, w') ->
    e = newError MSG_NO_KEYS.
Proof.
  induction fuel as [|fuel IH]; intros attempt lastError w e w' H.
  - discriminate.
  - cbn [attemptLoop] in H. rewrite bind_gets in H.
    destruct (_ && _); [|discriminate].
    unfold getCurrentKey in H at 1. rewrite bind_gets in H.
    destruct (if _ =? 0 then _ else _) as [k|] eqn:Ecur.
    + rewrite (bind_return _ _ _ _ _ (createGeminiClient_gets w)), Ecur in H.
      cbn [fmap option_fmap option_map] in H.
      unfold tryCatch in H.
      destruct (bind _ _ w) as [[exit|error] w1] eqn:Etry.
      * unfold bind in Etry.
        destruct (attemptOnce _ _ _ _ _ _ _ _ _ _ w) as [[r|err] w2];
          [|discriminate].
        unfold ret in Etry. injection Etry as <- <-. discriminate.
      * destruct (attemptFailed_run clock prompt userId userRole requestType
                    subject startTime k error w1) as (w2 & Hrun & _).
        rewrite (bind_return _ _ _ _ _ Hrun) in H.
        destruct (isQuotaError (Some error)); [|discriminate].
        destruct (rotateToNextKey_run clock w2) as (w3 & Hrot & _).
        rewrite (bind_return _ _ _ _ _ Hrot) in H.
        now apply IH in H.
    + destruct (logUsage_run clock userId userRole requestType subject false None
                  (Some MSG_NO_KEYS) None None None w) as (w1 & Hrun & _).
      rewrite (bind_return _ _ _ _ _ Hrun) in H.
      unfold throw in H. now injection H as <- _.
Qed.

(** What [makeAPICall] throws is an [Error] with a message. *)
Lemma makeAPICall_throws w e w' :
  makeAPICall backend clock prompt userId userRole requestType subject w
  = (Throw e, w') ->
  exists m, e = newError m.
Proof.
  unfold makeAPICall, now. rewrite bind_gets. unfold bind at 1.
  destruct (attemptLoop _ _ _ _ _ _ _ _ _ _ _ w) as [[[r|attempt le]|err] w1] eqn:E.
  - discriminate.
  - rewrite bind_gets. unfold throw. intros [= <- _]. now eexists.
  - intros [= <- _]. apply attemptLoop_throws in E. now exists MSG_NO_KEYS.
Qed.

End Thrown.

(** C10. [solveDoubt] always returns a text and never throws. When no
    key is configured the text is the demo-mode text, which says that it
    is one and quotes the question after the label of the subject, and
    the world is untouched. Otherwise it is the text [makeAPICall]
    returns, or, when [makeAPICall] throws, the error text built around
    the message of the thrown error. *)
Theorem solveDoubt_total
    (backend : nat -> string -> string -> BackendReply) (clock : nat -> Z)
    (doubtPrompt : string -> string -> string)
    (question subject userId : string) (userRole : UserRole) (w : World) :
  let call :=
    makeAPICall backend clock (doubtPrompt question subject) userId userRole
                solve_doubt subject in
  exists text w',
    solveDoubt backend clock doubtPrompt question subject userId userRole w
    = (Return text, w') /\
    (apiKeys w = [] ->
     text = "🤖 Praggo AI সমাধান (ডেমো মোড)" ++ nl ++ nl ++ "আপনার "
            ++ subjectLabel subject ++ " প্রশ্ন: " ++ dq ++ question ++ dq
            ++ nl ++ nl
            ++ "এটি Praggo AI দ্বারা প্রদত্ত বিস্তারিত ব্যাখ্যা হবে। সঠিক AI সমাধান পেতে sir এর সাথে যোগাযোগ করুন।" /\
     Js.includes text "ডেমো মোড" = true /\
     Js.includes text (dq ++ question ++ dq) = true /\
     w' = w) /\
    (apiKeys w <> [] ->
     forall result w1, call w = (Return result, w1) -> text = result /\ w' = w1) /\
    (apiKeys w <> [] ->
     forall e w1, call w = (Throw e, w1) ->
       exists m,
         message e = Some m /\
         text = errorText (subjectBangla subject) question e /\
         Js.includes text m = true /\
         w' = w1).
Proof.
  intros call. unfold solveDoubt. rewrite bind_gets.
  destruct (apiKeys w) as [|k0 ks] eqn:Hkeys.
  - exists (demoModeText subject question), w. cbn [length Nat.eqb].
    split; [reflexivity|]. split.
    + intros _. split; [reflexivity|]. split; [|split; [|reflexivity]].
      * unfold demoModeText. set (rest := nl ++ _).
        apply includes_substring.
        exists "🤖 Praggo AI সমাধান (", (")" ++ rest). reflexivity.
      * unfold demoModeText. do 6 apply includes_after.
        set (rest := nl ++ _).
        rewrite <- (string_app_assoc question dq rest).
        rewrite <- (string_app_assoc dq (question ++ dq) rest).
        apply includes_here.
    + split; intros Hne; now contradiction Hne.
  - cbn [length Nat.eqb]. unfold tryCatch.
    fold call. destruct (call w) as [[result|e] w1] eqn:Hcall.
    + rewrite (bind_return _ _ _ _ _ Hcall).
      exists result, w1. split; [reflexivity|].
      split; [discriminate|]. split.
      * intros _ r v [= <- <-]. now split.
      * intros _ e v H. discriminate.
    + rewrite (bind_throw _ _ _ _ _ Hcall).
      exists (errorText (subjectBangla subject) question e), w1.
      split; [reflexivity|]. split; [discriminate|]. split.
      * intros _ r v H. discriminate.
      * intros _ e' v [= <- <-].
        destruct (makeAPICall_throws _ _ _ _ _ _ _ _ _ _ Hcall) as [m ->].
        exists m. repeat split.
        unfold errorText. cbn [message newError interpolate default].
        do 12 apply includes_after. apply includes_here.
Qed.

(** ** The bound on the loop *)

Lemma bind_ext {A B} (m : M A) (k1 k2 : A -> M B) w :
  (forall a v, k1 a v = k2 a v) -> bind m k1 w = bind m k2 w.
Proof. intros H. unfold bind. now destruct (m w) as [[a|e] v]. Qed.

Lemma tryCatch_ext {A} (m : M A) (h1 h2 : JsError -> M A) w :
  (forall e v, h1 e v = h2 e v) -> tryCatch m h1 w = tryCatch m h2 w.
Proof. intros H. unfold tryCatch. now destruct (m w) as [[a|e] v]. Qed.

(** The loop never stops for want of fuel: any two bounds above
    [maxRetries - attempt] give the same run. *)
Lemma attemptLoop_fuel backend clock prompt userId userRole requestType subject
      startTime f1 :
  forall f2 attempt lastError w,
    maxRetries < f1 + attempt -> maxRetries < f2 + attempt ->
    attemptLoop backend clock prompt userId userRole requestType subject
                startTime f1 attempt lastError w
    = attemptLoop backend clock prompt userId userRole requestType subject
                  startTime f2 attempt lastError w.
Proof.
  induction f1 as [|f1 IH]; intros f2 attempt lastError w H1 H2.
  - rewrite !loop_exhausted by (left; lia). reflexivity.
  - destruct f2 as [|f2]; [rewrite !loop_exhausted by (left; lia); reflexivity|].
    cbn [attemptLoop]. rewrite !bind_gets.
    destruct (_ && _); [|reflexivity].
    apply bind_ext. intros [currentKey|] v; [|reflexivity].
    apply bind_ext. intros [genAI|] v1; [|apply IH; lia].
    apply tryCatch_ext. intros error v2.
    apply bind_ext. intros _ v3.
    destruct (isQuotaError (Some error)); [|reflexivity].
    apply bind_ext. intros _ v4. apply IH; lia.
Qed.

(** * Worked examples *)



Lemma quota_on_every_key_exhausts_witness :
  exists msg w',
    makeAPICall alwaysQuota tick "p" "u1" teacher generate_questions "ict"
                (service [key1; key2] 0)
    = (Throw (newError msg), w') /\
    backendCalls w'
    = (backendCalls (service [key1; key2] 0)
       ++ rotatingCalls [key1; key2] 0 "p" (Nat.min maxRetries 2))%list /\
    apiKeys w' = [key1; key2] /\
    currentKeyIndex w' = (0 + Nat.min maxRetries 2) mod 2 /\
    (msg = MSG_DAILY_LIMIT \/ msg = MSG_ALL_KEYS_LIMIT) /\
    (2 <= maxRetries -> msg = MSG_DAILY_LIMIT).
Proof.
  apply (quota_on_every_key_exhausts alwaysQuota tick "p" "u1" teacher
           generate_questions "ict" (service [key1; key2] 0)).
  - simpl. lia.
  - simpl. lia.
  - intros n apiKey. exists quotaError. split; reflexivity.
Defined.

Lemma non_quota_failure_stops_witness :
  exists k w',
    [key1; key2] !! 0 = Some k /\
    makeAPICall alwaysTimeout tick "p" "u1" student solve_doubt "ict"
                (service [key1; key2] 0)
    = (Throw (newError "fetch failed: connection timed out"), w') /\
    apiKeys w' = [key1; key2] /\
    currentKeyIndex w' = 0 /\
    backendCalls w' = [(keyValue key1, "p")] /\
    (@nil bool = [] ->
     last (praggoAIUsage (db w'))
     = Some (failedUsage "p" "u1" student solve_doubt "ict" (tick 0) k
               timeoutError (tick 1))).
Proof.
  apply (non_quota_failure_stops alwaysTimeout tick "p" "u1" student solve_doubt
           "ict" (service [key1; key2] 0) 0 timeoutError).
  - simpl. lia.
  - unfold maxRetries. lia.
  - simpl. lia.
  - intros i Hi. lia.
  - reflexivity.
  - reflexivity.
Defined.

(** C2, refuted as stated: against a backend that times out on every
    invocation, a pool of two keys gives an attempt budget of two, yet the
    backend is invoked once only: the key is not tried again. *)
Lemma transient_failure_is_not_retried :
  let run :=
    makeAPICall alwaysTimeout tick "p" "u1" student solve_doubt "ict"
                (service [key1; key2] 0) in
  isQuotaError (Some timeoutError) = false /\
  Nat.min maxRetries (length (apiKeys (service [key1; key2] 0))) = 2 /\
  backendCalls (snd run) = [(keyValue key1, "p")] /\
  ~ (exists first second rest, backendCalls (snd run) = first :: second :: rest) /\
  fst run = Throw timeoutError.
Proof.
  vm_compute. repeat split.
  intros (first & second & rest & H). discriminate.
Qed.

Lemma fatal_first_attempt_stops_witness :
  exists w',
    makeAPICall alwaysTimeout tick "p" "u1" student solve_doubt "ict"
                (service [key1; key2] 0)
    = (Throw (newError (finalMessage 0 (Some timeoutError) [key1; key2])), w') /\
    apiKeys w' = [key1; key2] /\
    currentKeyIndex w' = 0 /\
    backendCalls w' = [(keyValue key1, "p")] /\
    praggoAIKeys (db w') = [] /\
    praggoAIUsage (db w')
    = [failedUsage "p" "u1" student solve_doubt "ict" (tick 0) key1
         timeoutError (tick 1)] /\
    (mentionsExhausted (Some timeoutError) = false ->
     finalMessage 0 (Some timeoutError) [key1; key2]
     = orElse (message timeoutError) MSG_SERVICE_PROBLEM).
Proof.
  apply (fatal_first_attempt_stops alwaysTimeout tick "p" "u1" student solve_doubt
           "ict" (service [key1; key2] 0) key1 timeoutError).
  - reflexivity.
  - reflexivity.
  - reflexivity.
Defined.

Lemma success_keeps_cursor_witness :
  exists k w',
    makeAPICall onlySecondKeyAnswers tick "p" "u1" student solve_doubt "ict"
                (service [key1; key2] 0)
    = (Return "pH is a measure of acidity", w') /\
    apiKeys w' = [key1; key2] /\
    currentKeyIndex w' = 1 /\
    backendCalls w' = [(keyValue key1, "p"); (keyValue key2, "p")] /\
    getCurrentKey w' = (Return (Some k), w') /\
    last (backendCalls w') = Some (keyValue k, "p").
Proof.
  apply (success_keeps_cursor onlySecondKeyAnswers tick "p" "u1" student solve_doubt
           "ict" (service [key1; key2] 0) 1 phAnswer "pH is a measure of acidity").
  - simpl. lia.
  - unfold maxRetries. lia.
  - simpl. lia.
  - intros i Hi. assert (i = 0) as -> by lia.
    exists quotaError. split; reflexivity.
  - reflexivity.
  - intros v. reflexivity.
Defined.

Lemma demo_mode_sample_questions_witness :
  exists l,
    generateQuestions alwaysQuota tick unit
      (fun _ _ _ _ _ _ _ _ => "prompt") (fun _ => None) (fun _ => None)
      (fun _ => None) "chemistry" "academic" "9-10" "Acids" "mcq" "mixed" "easy"
      (Z.of_nat 3) "u1" teacher (service [] 0)
    = (Return (sampleQuestions unit l), service [] 0) /\
    length l = 3 /\
    forall i, i < 3 ->
      exists q,
        l !! i = Some q /\
        q = sampleQuestion "chemistry" "Acids" "mcq" "easy" i /\
        questionType q = "mcq" /\
        Js.includes (questionText q) (subjectLabel "chemistry") = true /\
        Js.includes (questionText q) "easy" = true /\
        Js.includes (questionText q) (Js.ofNat (i + 1)) = true /\
        (is_Some (options q) <-> "mcq" = "mcq") /\
        (is_Some (correctAnswer q) <-> "mcq" = "mcq") /\
        ("mcq" = "creative" -> marks q = 10) /\
        ("mcq" = "cq" -> marks q = 2) /\
        ("mcq" = "mcq" -> marks q = 1).
Proof.
  apply (demo_mode_sample_questions alwaysQuota tick unit
           (fun _ _ _ _ _ _ _ _ => "prompt") (fun _ => None) (fun _ => None)
           (fun _ => None) "chemistry" "academic" "9-10" "Acids" "mcq" "mixed"
           "easy" 3 "u1" teacher (service [] 0)).
  reflexivity.
Defined.

Lemma rotation_cycles_witness :
  rotateToNextKey tick (service [key1] 0) = (Return false, service [key1] 0) /\
  currentKeyIndex (rotations tick 3 (service [key1; key2; key3] 1)) = 1.
Proof.
  split.
  - apply (proj1 (rotation_cycles tick)). simpl. lia.
  - destruct (proj2 (rotation_cycles tick) (service [key1; key2; key3] 1))
      as (_ & _ & _ & _ & H).
    + simpl. lia.
    + simpl. lia.
    + exact H.
Defined.

(** C8. The code does not meet it: nothing writes the cursor when the
    pool is rebuilt, so a rebuild leaves the cursor at the value it had,
    whatever the size of the new pool. A service built with two keys and
    rotated once has its cursor on slot 1; when the pool is rebuilt after
    the second key was taken out of the environment, the pool has one key
    and the cursor is still 1, outside the pool: [getCurrentKey] returns
    nothing although the pool is not empty, and a call fails with the
    no-key error without invoking the backend. *)
Theorem refresh_leaves_cursor_out_of_range :
  (forall w, currentKeyIndex (snd (refreshKeys w)) = currentKeyIndex w) /\
  apiKeys shrunkService = [key1] /\
  currentKeyIndex shrunkService = 1 /\
  ~ (currentKeyIndex shrunkService < length (apiKeys shrunkService)) /\
  getCurrentKey shrunkService = (Return None, shrunkService) /\
  fst (makeAPICall onlySecondKeyAnswers tick "p" "u1" student solve_doubt "ict"
                   shrunkService)
  = Throw (newError MSG_NO_KEYS) /\
  backendCalls (snd (makeAPICall onlySecondKeyAnswers tick "p" "u1" student
                                 solve_doubt "ict" shrunkService))
  = [].
Proof.
  split.
  - intros w. destruct (refreshKeys_run w) as (w' & -> & Hc & _). exact Hc.
  - vm_compute. repeat split; try discriminate. lia.
Qed.

Lemma solveDoubt_total_witness :
  (exists text,
      fst (solveDoubt alwaysQuota tick (fun q _ => q) "What is pH?" "chemistry" "u1"
                      student (service [] 0))
      = Return text /\
      Js.includes text "ডেমো মোড" = true /\
      Js.includes text (dq ++ "What is pH?" ++ dq) = true) /\
  (exists text,
      fst (solveDoubt alwaysTimeout tick (fun q _ => q) "What is pH?" "ict" "u1"
                      student (service [key1] 0))
      = Return text /\
      Js.includes text "fetch failed: connection timed out" = true).
Proof.
  split.
  - destruct (solveDoubt_total alwaysQuota tick (fun q _ => q) "What is pH?"
                "chemistry" "u1" student (service [] 0))
      as (text & w' & Hrun & Hdemo & _).
    destruct (Hdemo eq_refl) as (_ & Hmode & Hquestion & _).
    exists text. rewrite Hrun. now repeat split.
  - destruct (solveDoubt_total alwaysTimeout tick (fun q _ => q) "What is pH?"
                "ict" "u1" student (service [key1] 0))
      as (text & w' & Hrun & _ & _ & Herror).
    destruct (Herror ltac:(discriminate) timeoutError
                (snd (makeAPICall alwaysTimeout tick "What is pH?" "u1" student
                                  solve_doubt "ict" (service [key1] 0)))
                eq_refl)
      as (m & Hm & _ & Hin & _).
    injection Hm as <-. exists text. rewrite Hrun. now split.
Defined.

(** * Further properties of the service *)

(** ** Statements on a healthy database *)

Lemma dbStatement_healthy {A} (f : Database -> A * Database) w :
  dbFaults w = [] ->
  dbStatement f w = (Return (fst (f (db w))), setDb (snd (f (db w))) w).
Proof. intros E. unfold dbStatement. rewrite E. now destruct (f (db w)). Qed.

Lemma dbStatement_failing {A} (f : Database -> A * Database) w rest :
  dbFaults w = true :: rest ->
  dbStatement f w = (Throw dbError, setDbFaults rest w).
Proof. intros E. unfold dbStatement. now rewrite E. Qed.

(** What [logUsage] leaves in a healthy database. *)
Lemma logUsage_healthy clock userId userRole requestType subject success
      keyUsed errorMessage processingTime promptLength responseLength w :
  dbFaults w = [] ->
  logUsage clock userId userRole requestType subject success keyUsed
           errorMessage processingTime promptLength responseLength w
  = (Return tt,
     setDb (mkDb (praggoAIUsage (db w)
                  ++ [mkUsage userId userRole requestType (orElse keyUsed "none")
                              subject success errorMessage processingTime
                              promptLength responseLength])
                 (match truthyText keyUsed with
                  | Some k =>
                      if success
                      then countRows k (clock (length (backendCalls w)))
                                     (praggoAIKeys (db w))
                      else praggoAIKeys (db w)
                  | None => praggoAIKeys (db w)
                  end)) w).
Proof.
  intros E. unfold logUsage, tryCatch, insertUsage.
  erewrite bind_return; [|apply dbStatement_healthy, E]. cbn [fst snd].
  destruct (truthyText keyUsed) as [k|]; [|reflexivity].
  destruct success; [|reflexivity].
  unfold now. rewrite bind_gets. unfold updateKeyRows.
  rewrite dbStatement_healthy by exact E. reflexivity.
Qed.

(** ** One attempt against any backend *)

(** The rotation never touches the usage table. *)
Lemma rotate_keeps_usage clock w :
  praggoAIUsage (db (snd (rotateToNextKey clock w))) = praggoAIUsage (db w).
Proof.
  unfold rotateToNextKey. rewrite bind_gets.
  destruct (length (apiKeys w) <=? 1); [reflexivity|].
  unfold getCurrentKey. rewrite bind_gets.
  destruct (if _ =? 0 then _ else _) as [k|]; [|reflexivity].
  unfold tryCatch, bind, now, gets, updateKeyRows, dbStatement, modify, ret.
  now destruct (dbFaults w) as [|[|] rest].
Qed.

Lemma extractText_world r :
  exists o, forall w, extractText r w = (o, w).
Proof.
  unfold extractText, tryCatch.
  destruct (g_response r ≫= textFn) as [[s|e]|].
  - now eexists.
  - now eexists.
  - destruct (truthyText (g_response r ≫= candidateText)) as [t|]; [now eexists|].
    destruct (textFn (g_top r)) as [[s|e]|]; [now eexists | now eexists |].
    destruct (truthyText (candidateText (g_top r))) as [t|]; now eexists.
Qed.

Section AnyBackend.

Variable backend : nat -> string -> string -> BackendReply.
Variable clock : nat -> Z.
Variables (prompt userId : string) (userRole : UserRole)
          (requestType : RequestType) (subject : string).
Variable startTime : Z.

Local Abbreviation loop :=
  (attemptLoop backend clock prompt userId userRole requestType subject
               startTime).
Local Abbreviation ofRequest := (usageOf userId userRole requestType subject).

(** An attempt invokes the backend once; it writes its usage record, a
    successful one, only when it succeeds. *)
Lemma attemptOnce_run k w :
  exists o w',
    attemptOnce backend clock prompt userId userRole requestType subject
                startTime (keyValue k) k w = (o, w') /\
    apiKeys w' = apiKeys w /\
    currentKeyIndex w' = currentKeyIndex w /\
    backendCalls w' = (backendCalls w ++ [(keyValue k, prompt)])%list /\
    (dbFaults w = [] ->
     dbFaults w' = [] /\
     exists newU,
       praggoAIUsage (db w') = (praggoAIUsage (db w) ++ newU)%list /\
       Forall (fun u => ofRequest u /\ u_success u = true) newU /\
       length newU = (if o is Return _ then 1 else 0)).
Proof.
  unfold attemptOnce, bind at 1, generateContent.
  set (w0 := logBackendCall (keyValue k, prompt) w).
  assert (Hnone : dbFaults w = [] ->
            dbFaults w0 = [] /\
            exists newU,
              praggoAIUsage (db w0) = (praggoAIUsage (db w) ++ newU)%list /\
              Forall (fun u => ofRequest u /\ u_success u = true) newU /\
              length newU = 0).
  { intros E. split; [exact E|]. exists []. now rewrite app_nil_r. }
  destruct (backend _ _ _) as [e| |r].
  - exists (Throw e), w0. repeat split; auto; apply Hnone; auto.
  - exists (Throw (newError "Gemini API returned no response")), w0.
    repeat split; auto; apply Hnone; auto.
  - destruct (extractText_world r) as [[text|e] Htext].
    + rewrite (bind_return _ _ _ _ _ (Htext w0)). unfold now. rewrite bind_gets.
      destruct (logUsage_run clock userId userRole requestType subject true
                  (Some (keyName k)) None
                  (Some (clock (length (backendCalls w0)) - startTime)%Z)
                  (Some (Js.length prompt)) (Some (Js.length text)) w0)
        as (w1 & Hlog & Hk1 & Hc1 & _ & Hb1).
      rewrite (bind_return _ _ _ _ _ Hlog).
      exists (Return text), w1. split; [reflexivity|].
      rewrite <- Hk1, <- Hc1, <- Hb1. repeat split.
      * rewrite logUsage_healthy in Hlog by exact H. now injection Hlog as <-.
      * rewrite logUsage_healthy in Hlog by exact H. injection Hlog as <-.
        eexists. split; [reflexivity|]. split; [|reflexivity].
        constructor; [|constructor]. now repeat split.
    + rewrite (bind_throw _ _ _ _ _ (Htext w0)).
      exists (Throw e), w0. repeat split; auto; apply Hnone; auto.
Qed.

Lemma attemptFailed_healthy k error w :
  dbFaults w = [] ->
  exists w',
    attemptFailed clock prompt userId userRole requestType subject startTime
                  k error w = (Return tt, w') /\
    sameService w w' /\
    dbFaults w' = [] /\
    praggoAIKeys (db w') = praggoAIKeys (db w) /\
    praggoAIUsage (db w')
    = (praggoAIUsage (db w)
       ++ [failedUsage prompt userId userRole requestType subject startTime k
             error (clock (length (backendCalls w)))])%list.
Proof.
  intros E. unfold attemptFailed, now. rewrite bind_gets.
  rewrite logUsage_healthy by exact E.
  eexists. split; [reflexivity|]. split; [now repeat split|].
  split; [exact E|]. cbn [db setDb praggoAIKeys praggoAIUsage]. unfold failedUsage.
  destruct (truthyText (Some (keyName k))); split; reflexivity.
Qed.

(** What the loop does from any point on, with the cursor in range: the
    pool is kept, the cursor stays in range, the backend is invoked at
    most as often as the remaining budget allows, each time with the
    prompt and a key of the pool, and on a healthy database every
    invocation leaves exactly one usage record of the request, a
    successful one exactly for the invocation that made the loop return. *)
Lemma attemptLoop_accounting fuel :
  forall attempt lastError w o w',
    inRange w ->
    loop fuel attempt lastError w = (o, w') ->
    apiKeys w' = apiKeys w /\
    inRange w' /\
    exists new,
      backendCalls w' = (backendCalls w ++ new)%list /\
      length new <= Nat.min maxRetries (length (apiKeys w)) - attempt /\
      Forall (fun c => snd c = prompt /\
                       exists k, k ∈ apiKeys w /\ fst c = keyValue k) new /\
      (dbFaults w = [] ->
       dbFaults w' = [] /\
       exists newU,
         praggoAIUsage (db w') = (praggoAIUsage (db w) ++ newU)%list /\
         length newU = length new /\
         Forall ofRequest newU /\
         length (List.filter u_success newU)
         = (if o is Return (Returned _) then 1 else 0)).
Proof.
  induction fuel as [|fuel IH]; intros attempt lastError w o w' Hin Hrun.
  - injection Hrun as <- <-. split; [reflexivity|]. split; [exact Hin|].
    exists []. rewrite app_nil_r. repeat split; auto; cbn [length]; try lia.
    exists []. now rewrite app_nil_r.
  - destruct (Nat.lt_ge_cases attempt (Nat.min maxRetries (length (apiKeys w))))
      as [Hlt|Hge].
    2:{ rewrite loop_exhausted in Hrun by lia. injection Hrun as <- <-.
        split; [reflexivity|]. split; [exact Hin|].
        exists []. rewrite app_nil_r. repeat split; auto; cbn [length]; try lia.
        exists []. now rewrite app_nil_r. }
    destruct (lookup_lt_is_Some_2 _ _ Hin) as [k Hcur].
    rewrite (iteration_enters backend clock prompt userId userRole requestType
               subject startTime fuel attempt lastError w k
               ltac:(lia) ltac:(lia) Hcur) in Hrun.
    destruct (attemptOnce_run k w) as (o1 & w1 & Hon & Hk1 & Hc1 & Hb1 & Hdb1).
    assert (Hmem : Forall (fun c => snd c = prompt /\
                                    exists k0, k0 ∈ apiKeys w /\ fst c = keyValue k0)
                          [(keyValue k, prompt)]).
    { constructor; [|constructor]. split; [reflexivity|].
      exists k. split; [|reflexivity]. eapply list_elem_of_lookup_2, Hcur. }
    unfold tryCatch in Hrun. destruct o1 as [text|error].
    + rewrite (bind_return _ _ _ _ _ Hon) in Hrun. injection Hrun as <- <-.
      split; [exact Hk1|]. split; [unfold inRange; now rewrite Hk1, Hc1|].
      exists [(keyValue k, prompt)]. split; [exact Hb1|].
      split; [cbn [length]; lia|]. split; [exact Hmem|].
      intros E. destruct (Hdb1 E) as (Hf & newU & Hu & Hall & Hlen).
      split; [exact Hf|]. exists newU. split; [exact Hu|]. split; [exact Hlen|].
      destruct newU as [|u [|u' rest]]; try discriminate.
      inversion Hall as [|? ? [Hof Hs] _]; subst.
      split; [now constructor|]. simpl. now rewrite Hs.
    + rewrite (bind_throw _ _ _ _ _ Hon) in Hrun.
      destruct (attemptFailed_run clock prompt userId userRole requestType subject
                  startTime k error w1)
        as (w2 & Hfail & (Hk2 & Hc2 & _ & Hb2) & _).
      rewrite (bind_return _ _ _ _ _ Hfail) in Hrun.
      assert (Hdb2 : dbFaults w = [] ->
                     dbFaults w2 = [] /\
                     praggoAIUsage (db w2)
                     = (praggoAIUsage (db w)
                        ++ [failedUsage prompt userId userRole requestType subject
                              startTime k error (clock (length (backendCalls w1)))])%list).
      { intros E. destruct (Hdb1 E) as (Hf1 & newU & Hu1 & _ & Hlen1).
        destruct newU; [|discriminate]. rewrite app_nil_r in Hu1.
        destruct (attemptFailed_healthy k error w1 Hf1)
          as (w2' & Hfail' & _ & Hf2 & _ & Hu2).
        rewrite Hfail in Hfail'. injection Hfail' as <-.
        split; [exact Hf2|]. now rewrite Hu2, Hu1. }
      destruct (isQuotaError (Some error)).
      * destruct (rotateToNextKey_run clock w2)
          as (w3 & Hrot & Hk3 & Hc3 & _ & Hb3 & _).
        rewrite (bind_return _ _ _ _ _ Hrot) in Hrun.
        assert (Hin3 : inRange w3).
        { unfold inRange. rewrite Hk3, Hc3, <- Hk2, <- Hc2, Hk1, Hc1.
          unfold nextIndex. destruct (length (apiKeys w) <=? 1); [exact Hin|].
          apply Nat.mod_upper_bound. unfold inRange in Hin. lia. }
        destruct (IH _ _ _ _ _ Hin3 Hrun)
          as (Hk' & Hin' & new & Hb' & Hlen & Hall & Hdb').
        assert (Hk30 : apiKeys w3 = apiKeys w) by congruence.
        split; [congruence|]. split; [exact Hin'|].
        exists ((keyValue k, prompt) :: new). split.
        { rewrite Hb', Hb3, <- Hb2, Hb1, <- app_assoc. reflexivity. }
        split; [rewrite Hk30 in Hlen; cbn [length]; lia|].
        split; [constructor; [now inversion Hmem | now rewrite Hk30 in Hall]|].
        intros E. destruct (Hdb2 E) as [Hf2 Hu2].
        assert (Hf3 : dbFaults w3 = []).
        { replace w3 with (snd (rotateToNextKey clock w2)) by now rewrite Hrot.
          now apply rotate_keeps_store. }
        destruct (Hdb' Hf3) as (Hf' & newU & Hu' & HlenU & HallU & Hsucc).
        split; [exact Hf'|].
        eexists (_ :: newU). split.
        { rewrite Hu'.
          replace w3 with (snd (rotateToNextKey clock w2)) by now rewrite Hrot.
          rewrite rotate_keeps_usage, Hu2, <- app_assoc. reflexivity. }
        split; [cbn [length]; now rewrite HlenU|].
        split; [constructor; [now repeat split | exact HallU]|].
        exact Hsucc.
      * injection Hrun as <- <-.
        split; [congruence|].
        split; [unfold inRange; now rewrite <- Hk2, <- Hc2, Hk1, Hc1|].
        exists [(keyValue k, prompt)]. split; [congruence|].
        split; [cbn [length]; lia|]. split; [exact Hmem|].
        intros E. destruct (Hdb2 E) as [Hf2 Hu2].
        split; [exact Hf2|]. eexists [_]. split; [exact Hu2|].
        split; [reflexivity|]. split; [|reflexivity].
        constructor; [now repeat split | constructor].
Qed.

End AnyBackend.

(** ** Calls against any backend *)

(** The usage record of a failure: whatever the database does, the keys
    table is left alone and at most this one record is added. *)
Lemma logUsage_failure_run clock userId userRole requestType subject keyUsed
      errorMessage processingTime promptLength responseLength w :
  exists w',
    logUsage clock userId userRole requestType subject false keyUsed
             errorMessage processingTime promptLength responseLength w
    = (Return tt, w') /\
    sameService w w' /\
    praggoAIKeys (db w') = praggoAIKeys (db w) /\
    praggoAIUsage (db w')
    = (praggoAIUsage (db w)
       ++ (if nextStatementFails w then []
           else [mkUsage userId userRole requestType (orElse keyUsed "none")
                         subject false errorMessage processingTime promptLength
                         responseLength]))%list.
Proof.
  unfold logUsage, tryCatch, bind, insertUsage, dbStatement, nextStatementFails.
  destruct (dbFaults w) as [|[|] rest] eqn:E; cbv beta iota zeta.
  - destruct (truthyText keyUsed); eexists; (split; [reflexivity|]);
      (split; [now repeat split|]); simpl; rewrite ?E; auto.
  - eexists; split; [reflexivity|]. split; [now repeat split|].
    simpl. now rewrite app_nil_r.
  - destruct (truthyText keyUsed); eexists; (split; [reflexivity|]);
      (split; [now repeat split|]); simpl; auto.
Qed.

Lemma makeAPICall_from_loop backend clock prompt userId userRole requestType
      subject w :
  makeAPICall backend clock prompt userId userRole requestType subject w
  = match attemptLoop backend clock prompt userId userRole requestType subject
            (clock (length (backendCalls w))) (S maxRetries) 0 None w with
    | (Return (Returned result), w') => (Return result, w')
    | (Return (Exited attempt lastError), w') =>
        (Throw (newError (finalMessage attempt lastError (apiKeys w'))), w')
    | (Throw e, w') => (Throw e, w')
    end.
Proof.
  unfold makeAPICall, now. rewrite bind_gets. unfold bind at 1.
  now destruct (attemptLoop _ _ _ _ _ _ _ _ _ _ _ w) as [[[r|a le]|e] w'].
Qed.

(** X1. Called with an empty pool, [makeAPICall] throws the daily-limit
    error at once: the backend is not invoked and nothing is written. *)
Theorem makeAPICall_without_keys
    (backend : nat -> string -> string -> BackendReply) (clock : nat -> Z)
    (prompt userId : string) (userRole : UserRole) (requestType : RequestType)
    (subject : string) (w : World) :
  apiKeys w = [] ->
  makeAPICall backend clock prompt userId userRole requestType subject w
  = (Throw (newError MSG_DAILY_LIMIT), w).
Proof.
  intros Hkeys. rewrite makeAPICall_from_loop.
  rewrite loop_exhausted by (right; rewrite Hkeys; simpl; lia).
  unfold finalMessage. now rewrite Hkeys.
Qed.

(** X2. With a pool that is not empty and the cursor beyond its end,
    [makeAPICall] throws the no-key error without invoking the backend; it
    hands one failed usage record, for the key "none", to the database and
    leaves pool and cursor as they were, so that every later call fails in
    the same way. *)
Theorem makeAPICall_cursor_beyond_pool
    (backend : nat -> string -> string -> BackendReply) (clock : nat -> Z)
    (prompt userId : string) (userRole : UserRole) (requestType : RequestType)
    (subject : string) (w : World) :
  apiKeys w <> [] ->
  length (apiKeys w) <= currentKeyIndex w ->
  exists w',
    makeAPICall backend clock prompt userId userRole requestType subject w
    = (Throw (newError MSG_NO_KEYS), w') /\
    sameService w w' /\
    praggoAIKeys (db w') = praggoAIKeys (db w) /\
    praggoAIUsage (db w')
    = (praggoAIUsage (db w)
       ++ (if nextStatementFails w then []
           else [mkUsage userId userRole requestType "none" subject false
                         (Some MSG_NO_KEYS) None None None]))%list.
Proof.
  intros Hne Hge. rewrite makeAPICall_from_loop.
  cbn [attemptLoop]. rewrite bind_gets.
  assert (0 < length (apiKeys w)) as Hpos
      by (destruct (apiKeys w); [contradiction | simpl; lia]).
  replace ((0 <? maxRetries) && (0 <? length (apiKeys w))) with true
    by (symmetry; apply andb_true_iff; split; apply Nat.ltb_lt;
        [unfold maxRetries; lia | exact Hpos]).
  unfold getCurrentKey. rewrite bind_gets.
  replace (length (apiKeys w) =? 0) with false
    by (symmetry; apply Nat.eqb_neq; lia).
  rewrite (lookup_ge_None_2 _ _ Hge).
  destruct (logUsage_failure_run clock userId userRole requestType subject None
              (Some MSG_NO_KEYS) None None None w)
    as (w' & Hrun & Hsame & Hk & Hu).
  rewrite (bind_return _ _ _ _ _ Hrun). unfold throw.
  exists w'. repeat split; auto; apply Hsame.
Qed.

(** X3. With the cursor in range, whatever the backend answers,
    [makeAPICall] keeps the pool, leaves the cursor in range, and invokes
    the backend at most [min maxRetries N] times, each time with the
    caller's prompt and the value of a key of the pool. *)
Theorem makeAPICall_stays_within_budget
    (backend : nat -> string -> string -> BackendReply) (clock : nat -> Z)
    (prompt userId : string) (userRole : UserRole) (requestType : RequestType)
    (subject : string) (w : World) :
  inRange w ->
  let w' := snd (makeAPICall backend clock prompt userId userRole requestType
                             subject w) in
  apiKeys w' = apiKeys w /\
  inRange w' /\
  exists new,
    backendCalls w' = (backendCalls w ++ new)%list /\
    length new <= Nat.min maxRetries (length (apiKeys w)) /\
    Forall (fun c => snd c = prompt /\
                     exists k, k ∈ apiKeys w /\ fst c = keyValue k) new.
Proof.
  intros Hin w'. subst w'. rewrite makeAPICall_from_loop.
  destruct (attemptLoop _ _ _ _ _ _ _ _ _ _ _ w) as [o v] eqn:Hrun.
  destruct (attemptLoop_accounting _ _ _ _ _ _ _ _ _ _ _ _ _ _ Hin Hrun)
    as (Hk & Hin' & new & Hb & Hlen & Hall & _).
  assert (snd (match o with
               | Return (Returned result) => (Return result, v)
               | Return (Exited attempt lastError) =>
                   (Throw (newError (finalMessage attempt lastError (apiKeys v))), v)
               | Throw e => (@Throw string e, v)
               end) = v) as -> by now destruct o as [[|]|].
  split; [exact Hk|]. split; [exact Hin'|].
  exists new. repeat split; auto. lia.
Qed.

(** X4. With the cursor in range and a healthy database, every backend
    invocation of a call leaves exactly one usage record of that request
    in the usage table, and none is lost or added otherwise; the only
    successful record is that of the invocation whose text the call
    returns. *)
Theorem every_attempt_leaves_one_usage_record
    (backend : nat -> string -> string -> BackendReply) (clock : nat -> Z)
    (prompt userId : string) (userRole : UserRole) (requestType : RequestType)
    (subject : string) (w : World) :
  inRange w -> dbFaults w = [] ->
  let run := makeAPICall backend clock prompt userId userRole requestType
                         subject w in
  exists new newU,
    backendCalls (snd run) = (backendCalls w ++ new)%list /\
    praggoAIUsage (db (snd run)) = (praggoAIUsage (db w) ++ newU)%list /\
    length newU = length new /\
    Forall (usageOf userId userRole requestType subject) newU /\
    length (List.filter u_success newU) = (if fst run is Return _ then 1 else 0) /\
    dbFaults (snd run) = [].
Proof.
  intros Hin Hdb run. subst run. rewrite makeAPICall_from_loop.
  destruct (attemptLoop _ _ _ _ _ _ _ _ _ _ _ w) as [o v] eqn:Hrun.
  destruct (attemptLoop_accounting _ _ _ _ _ _ _ _ _ _ _ _ _ _ Hin Hrun)
    as (_ & _ & new & Hb & _ & _ & Hacc).
  destruct (Hacc Hdb) as (Hf & newU & Hu & Hlen & Hall & Hsucc).
  exists new, newU.
  destruct o as [[result|attempt lastError]|e]; cbn [fst snd]; now repeat split.
Qed.

(** ** Responses without a text *)

Lemma extractText_textless r v :
  textless r -> extractText r v = (Throw (newError MSG_INVALID_STRUCTURE), v).
Proof.
  intros (H1 & H2 & H3 & H4). unfold extractText, tryCatch.
  now rewrite H1, H2, H3, H4.
Qed.

Lemma orElse_not_empty o d : d <> "" -> orElse o d <> "".
Proof.
  intros Hd. unfold orElse, Js.nonEmpty. destruct o as [s|]; [|exact Hd].
  destruct (String.eqb_spec s ""); [exact Hd | assumption].
Qed.

Section FirstAttempt.

Variable backend : nat -> string -> string -> BackendReply.
Variable clock : nat -> Z.
Variables (prompt userId : string) (userRole : UserRole)
          (requestType : RequestType) (subject : string).

(** A first attempt that throws an error which is not quota-classified,
    whatever made it throw. *)
Lemma first_attempt_thrown w k e :
  apiKeys w !! currentKeyIndex w = Some k ->
  attemptOnce backend clock prompt userId userRole requestType subject
              (clock (length (backendCalls w))) (keyValue k) k w
  = (Throw e, logBackendCall (keyValue k, prompt) w) ->
  isQuotaError (Some e) = false ->
  exists w',
    makeAPICall backend clock prompt userId userRole requestType subject w
    = (Throw (newError (finalMessage 0 (Some e) (apiKeys w))), w') /\
    apiKeys w' = apiKeys w /\
    currentKeyIndex w' = currentKeyIndex w /\
    backendCalls w' = (backendCalls w ++ [(keyValue k, prompt)])%list /\
    praggoAIKeys (db w') = praggoAIKeys (db w) /\
    praggoAIUsage (db w')
    = (praggoAIUsage (db w)
       ++ (if nextStatementFails w then []
           else [failedUsage prompt userId userRole requestType subject
                   (clock (length (backendCalls w))) k e
                   (clock (S (length (backendCalls w))))]))%list.
Proof.
  intros Hcur Hon Hq.
  pose proof (lookup_lt_Some _ _ _ Hcur) as Hlt.
  rewrite makeAPICall_from_loop.
  rewrite (iteration_enters backend clock prompt userId userRole requestType
             subject (clock (length (backendCalls w))) maxRetries 0 None w k
             ltac:(unfold maxRetries; lia) ltac:(lia) Hcur).
  rewrite (tryCatch_throw _ _ _ _ _ (bind_throw _ _ _ _ _ Hon)).
  destruct (attemptFailed_run clock prompt userId userRole requestType subject
              (clock (length (backendCalls w))) k e
              (logBackendCall (keyValue k, prompt) w))
    as (w1 & Hrun & (Hk1 & Hc1 & _ & Hb1) & Hkeys1 & Husage1 & _).
  rewrite (bind_return _ _ _ _ _ Hrun), Hq. unfold ret.
  exists w1. rewrite <- Hk1, <- Hc1, <- Hb1, Hkeys1, Husage1.
  repeat split. simpl. rewrite length_app. simpl. now rewrite Nat.add_1_r.
Qed.

End FirstAttempt.

(** X5. A first attempt to which the backend resolves with nothing, or
    with a response that holds a text in none of the four places, ends
    the call: the backend has been invoked once, the cursor has not moved,
    the failed attempt's usage record has been handed to the database, and
    the error names the cause. *)
Theorem unusable_response_ends_call
    (backend : nat -> string -> string -> BackendReply) (clock : nat -> Z)
    (prompt userId : string) (userRole : UserRole) (requestType : RequestType)
    (subject : string) (w : World) (k : ApiKey) (msg : string) :
  apiKeys w !! currentKeyIndex w = Some k ->
  (backend (length (backendCalls w)) (keyValue k) prompt = resolvesNothing /\
   msg = MSG_NO_RESPONSE) \/
  (exists r, backend (length (backendCalls w)) (keyValue k) prompt = resolves r /\
             textless r /\ msg = MSG_INVALID_STRUCTURE) ->
  exists w',
    makeAPICall backend clock prompt userId userRole requestType subject w
    = (Throw (newError msg), w') /\
    apiKeys w' = apiKeys w /\
    currentKeyIndex w' = currentKeyIndex w /\
    backendCalls w' = (backendCalls w ++ [(keyValue k, prompt)])%list /\
    praggoAIKeys (db w') = praggoAIKeys (db w) /\
    praggoAIUsage (db w')
    = (praggoAIUsage (db w)
       ++ (if nextStatementFails w then []
           else [failedUsage prompt userId userRole requestType subject
                   (clock (length (backendCalls w))) k (newError msg)
                   (clock (S (length (backendCalls w))))]))%list.
Proof.
  intros Hcur Hreply.
  pose proof (lookup_lt_Some _ _ _ Hcur) as Hlt.
  assert (Hon : attemptOnce backend clock prompt userId userRole requestType
                  subject (clock (length (backendCalls w))) (keyValue k) k w
                = (Throw (newError msg), logBackendCall (keyValue k, prompt) w)).
  { unfold attemptOnce, bind at 1, generateContent.
    destruct Hreply as [[-> ->] | (r & -> & Hr & ->)]; [reflexivity|].
    now rewrite (bind_throw _ _ _ _ _ (extractText_textless r _ Hr)). }
  assert (Hmsg : isQuotaError (Some (newError msg)) = false /\
                 finalMessage 0 (Some (newError msg)) (apiKeys w) = msg).
  { unfold finalMessage.
    replace (length (apiKeys w) <=? 0) with false
      by (symmetry; apply Nat.leb_gt; lia).
    destruct Hreply as [[_ ->] | (r & _ & _ & ->)]; split; reflexivity. }
  destruct Hmsg as [Hq Hfinal].
  destruct (first_attempt_thrown backend clock prompt userId userRole requestType
              subject w k (newError msg) Hcur Hon Hq) as (w' & Hrun & Hrest).
  exists w'. rewrite Hrun, Hfinal. now split.
Qed.

(** X6. A failure to read the text of a response leaves the world as it
    is and is thrown as a new error, without the status and the code of
    whatever made it fail, so that only its message can make it
    quota-classified. The message is the fixed prefix followed by the
    cause: the message of what the text accessor of the nested response
    threw, or of what the accessor of the response itself threw when the
    nested one holds no text, or the invalid-structure text when none of
    the four places holds a text. These are the only failures. *)
Theorem extraction_failures_are_wrapped (r : GeminiResponse) (w w' : World)
    (e : JsError) :
  (extractText r w = (Throw e, w')
   <-> w' = w /\
       exists cause,
         e = newError (EXTRACT_PREFIX ++ cause) /\ extractionCause r cause) /\
  (extractText r w = (Throw e, w') ->
   status e = Js.undefined /\
   code e = Js.undefined /\
   isQuotaError (Some e)
   = existsb (Js.includes (errorMessageLower (Some e))) quotaKeywords).
Proof.
  assert (Hshape : forall cause,
             isQuotaError (Some (newError (EXTRACT_PREFIX ++ cause)))
             = existsb (Js.includes
                          (errorMessageLower (Some (newError (EXTRACT_PREFIX ++ cause)))))
                       quotaKeywords).
  { intros cause. unfold isQuotaError. simpl existsb. simpl errorStatus.
    simpl Js.strictEqNumber. now rewrite !orb_false_r, !orb_assoc. }
  assert (Hiff : extractText r w = (Throw e, w')
                 <-> w' = w /\
                     exists cause,
                       e = newError (EXTRACT_PREFIX ++ cause) /\
                       extractionCause r cause).
  { unfold extractText, tryCatch, extractionCause, textless.
    destruct (g_response r ≫= textFn) as [[s|inner]|] eqn:E1.
    - split; [discriminate|].
      intros (_ & cause & _ & [(i & H & _) | [(i & H & _) | ((H & _) & _)]]);
        discriminate.
    - split.
      + intros [= <- <-]. split; [reflexivity|].
        exists (interpolate (message inner)). split; [reflexivity|].
        left. now exists inner.
      + intros (-> & cause & -> & [(i & H & ->) | [(i & H & _) | ((H & _) & _)]]);
          try discriminate.
        now injection H as <-.
    - destruct (truthyText (g_response r ≫= candidateText)) as [t|] eqn:E2.
      { split; [discriminate|].
        intros (_ & cause & _ & [(i & H & _) | [(i & _ & H & _) | ((_ & H & _) & _)]]);
          discriminate. }
      destruct (textFn (g_top r)) as [[s|inner]|] eqn:E3.
      + split; [discriminate|].
        intros (_ & cause & _
                & [(i & H & _) | [(i & _ & _ & H & _) | ((_ & _ & H & _) & _)]]);
          discriminate.
      + split.
        * intros [= <- <-]. split; [reflexivity|].
          exists (interpolate (message inner)). split; [reflexivity|].
          right. left. now exists inner.
        * intros (-> & cause & ->
                  & [(i & H & _) | [(i & _ & _ & H & ->) | ((_ & _ & H & _) & _)]]);
            try discriminate.
          now injection H as <-.
      + destruct (truthyText (candidateText (g_top r))) as [t|] eqn:E4.
        { split; [discriminate|].
          intros (_ & cause & _
                  & [(i & H & _) | [(i & _ & _ & H & _) | ((_ & _ & _ & H) & _)]]);
            discriminate. }
        split.
        * intros [= <- <-]. split; [reflexivity|].
          exists "Gemini API returned invalid response structure".
          split; [reflexivity|]. right. right. now repeat split.
        * intros (-> & cause & ->
                  & [(i & H & _) | [(i & _ & _ & H & _) | (_ & ->)]]);
            try discriminate.
          reflexivity. }
  split; [exact Hiff|].
  intros Hrun. apply Hiff in Hrun as (_ & cause & -> & _).
  split; [reflexivity|]. split; [reflexivity|]. apply Hshape.
Qed.

(** X7. Whatever happens, an error thrown by [makeAPICall] is a plain
    error: it carries a message, which is never empty, and neither status
    nor code; the error object of the backend never reaches the caller. *)
Theorem makeAPICall_throws_plain_errors
    (backend : nat -> string -> string -> BackendReply) (clock : nat -> Z)
    (prompt userId : string) (userRole : UserRole) (requestType : RequestType)
    (subject : string) (w w' : World) (e : JsError) :
  makeAPICall backend clock prompt userId userRole requestType subject w
  = (Throw e, w') ->
  status e = Js.undefined /\
  code e = Js.undefined /\
  exists m, message e = Some m /\ m <> "".
Proof.
  rewrite makeAPICall_from_loop.
  destruct (attemptLoop _ _ _ _ _ _ _ _ _ _ _ w) as [[[r|attempt le]|err] v] eqn:E.
  - discriminate.
  - intros [= <- <-]. repeat split. eexists. split; [reflexivity|].
    unfold finalMessage. destruct (_ || _); [discriminate|].
    destruct (isQuotaError le); [discriminate|].
    apply orElse_not_empty. discriminate.
  - intros [= <- <-]. apply attemptLoop_throws in E. subst err.
    repeat split. eexists. split; [reflexivity | discriminate].
Qed.

(** X8. When every key of a pool of at most [maxRetries] keys is
    rejected with a quota-classified error, the call has tried each slot
    once and the cursor is back on the slot it started from. *)
Theorem exhausted_call_returns_cursor
    (backend : nat -> string -> string -> BackendReply) (clock : nat -> Z)
    (prompt userId : string) (userRole : UserRole) (requestType : RequestType)
    (subject : string) (w : World) :
  inRange w ->
  length (apiKeys w) <= maxRetries ->
  quotaRejections backend prompt w (length (apiKeys w)) ->
  exists w',
    makeAPICall backend clock prompt userId userRole requestType subject w
    = (Throw (newError MSG_DAILY_LIMIT), w') /\
    apiKeys w' = apiKeys w /\
    currentKeyIndex w' = currentKeyIndex w /\
    backendCalls w'
    = (backendCalls w
       ++ rotatingCalls (apiKeys w) (currentKeyIndex w) prompt
                        (length (apiKeys w)))%list /\
    forall slot, slot < length (apiKeys w) ->
      exists i, i < length (apiKeys w) /\
                rotatingCalls (apiKeys w) (currentKeyIndex w) prompt
                              (length (apiKeys w)) !! i
                = Some (keyValueAt (apiKeys w) slot, prompt).
Proof.
  intros Hin Hmax Hq. unfold inRange in Hin.
  destruct (after_quota_rejections backend clock prompt userId userRole requestType
              subject w (length (apiKeys w)) Hin Hmax ltac:(lia) Hq)
    as (w' & le' & Hrun & Hk' & Hc' & Hb' & _ & _ & _).
  assert (Hstop : maxRetries <= length (apiKeys w)
                  \/ length (apiKeys w') <= length (apiKeys w))
    by (right; rewrite Hk'; lia).
  rewrite (loop_exhausted _ _ _ _ _ _ _ _ _ _ _ _ Hstop) in Hrun.
  apply makeAPICall_exited in Hrun.
  exists w'. split.
  { rewrite Hrun. unfold finalMessage. rewrite Hk', Nat.leb_refl.
    now rewrite orb_true_r. }
  split; [exact Hk'|]. split.
  { rewrite Hc'.
    replace (currentKeyIndex w + length (apiKeys w))
      with (currentKeyIndex w + 1 * length (apiKeys w)) by lia.
    rewrite Nat.Div0.mod_add. now apply Nat.mod_small. }
  split; [exact Hb'|].
  intros slot Hslot.
  exists ((slot + length (apiKeys w) - currentKeyIndex w) mod length (apiKeys w)).
  assert (Hi : (slot + length (apiKeys w) - currentKeyIndex w) mod length (apiKeys w)
               < length (apiKeys w)) by (apply Nat.mod_upper_bound; lia).
  split; [exact Hi|].
  unfold rotatingCalls. rewrite list_lookup_fmap, lookup_seq_lt by exact Hi.
  simpl. now rewrite shifted_mod_surj.
Qed.

(** ** What the rotation and the usage log write *)

Lemma rotate_healthy clock w k :
  dbFaults w = [] ->
  1 < length (apiKeys w) ->
  apiKeys w !! currentKeyIndex w = Some k ->
  rotateToNextKey clock w
  = (Return true,
     setCurrentKeyIndex ((currentKeyIndex w + 1) mod length (apiKeys w))
       (setDb (mkDb (praggoAIUsage (db w))
                    (markRows (keyName k)
                       (clock (length (backendCalls w)) + 24 * 60 * 60 * 1000)%Z
                       (praggoAIKeys (db w)))) w)).
Proof.
  intros E HN Hcur. unfold rotateToNextKey. rewrite bind_gets.
  replace (length (apiKeys w) <=? 1) with false by (symmetry; apply Nat.leb_gt; lia).
  rewrite (bind_return _ _ _ _ _ (getCurrentKey_run w k Hcur)).
  unfold tryCatch, now, bind, gets, updateKeyRows, dbStatement, modify, ret.
  now rewrite E.
Qed.

(** X9. On a pool of two keys or more with the cursor in range, a
    rotation with a healthy database marks every row of the old key's
    name quota-exceeded, with the reset date a day ahead, touches no other
    row and no usage record, and moves the cursor on; when the statement
    fails, the tables stay as they are and the cursor moves on all the
    same. *)
Theorem rotation_marks_old_key (clock : nat -> Z) (w : World) (k : ApiKey) :
  1 < length (apiKeys w) ->
  apiKeys w !! currentKeyIndex w = Some k ->
  let w' := snd (rotateToNextKey clock w) in
  let resetDate := (clock (length (backendCalls w)) + 86400000)%Z in
  currentKeyIndex w' = (currentKeyIndex w + 1) mod length (apiKeys w) /\
  praggoAIUsage (db w') = praggoAIUsage (db w) /\
  (nextStatementFails w = true -> praggoAIKeys (db w') = praggoAIKeys (db w)) /\
  (nextStatementFails w = false ->
   length (praggoAIKeys (db w')) = length (praggoAIKeys (db w)) /\
   forall i r,
     praggoAIKeys (db w) !! i = Some r ->
     praggoAIKeys (db w') !! i
     = Some (if String.eqb (r_keyName r) (keyName k)
             then mkKeyRow (r_keyName r) (r_keyIndex r) (r_keyValue r)
                           quota_exceeded (r_isEnabled r) (r_dailyUsageCount r)
                           (Some resetDate) (r_lastUsed r)
             else r)).
Proof.
  intros HN Hcur w' resetDate. subst w'.
  split.
  { rewrite rotate_cursor. unfold nextIndex.
    now replace (length (apiKeys w) <=? 1) with false
      by (symmetry; apply Nat.leb_gt; lia). }
  split; [apply rotate_keeps_usage|].
  unfold nextStatementFails, rotateToNextKey. rewrite bind_gets.
  replace (length (apiKeys w) <=? 1) with false by (symmetry; apply Nat.leb_gt; lia).
  rewrite (bind_return _ _ _ _ _ (getCurrentKey_run w k Hcur)).
  unfold tryCatch, now, bind, gets, updateKeyRows, dbStatement, modify, ret.
  destruct (dbFaults w) as [|[|] rest]; cbn [snd db setDb setCurrentKeyIndex setDbFaults
                                             praggoAIKeys].
  - split; [discriminate|]. intros _. split; [apply length_map|].
    intros i r Hr. rewrite list_lookup_fmap, Hr. reflexivity.
  - split; [reflexivity | discriminate].
  - split; [discriminate|]. intros _. split; [apply length_map|].
    intros i r Hr. rewrite list_lookup_fmap, Hr. reflexivity.
Qed.

(** X10. A first attempt that succeeds on a healthy database returns the
    text, appends the successful usage record, with the time the attempt
    took and the lengths of prompt and text in UTF-16 code units, and
    counts the use: every row of the key's name has its daily count
    raised by one and its last use set to a time, and is otherwise as it
    was; no other row changes. *)
Theorem successful_use_is_counted
    (backend : nat -> string -> string -> BackendReply) (clock : nat -> Z)
    (prompt userId : string) (userRole : UserRole) (requestType : RequestType)
    (subject : string) (w : World) (k : ApiKey) (r : GeminiResponse)
    (text : string) :
  dbFaults w = [] ->
  apiKeys w !! currentKeyIndex w = Some k ->
  keyName k <> "" ->
  backend (length (backendCalls w)) (keyValue k) prompt = resolves r ->
  (forall v, extractText r v = (Return text, v)) ->
  let started := clock (length (backendCalls w)) in
  let finished := clock (S (length (backendCalls w))) in
  exists w',
    makeAPICall backend clock prompt userId userRole requestType subject w
    = (Return text, w') /\
    praggoAIUsage (db w')
    = (praggoAIUsage (db w)
       ++ [mkUsage userId userRole requestType (keyName k) subject true None
                   (Some (finished - started)%Z) (Some (Js.length prompt))
                   (Some (Js.length text))])%list /\
    length (praggoAIKeys (db w')) = length (praggoAIKeys (db w)) /\
    forall i row,
      praggoAIKeys (db w) !! i = Some row ->
      exists row',
        praggoAIKeys (db w') !! i = Some row' /\
        if String.eqb (r_keyName row) (keyName k)
        then exists lastUsed,
               row' = mkKeyRow (r_keyName row) (r_keyIndex row) (r_keyValue row)
                               (r_status row) (r_isEnabled row)
                               (r_dailyUsageCount row + 1)%Z
                               (r_quotaResetDate row) (Some lastUsed)
        else row' = row.
Proof.
  intros E Hcur Hname Hb Htext started finished.
  pose proof (lookup_lt_Some _ _ _ Hcur) as Hlt.
  rewrite makeAPICall_from_loop.
  rewrite (iteration_enters backend clock prompt userId userRole requestType
             subject (clock (length (backendCalls w))) maxRetries 0 None w k
             ltac:(unfold maxRetries; lia) ltac:(lia) Hcur).
  set (w0 := logBackendCall (keyValue k, prompt) w).
  assert (Hlen0 : length (backendCalls w0) = S (length (backendCalls w)))
    by (simpl; rewrite length_app; simpl; lia).
  assert (Hrun : attemptOnce backend clock prompt userId userRole requestType
                   subject started (keyValue k) k w
                 = (Return text,
                    setDb (mkDb (praggoAIUsage (db w)
                                 ++ [mkUsage userId userRole requestType (keyName k)
                                       subject true None
                                       (Some (finished - started)%Z)
                                       (Some (Js.length prompt))
                                       (Some (Js.length text))])
                                (countRows (keyName k) finished (praggoAIKeys (db w))))
                          w0)).
  { unfold attemptOnce.
    erewrite bind_return; [|unfold generateContent; rewrite Hb; reflexivity].
    cbv beta iota. fold w0. rewrite (bind_return _ _ _ _ _ (Htext w0)).
    unfold now. rewrite bind_gets.
    erewrite bind_return; [|apply logUsage_healthy; exact E].
    rewrite Hlen0. unfold ret, orElse, truthyText, Js.nonEmpty.
    destruct (String.eqb_spec (keyName k) ""); [contradiction|]. reflexivity. }
  unfold tryCatch. rewrite (bind_return _ _ _ _ _ Hrun). unfold ret.
  eexists. split; [reflexivity|]. split; [reflexivity|].
  cbn [db setDb praggoAIKeys]. unfold countRows.
  split; [apply length_map|].
  intros i row Hrow. rewrite list_lookup_fmap, Hrow. cbn [fmap option_fmap option_map].
  eexists. split; [reflexivity|].
  destruct (String.eqb (r_keyName row) (keyName k)); [|reflexivity].
  now exists finished.
Qed.

(** ** The marks an exhausted call leaves *)

Lemma markRows_marked name t rows :
  Forall2 (markedRow [name]) rows (markRows name t rows).
Proof.
  unfold markRows. induction rows as [|r rows IH]; simpl; constructor; [|exact IH].
  destruct (String.eqb_spec (r_keyName r) name) as [Heq|Hne].
  - split; [reflexivity|]. split.
    + intros _. split; [reflexivity | now eexists].
    + intros Hnot. exfalso. apply Hnot. rewrite Heq. now left.
  - split; [reflexivity|]. split; [|reflexivity].
    intros Hin. apply list_elem_of_singleton in Hin. contradiction.
Qed.

Lemma markedRow_trans A B r r1 r2 :
  markedRow A r r1 -> markedRow B r1 r2 -> markedRow (A ++ B)%list r r2.
Proof.
  intros (Hn1 & Hin1 & Hout1) (Hn2 & Hin2 & Hout2).
  split; [congruence|]. split.
  - intros Hin. destruct (decide (r_keyName r ∈ B)) as [HB|HB].
    + apply Hin2. now rewrite Hn1.
    + rewrite Hout2 by now rewrite Hn1.
      apply Hin1. apply elem_of_app in Hin. tauto.
  - intros Hnot. rewrite elem_of_app in Hnot.
    rewrite Hout2 by (rewrite Hn1; tauto). apply Hout1. tauto.
Qed.

Lemma marked_trans A B rows rows1 rows2 :
  Forall2 (markedRow A) rows rows1 -> Forall2 (markedRow B) rows1 rows2 ->
  Forall2 (markedRow (A ++ B)%list) rows rows2.
Proof.
  intros H1. revert rows2. induction H1 as [|r r1 rows rows1 Hr _ IH];
    intros rows2 H2; inversion H2; subst; constructor.
  - eapply markedRow_trans; eassumption.
  - now apply IH.
Qed.

Lemma marked_nil rows : Forall2 (markedRow []) rows rows.
Proof.
  induction rows; constructor; [|assumption].
  split; [reflexivity|]. split; [|reflexivity]. intros H. inversion H.
Qed.

Lemma keyNameAt_lookup (keys : list ApiKey) (i : nat) (k : ApiKey) :
  keys !! i = Some k -> keyNameAt keys i = keyName k.
Proof. intros H. unfold keyNameAt. now rewrite H. Qed.

Lemma rotatingNames_S keys cursor n :
  rotatingNames keys cursor (S n)
  = keyNameAt keys (cursor mod length keys)
      :: rotatingNames keys ((cursor + 1) mod length keys) n.
Proof.
  unfold rotatingNames. cbn [seq map]. rewrite Nat.add_0_r. f_equal.
  rewrite <- seq_shift, map_map. apply map_ext. intros i.
  rewrite Nat.Div0.add_mod_idemp_l. do 2 f_equal. lia.
Qed.

Section Marks.

Variable backend : nat -> string -> string -> BackendReply.
Variable clock : nat -> Z.
Variables (prompt userId : string) (userRole : UserRole)
          (requestType : RequestType) (subject : string).
Variable startTime : Z.

Local Abbreviation loop :=
  (attemptLoop backend clock prompt userId userRole requestType subject
               startTime).

(** A quota-classified rejection on a healthy database, in a pool of two
    keys or more. *)
Lemma iteration_quota_healthy fuel attempt lastError w k e :
  attempt < maxRetries -> attempt < length (apiKeys w) ->
  1 < length (apiKeys w) ->
  apiKeys w !! currentKeyIndex w = Some k ->
  dbFaults w = [] ->
  backend (length (backendCalls w)) (keyValue k) prompt = rejects e ->
  isQuotaError (Some e) = true ->
  exists w',
    loop (S fuel) attempt lastError w = loop fuel (S attempt) (Some e) w' /\
    apiKeys w' = apiKeys w /\
    currentKeyIndex w' = (currentKeyIndex w + 1) mod length (apiKeys w) /\
    length (backendCalls w') = S (length (backendCalls w)) /\
    dbFaults w' = [] /\
    Forall2 (markedRow [keyName k]) (praggoAIKeys (db w)) (praggoAIKeys (db w')).
Proof.
  intros Hr Hk HN Hcur E Hb Hq.
  rewrite (iteration_enters backend clock prompt userId userRole requestType
             subject startTime fuel attempt lastError w k Hr Hk Hcur).
  rewrite (tryCatch_throw _ _ _ _ _
             (bind_throw _ _ _ _ _
                (attemptOnce_rejected backend clock prompt userId userRole
                   requestType subject startTime w k e Hb))).
  set (w0 := logBackendCall (keyValue k, prompt) w).
  destruct (attemptFailed_healthy clock prompt userId userRole requestType subject
              startTime k e w0 E)
    as (w1 & Hfail & (Hk1 & Hc1 & _ & Hb1) & Hf1 & Hkeys1 & _).
  rewrite (bind_return _ _ _ _ _ Hfail), Hq.
  assert (Hcur1 : apiKeys w1 !! currentKeyIndex w1 = Some k)
    by (rewrite <- Hk1, <- Hc1; exact Hcur).
  assert (HN1 : 1 < length (apiKeys w1)) by (rewrite <- Hk1; exact HN).
  rewrite (bind_return _ _ _ _ _ (rotate_healthy clock w1 k Hf1 HN1 Hcur1)).
  eexists. split; [reflexivity|].
  cbn [apiKeys currentKeyIndex backendCalls dbFaults db setCurrentKeyIndex setDb
       praggoAIKeys].
  rewrite <- Hk1, <- Hc1, <- Hb1, Hkeys1.
  repeat split; auto.
  - subst w0. simpl. rewrite length_app. simpl. lia.
  - apply markRows_marked.
Qed.

Lemma quota_prefix_marks j :
  forall fuel attempt lastError w,
    inRange w -> 1 < length (apiKeys w) -> dbFaults w = [] ->
    attempt + j <= maxRetries -> attempt + j <= length (apiKeys w) ->
    quotaRejections backend prompt w j ->
    exists w' lastError',
      loop (j + fuel) attempt lastError w = loop fuel (attempt + j) lastError' w' /\
      apiKeys w' = apiKeys w /\
      Forall2 (markedRow (rotatingNames (apiKeys w) (currentKeyIndex w) j))
              (praggoAIKeys (db w)) (praggoAIKeys (db w')).
Proof.
  induction j as [|j IH]; intros fuel attempt lastError w Hin HN E Hr Hk Hq.
  - exists w, lastError. rewrite Nat.add_0_r. repeat split. apply marked_nil.
  - unfold inRange in Hin.
    destruct (lookup_lt_is_Some_2 _ _ Hin) as [k Hcur].
    destruct (Hq 0 ltac:(lia)) as (e & Hb & He).
    rewrite !Nat.add_0_r, Nat.mod_small in Hb by exact Hin.
    rewrite (keyValueAt_lookup _ _ _ Hcur) in Hb.
    destruct (iteration_quota_healthy (j + fuel) attempt lastError w k e
                ltac:(lia) ltac:(lia) HN Hcur E Hb He)
      as (w1 & Hstep & Hk1 & Hc1 & Hlen1 & Hf1 & Hm1).
    destruct (IH fuel (S attempt) (Some e) w1) as (w' & le' & Hrun & Hk' & Hm').
    + unfold inRange. rewrite Hk1, Hc1. apply Nat.mod_upper_bound. lia.
    + now rewrite Hk1.
    + exact Hf1.
    + lia.
    + rewrite Hk1. lia.
    + intros i Hi. destruct (Hq (S i) ltac:(lia)) as (e' & Hb2 & He').
      exists e'. split; [|exact He'].
      rewrite Hk1, Hlen1, Hc1, Nat.Div0.add_mod_idemp_l.
      replace (S (length (backendCalls w)) + i)
        with (length (backendCalls w) + S i) by lia.
      replace (currentKeyIndex w + 1 + i) with (currentKeyIndex w + S i) by lia.
      exact Hb2.
    + exists w', le'. change (S j + fuel) with (S (j + fuel)). rewrite Hstep, Hrun.
      replace (S attempt + j) with (attempt + S j) by lia.
      split; [reflexivity|]. split; [congruence|].
      rewrite rotatingNames_S, (Nat.mod_small _ _ Hin), (keyNameAt_lookup _ _ _ Hcur).
      rewrite Hk1, Hc1 in Hm'.
      exact (marked_trans [keyName k] _ _ _ _ Hm1 Hm').
Qed.

End Marks.

Lemma rotatingNames_all keys cursor name :
  cursor < length keys ->
  name ∈ rotatingNames keys cursor (length keys)
  <-> exists k, k ∈ keys /\ keyName k = name.
Proof.
  intros Hc. unfold rotatingNames. rewrite list_elem_of_fmap. split.
  - intros (i & -> & Hi). apply elem_of_seq in Hi.
    assert (Hslot : (cursor + i) mod length keys < length keys)
      by (apply Nat.mod_upper_bound; lia).
    destruct (lookup_lt_is_Some_2 _ _ Hslot) as [k Hk].
    exists k. split; [eapply list_elem_of_lookup_2, Hk|].
    now rewrite (keyNameAt_lookup _ _ _ Hk).
  - intros (k & Hk & <-). apply list_elem_of_lookup in Hk as [slot Hslot].
    pose proof (lookup_lt_Some _ _ _ Hslot) as Hlt.
    exists ((slot + length keys - cursor) mod length keys). split.
    + rewrite shifted_mod_surj by assumption.
      now rewrite (keyNameAt_lookup _ _ _ Hslot).
    + apply elem_of_seq. split; [lia|]. simpl. apply Nat.mod_upper_bound. lia.
Qed.

(** X11. When a call on a healthy database runs through a pool of two
    to [maxRetries] keys and every key is rejected with a quota-classified
    error, every row of the keys table that bears the name of a key of the
    pool is left quota-exceeded with a reset date, and every other row is
    as it was. *)
Theorem exhausted_call_marks_every_key
    (backend : nat -> string -> string -> BackendReply) (clock : nat -> Z)
    (prompt userId : string) (userRole : UserRole) (requestType : RequestType)
    (subject : string) (w : World) :
  inRange w ->
  1 < length (apiKeys w) ->
  length (apiKeys w) <= maxRetries ->
  dbFaults w = [] ->
  quotaRejections backend prompt w (length (apiKeys w)) ->
  exists w',
    makeAPICall backend clock prompt userId userRole requestType subject w
    = (Throw (newError MSG_DAILY_LIMIT), w') /\
    Forall2 (fun r r' =>
               r_keyName r' = r_keyName r /\
               ((exists k, k ∈ apiKeys w /\ keyName k = r_keyName r) ->
                r_status r' = quota_exceeded /\ is_Some (r_quotaResetDate r')) /\
               (~ (exists k, k ∈ apiKeys w /\ keyName k = r_keyName r) -> r' = r))
            (praggoAIKeys (db w)) (praggoAIKeys (db w')).
Proof.
  intros Hin HN Hmax E Hq.
  destruct (quota_prefix_marks backend clock prompt userId userRole requestType
              subject (clock (length (backendCalls w))) (length (apiKeys w))
              (S (maxRetries - length (apiKeys w))) 0 None w
              Hin HN E ltac:(lia) ltac:(lia) Hq)
    as (w' & le' & Hrun & Hk' & Hm).
  assert (Hstop : maxRetries <= 0 + length (apiKeys w)
                  \/ length (apiKeys w') <= 0 + length (apiKeys w))
    by (right; rewrite Hk'; lia).
  rewrite (loop_exhausted _ _ _ _ _ _ _ _ _ _ _ _ Hstop) in Hrun.
  replace (length (apiKeys w) + S (maxRetries - length (apiKeys w)))
    with (S maxRetries) in Hrun by lia.
  apply makeAPICall_exited in Hrun.
  exists w'. split.
  { rewrite Hrun. unfold finalMessage. rewrite Hk'. cbn [Nat.add].
    now rewrite Nat.leb_refl, orb_true_r. }
  eapply Forall2_impl; [exact Hm|].
  intros r r' (Hn & Hmark & Hkeep).
  split; [exact Hn|].
  split; intros H; [apply Hmark | apply Hkeep]; now rewrite rotatingNames_all.
Qed.

(** X12. The only key of a pool of one is never marked: when its attempt
    is rejected with a quota-classified error, the call throws the
    daily-limit error after that one invocation, and the keys table is as
    it was, whatever the database does. *)
Theorem single_key_is_never_marked
    (backend : nat -> string -> string -> BackendReply) (clock : nat -> Z)
    (prompt userId : string) (userRole : UserRole) (requestType : RequestType)
    (subject : string) (w : World) (k : ApiKey) (e : JsError) :
  apiKeys w = [k] ->
  currentKeyIndex w = 0 ->
  backend (length (backendCalls w)) (keyValue k) prompt = rejects e ->
  isQuotaError (Some e) = true ->
  exists w',
    makeAPICall backend clock prompt userId userRole requestType subject w
    = (Throw (newError MSG_DAILY_LIMIT), w') /\
    backendCalls w' = (backendCalls w ++ [(keyValue k, prompt)])%list /\
    currentKeyIndex w' = 0 /\
    praggoAIKeys (db w') = praggoAIKeys (db w).
Proof.
  intros Hkeys Hc Hb Hq.
  assert (Hcur : apiKeys w !! currentKeyIndex w = Some k) by now rewrite Hkeys, Hc.
  rewrite makeAPICall_from_loop.
  rewrite (iteration_enters backend clock prompt userId userRole requestType
             subject (clock (length (backendCalls w))) maxRetries 0 None w k
             ltac:(unfold maxRetries; lia) ltac:(rewrite Hkeys; simpl; lia) Hcur).
  rewrite (tryCatch_throw _ _ _ _ _
             (bind_throw _ _ _ _ _
                (attemptOnce_rejected backend clock prompt userId userRole
                   requestType subject (clock (length (backendCalls w))) w k e Hb))).
  destruct (attemptFailed_run clock prompt userId userRole requestType subject
              (clock (length (backendCalls w))) k e
              (logBackendCall (keyValue k, prompt) w))
    as (w1 & Hrun & (Hk1 & Hc1 & _ & Hb1) & Hkeys1 & _).
  rewrite (bind_return _ _ _ _ _ Hrun), Hq.
  destruct (rotateToNextKey_run clock w1) as (w2 & Hrot & _ & _ & _ & _ & Hnoop).
  assert (w2 = w1) as -> by (apply Hnoop; rewrite <- Hk1; simpl; rewrite Hkeys; simpl; lia).
  rewrite (bind_return _ _ _ _ _ Hrot).
  assert (Hstop : maxRetries <= 1 \/ length (apiKeys w1) <= 1)
    by (right; rewrite <- Hk1; simpl; rewrite Hkeys; simpl; lia).
  rewrite (loop_exhausted _ _ _ _ _ _ _ _ _ _ _ _ Hstop).
  exists w1. split.
  { unfold finalMessage. rewrite <- Hk1. simpl apiKeys. rewrite Hkeys.
    now rewrite orb_true_r. }
  rewrite <- Hb1, <- Hc1, Hkeys1. repeat split. exact Hc.
Qed.

(** ** Usage statistics *)

Lemma filter_partition_length {A} (p : A -> bool) (l : list A) :
  length l
  = length (List.filter p l) + length (List.filter (fun x => negb (p x)) l).
Proof.
  induction l as [|x l IH]; [reflexivity|].
  simpl. destruct (p x); simpl; lia.
Qed.

(** X13. [getUsageStats] never throws and writes nothing. Its counts are
    taken over the rows of the user created since the start of the day:
    the successful and the failed calls add up to the day's usage, and so
    do the generated questions and the resolved doubts. When the database
    fails, every count is 0. *)
Theorem usage_stats_add_up (clock createdAt : nat -> Z) (startOfDay : Z -> Z)
    (userId : string) (w : World) :
  exists stats w',
    getUsageStats clock createdAt startOfDay userId w = (Return stats, w') /\
    sameService w w' /\
    db w' = db w /\
    todayUsage stats = successfulCalls stats + failedCalls stats /\
    todayUsage stats = questionsGenerated stats + doubtsResolved stats /\
    (nextStatementFails w = true -> stats = mkStats 0 0 0 0 0) /\
    (nextStatementFails w = false ->
     let rows := todaysRows createdAt
                   (startOfDay (clock (length (backendCalls w)))) userId
                   (praggoAIUsage (db w)) in
     todayUsage stats = length rows /\
     successfulCalls stats = length (List.filter u_success rows) /\
     questionsGenerated stats
     = length (List.filter (fun u => isGenerateQuestions (u_requestType u)) rows)).
Proof.
  unfold getUsageStats, tryCatch, now. rewrite bind_gets.
  unfold bind, selectUsageRows, dbStatement, nextStatementFails, ret.
  set (rows := map snd (List.filter _ (imap pair (praggoAIUsage (db w))))).
  assert (Hsum1 : length rows
                  = length (List.filter u_success rows)
                    + length (List.filter (fun u => negb (u_success u)) rows))
    by apply filter_partition_length.
  assert (Hsum2 : length rows
                  = length (List.filter (fun u => isGenerateQuestions (u_requestType u)) rows)
                    + length (List.filter (fun u => isSolveDoubt (u_requestType u)) rows)).
  { rewrite (filter_partition_length
               (fun u => isGenerateQuestions (u_requestType u)) rows).
    f_equal. f_equal. apply List.filter_ext. intros u.
    now destruct (u_requestType u). }
  destruct (dbFaults w) as [|[|] rest] eqn:E.
  - eexists _, _. split; [reflexivity|]. cbn [todayUsage successfulCalls failedCalls
                                               questionsGenerated doubtsResolved].
    split; [now repeat split|]. split; [reflexivity|].
    split; [exact Hsum1|]. split; [exact Hsum2|].
    split; [discriminate|]. intros _. now repeat split.
  - eexists _, _. split; [reflexivity|].
    split; [now repeat split|]. split; [reflexivity|].
    split; [reflexivity|]. split; [reflexivity|].
    split; [reflexivity | discriminate].
  - eexists _, _. split; [reflexivity|]. cbn [todayUsage successfulCalls failedCalls
                                               questionsGenerated doubtsResolved].
    split; [now repeat split|]. split; [reflexivity|].
    split; [exact Hsum1|]. split; [exact Hsum2|].
    split; [discriminate|]. intros _. now repeat split.
Qed.

(** ** The classifier's view of status and code *)

(** X14. The classifier looks at the code only when the status is
    falsy: with a truthy status, whatever the code, the answer is that of
    the status and the message alone; a status that is a string, "429"
    included, never counts as 429 or 403. *)
Theorem status_hides_code (m : option string) (st cd cd' : Js.value) :
  (Js.truthy st = true ->
   isQuotaError (Some (mkError m st cd)) = isQuotaError (Some (mkError m st cd'))) /\
  (Js.truthy st = false ->
   isQuotaError (Some (mkError m st cd))
   = isQuotaError (Some (mkError m Js.undefined cd))) /\
  (forall s, st = Js.str s -> s <> "" ->
     isQuotaError (Some (mkError m st cd))
     = isQuotaError (Some (mkError m Js.undefined Js.undefined))).
Proof.
  unfold isQuotaError, errorStatus, Js.or. cbn [status code].
  split; [|split].
  - intros ->. reflexivity.
  - intros ->. reflexivity.
  - intros s -> Hs. cbn [Js.truthy].
    destruct (String.eqb_spec s ""); [contradiction|]. reflexivity.
Qed.

(** ** The rebuilt pool *)

(** *** White space *)

Lemma isSpace_In s : Js.isSpace s = true <-> In s Js.whiteSpaces.
Proof.
  unfold Js.isSpace. rewrite existsb_exists. split.
  - intros (x & Hx & Heq). apply String.eqb_eq in Heq. now subst.
  - intros H. exists s. split; [exact H | apply String.eqb_refl].
Qed.

(** One step of [trimStart]: it stops, or it drops one white space
    character. *)
Lemma trimStart_step s :
  Js.trimStart s = s \/
  exists ws rest,
    In ws Js.whiteSpaces /\ s = ws ++ rest /\
    Js.trimStart s = Js.trimStart rest /\
    String.length rest < String.length s.
Proof.
  destruct s as [|a r1]; [now left|]. cbn [Js.trimStart].
  destruct (Js.isSpace (String a "")) eqn:E1.
  { right. exists (String a ""), r1. apply isSpace_In in E1.
    repeat split; auto; simpl; lia. }
  destruct r1 as [|b r2]; [now left|].
  destruct (Js.isSpace (String a (String b ""))) eqn:E2.
  { right. exists (String a (String b "")), r2. apply isSpace_In in E2.
    repeat split; auto; simpl; lia. }
  destruct r2 as [|c r3]; [now left|].
  destruct (Js.isSpace (String a (String b (String c "")))) eqn:E3; [|now left].
  right. exists (String a (String b (String c ""))), r3. apply isSpace_In in E3.
  repeat split; auto; simpl; lia.
Qed.

(** No white space character is the beginning of another, so the first
    one of a text is the one [trimStart] drops. *)
Lemma trimStart_space ws rest :
  In ws Js.whiteSpaces -> Js.trimStart (ws ++ rest) = Js.trimStart rest.
Proof.
  intros H. unfold Js.whiteSpaces in H. cbn [map Js.bytes fold_right] in H.
  repeat (destruct H as [<-|H]; [reflexivity|]). destruct H.
Qed.

Lemma whiteSpaces_not_empty ws : In ws Js.whiteSpaces -> ws <> "".
Proof.
  intros H. unfold Js.whiteSpaces in H. cbn [map Js.bytes fold_right] in H.
  repeat (destruct H as [<-|H]; [discriminate|]). destruct H.
Qed.

Lemma trimStart_blank s : Js.trimStart s = "" <-> blank s.
Proof.
  split.
  - remember (String.length s) as n eqn:Hn. revert s Hn.
    induction n as [n IH] using lt_wf_ind. intros s -> H.
    destruct (trimStart_step s) as [Hs | (ws & rest & Hws & -> & Hstep & Hlt)].
    + exists []. split; [constructor|]. now rewrite <- Hs, H.
    + rewrite Hstep in H.
      destruct (IH _ Hlt rest eq_refl H) as (l & Hl & ->).
      exists (ws :: l). split; [now constructor | reflexivity].
  - intros (l & Hl & ->). induction Hl as [|ws l Hws _ IH]; [reflexivity|].
    cbn [fold_right]. now rewrite trimStart_space.
Qed.

Lemma trimStart_idem s : Js.trimStart (Js.trimStart s) = Js.trimStart s.
Proof.
  remember (String.length s) as n eqn:Hn. revert s Hn.
  induction n as [n IH] using lt_wf_ind. intros s ->.
  destruct (trimStart_step s) as [Hs | (ws & rest & _ & _ & Hstep & Hlt)].
  - now rewrite !Hs.
  - rewrite Hstep. now apply (IH _ Hlt).
Qed.

Lemma trimEnd_empty s : Js.trimEnd s = "" <-> Js.trimStart s = "".
Proof.
  destruct s as [|c r]; [easy|].
  cbn [Js.trimEnd].
  destruct (String.eqb_spec (Js.trimStart (String c r)) "") as [H|H].
  - now rewrite H.
  - split; [discriminate | contradiction].
Qed.

(** [trim] leaves nothing exactly of the blank texts. *)
Lemma trim_blank s : Js.trim s = "" <-> blank s.
Proof.
  unfold Js.trim. now rewrite trimEnd_empty, trimStart_idem, trimStart_blank.
Qed.

Lemma usableValue_blank v : usableValue v = true <-> ~ blank v.
Proof.
  unfold usableValue, Js.nonEmpty. rewrite <- trim_blank. split.
  - intros H Ht. rewrite Ht in H. now rewrite andb_false_r in H.
  - intros H. destruct (String.eqb_spec (Js.trim v) "") as [Ht|Ht]; [contradiction|].
    destruct (String.eqb_spec v "") as [->|]; [|reflexivity].
    now contradiction Ht.
Qed.

Lemma orElse_usable o v :
  orElse o "" = v -> usableValue v = true -> o = Some v.
Proof.
  unfold orElse, usableValue, Js.nonEmpty. destruct o as [s|].
  - destruct (String.eqb_spec s "") as [->|]; intros <-; [discriminate | reflexivity].
  - intros <-. discriminate.
Qed.

Lemma poolOf_elem env k :
  k ∈ poolOf env
  <-> keyNames !! keyIndex k = Some (keyName k) /\
      env !! keyName k = Some (keyValue k) /\
      usableValue (keyValue k) = true.
Proof.
  unfold poolOf. rewrite list_elem_of_In, filter_In, <- list_elem_of_In.
  rewrite list_elem_of_lookup. fold (usableValue (keyValue k)). split.
  - intros [[i Hi] Hu]. rewrite list_lookup_imap in Hi.
    destruct (keyNames !! i) as [name|] eqn:En; [|discriminate].
    injection Hi as <-. cbn [keyIndex keyName keyValue] in *.
    split; [exact En|]. split; [|exact Hu]. now apply orElse_usable.
  - intros (Hn & He & Hu). split; [|exact Hu].
    exists (keyIndex k). rewrite list_lookup_imap, Hn. cbn [fmap option_fmap option_map].
    rewrite He. unfold orElse.
    unfold usableValue in Hu. apply andb_true_iff in Hu as [-> _].
    now destruct k.
Qed.

Lemma sorted_filter {A} (R : A -> A -> Prop) (p : A -> bool) (l : list A) :
  StronglySorted R l -> StronglySorted R (List.filter p l).
Proof.
  induction 1 as [|x l Hs IH Hall]; simpl; [constructor|].
  destruct (p x); [|exact IH]. constructor; [exact IH|].
  rewrite List.Forall_forall in *. intros y Hy. apply Hall.
  now apply filter_In in Hy.
Qed.

Lemma sorted_lookup {A} (R : A -> A -> Prop) (l : list A) :
  StronglySorted R l ->
  forall i j a b, i < j -> l !! i = Some a -> l !! j = Some b -> R a b.
Proof.
  induction 1 as [|x l Hs IH Hall]; intros i j a b Hij Ha Hb; [discriminate|].
  destruct j as [|j]; [lia|]. simpl in Hb.
  destruct i as [|i].
  - injection Ha as <-. rewrite List.Forall_forall in Hall. apply Hall.
    apply list_elem_of_In. eapply list_elem_of_lookup_2, Hb.
  - simpl in Ha. apply (IH i j); [lia | assumption..].
Qed.

Lemma poolOf_sorted env :
  StronglySorted (fun a b => keyIndex a < keyIndex b) (poolOf env).
Proof.
  unfold poolOf. apply sorted_filter. unfold keyNames. cbn [imap].
  repeat (constructor; [|repeat (constructor; [cbn [keyIndex compose]; lia|]);
                         constructor]).
  constructor.
Qed.

Lemma refreshKeys_pool w :
  apiKeys (snd (refreshKeys w)) = poolOf (processEnv (snd (refreshKeys w))).
Proof.
  destruct (refreshKeys_run w) as (w' & -> & _ & H & _). exact H.
Qed.

(** X15. After a rebuild, the pool holds exactly the configured keys:
    a key is in the pool if and only if its name is the key name of its
    index and the environment gives that name its value, a value that is
    not blank, that is, not made of white space characters only (of
    which the empty value is a case, and a value of no-break spaces
    another). The keys stand in the order of the key names, so that a key
    never sits in a slot beyond its index, and there are never more than
    seven. *)
Theorem rebuilt_pool_is_the_configured_keys (w : World) :
  let w' := snd (refreshKeys w) in
  (forall k,
      k ∈ apiKeys w'
      <-> keyNames !! keyIndex k = Some (keyName k) /\
          processEnv w' !! keyName k = Some (keyValue k) /\
          ~ blank (keyValue k)) /\
  (forall i j a b,
      i < j -> apiKeys w' !! i = Some a -> apiKeys w' !! j = Some b ->
      keyIndex a < keyIndex b) /\
  (forall i a, apiKeys w' !! i = Some a -> i <= keyIndex a < 7).
Proof.
  intros w'. subst w'. rewrite refreshKeys_pool.
  set (env := processEnv (snd (refreshKeys w))).
  pose proof (sorted_lookup _ _ (poolOf_sorted env)) as Hsorted.
  split; [intros k; rewrite <- usableValue_blank; apply poolOf_elem|].
  split; [exact Hsorted|].
  intros i a Ha. split.
  - revert a Ha. induction i as [|i IH]; intros a Ha; [lia|].
    assert (Hi : i < length (poolOf env))
      by (apply lookup_lt_Some in Ha; lia).
    destruct (lookup_lt_is_Some_2 _ _ Hi) as [b Hb].
    pose proof (Hsorted i (S i) b a ltac:(lia) Hb Ha) as Hlt.
    pose proof (IH b Hb) as Hle. cbv beta in Hlt. lia.
  - assert (Hin : a ∈ poolOf env) by (eapply list_elem_of_lookup_2, Ha).
    apply poolOf_elem in Hin as (Hn & _).
    apply lookup_lt_Some in Hn. exact Hn.
Qed.

(** ** Keys restored from the database *)

Lemma forEach_restoreKey rows w :
  forEach rows restoreKey w
  = (Return tt, setProcessEnv (restoredEnv rows (processEnv w)) w)
  \/ (rows = [] /\ forEach rows restoreKey w = (Return tt, w)).
Proof.
  destruct rows as [|r0 rows0]; [now right|]. left.
  remember (r0 :: rows0) as rows eqn:Hrows. clear Hrows r0 rows0.
  revert w. induction rows as [|r rows IH]; intros w.
  - simpl. unfold ret. destruct w. reflexivity.
  - cbn [forEach]. unfold restoredEnv. cbn [fold_left].
    fold (restoredEnv rows). unfold bind, restoreKey, assignment, restorable.
    destruct (r_keyValue r) as [v|].
    + destruct (Js.nonEmpty v && _).
      * unfold modify, assignEnv. rewrite IH. cbn [processEnv setProcessEnv].
        destruct (Js.nonEmpty _ && _); [reflexivity|]. now destruct w.
      * unfold ret. rewrite IH. reflexivity.
    + unfold ret. rewrite IH. reflexivity.
Qed.

Lemma forEach_restoreKey_env rows w :
  fst (forEach rows restoreKey w) = Return tt /\
  processEnv (snd (forEach rows restoreKey w)) = restoredEnv rows (processEnv w).
Proof.
  destruct (forEach_restoreKey rows w) as [-> | [-> ->]]; now split.
Qed.

Lemma restoredEnv_lookup rows name v :
  (forall r u, r ∈ rows -> assignment r = Some (name, u) -> u = v) ->
  forall env,
    env !! name = Some v \/ (exists r, r ∈ rows /\ assignment r = Some (name, v)) ->
    restoredEnv rows env !! name = Some v.
Proof.
  unfold restoredEnv. induction rows as [|r rows IH]; intros Hall env Hhave.
  - destruct Hhave as [H | (r & Hr & _)]; [exact H | inversion Hr].
  - cbn [fold_left]. apply IH.
    { intros r' u Hr'. apply Hall. now right. }
    destruct (assignment r) as [[n u]|] eqn:Ea.
    + destruct (String.eqb_spec n name) as [->|Hne].
      * left. rewrite (Hall r u (list_elem_of_here _ _) Ea).
        apply lookup_insert_eq.
      * destruct Hhave as [H | (r' & Hr' & Ha')].
        -- left. now rewrite lookup_insert_ne.
        -- right. exists r'. split; [|exact Ha'].
           apply elem_of_cons in Hr' as [->|Hr']; [congruence | exact Hr'].
    + destruct Hhave as [H | (r' & Hr' & Ha')]; [now left|].
      right. exists r'. split; [|exact Ha'].
      apply elem_of_cons in Hr' as [->|Hr']; [congruence | exact Hr'].
Qed.

Lemma restoredEnv_unchanged rows env :
  (forall r, r ∈ rows -> assignment r = None) -> restoredEnv rows env = env.
Proof.
  unfold restoredEnv. revert env. induction rows as [|r rows IH]; intros env Hall.
  - reflexivity.
  - cbn [fold_left]. rewrite (Hall r (list_elem_of_here _ _)).
    apply IH. intros r' Hr'. apply Hall. now right.
Qed.

Lemma refreshKeys_env_healthy w :
  dbFaults w = [] ->
  processEnv (snd (refreshKeys w))
  = restoredEnv (List.filter r_isEnabled (praggoAIKeys (db w))) (processEnv w).
Proof.
  intros E. unfold refreshKeys, initializeAPIKeys.
  assert (Hrestore :
            fst (restoreKeys w) = Return tt /\
            processEnv (snd (restoreKeys w))
            = restoredEnv (List.filter r_isEnabled (praggoAIKeys (db w)))
                          (processEnv w)).
  { unfold restoreKeys, tryCatch, selectKeyRows.
    erewrite bind_return; [|apply dbStatement_healthy, E]. cbn [fst snd].
    destruct (forEach_restoreKey_env
                (List.filter r_isEnabled (praggoAIKeys (db w))) (setDb (db w) w))
      as [Ho He].
    destruct (forEach _ _ _) as [[[]|e] v]; [|discriminate].
    now split. }
  destruct Hrestore as [Ho He].
  destruct (restoreKeys w) as [o w1] eqn:E1. cbn [fst snd] in *. subst o.
  rewrite (bind_return _ _ _ _ _ E1), bind_gets.
  unfold bind at 1, modify at 1.
  destruct (initializeDatabaseKeys_run (setApiKeys (poolOf (processEnv w1)) w1))
    as (w3 & Hrun & _ & _ & He3 & _).
  unfold poolOf in Hrun. rewrite Hrun. cbn [snd]. rewrite <- He3. exact He.
Qed.

(** The seven key names are names the environment accepts as they are. *)
Lemma keyNames_plain i name :
  keyNames !! i = Some name ->
  Js.cString name = name /\
  Js.nonEmpty name && negb (Js.includes name "=") = true.
Proof.
  unfold keyNames. intros H.
  do 7 (destruct i as [|i]; [injection H as <-; now vm_compute|]).
  discriminate.
Qed.

Lemma restorable_usable r v : restorable r = Some v -> usableValue v = true.
Proof.
  unfold restorable. destruct (r_keyValue r) as [v0|]; [|discriminate].
  destruct (Js.nonEmpty v0 && (10 <? Js.length (Js.trim v0))) eqn:Ev; [|discriminate].
  intros [= ->]. apply andb_true_iff in Ev as [Hne Hlen].
  unfold usableValue. rewrite Hne. cbn [andb].
  unfold Js.nonEmpty. destruct (Js.trim v); [discriminate | reflexivity].
Qed.

(** X16. On a healthy database, a rebuild puts a key of the database
    before the environment. Take one of the seven key names and the
    enabled rows that are restored under it (a row's name counts up to
    its first NUL): when they all hold the same value, longer than ten
    code units once trimmed and without a NUL, that value is what the
    environment holds for the name afterwards, and the key with that
    value is in the pool. When no enabled row holds a value longer than
    ten code units once trimmed, the environment is left as it was. *)
Theorem database_key_overrides_environment (w : World) (row : KeyRow)
    (v : string) (i : nat) :
  dbFaults w = [] ->
  let w' := snd (refreshKeys w) in
  (row ∈ praggoAIKeys (db w) ->
   r_isEnabled row = true ->
   keyNames !! i = Some (r_keyName row) ->
   Js.cString v = v ->
   (forall r, r ∈ praggoAIKeys (db w) -> r_isEnabled r = true ->
              Js.cString (r_keyName r) = r_keyName row -> restorable r = Some v) ->
   processEnv w' !! r_keyName row = Some v /\
   mkApiKey (r_keyName row) v i ∈ apiKeys w') /\
  ((forall r, r ∈ praggoAIKeys (db w) -> r_isEnabled r = true ->
              restorable r = None) ->
   processEnv w' = processEnv w).
Proof.
  intros E w'. subst w'. rewrite refreshKeys_pool, refreshKeys_env_healthy by exact E.
  split.
  - intros Hrow Hen Hname Hv Hall.
    destruct (keyNames_plain _ _ Hname) as [Hc Hplain].
    assert (Hmem : forall r, r ∈ List.filter r_isEnabled (praggoAIKeys (db w))
                             <-> r ∈ praggoAIKeys (db w) /\ r_isEnabled r = true).
    { intros r. rewrite !list_elem_of_In. apply filter_In. }
    assert (Hlook : restoredEnv (List.filter r_isEnabled (praggoAIKeys (db w)))
                                (processEnv w) !! r_keyName row = Some v).
    { apply restoredEnv_lookup.
      - intros r u Hr Ha. apply Hmem in Hr as [Hr Hre].
        unfold assignment in Ha.
        destruct (restorable r) as [v0|] eqn:Ev0; [|discriminate].
        cbv zeta in Ha.
        destruct (Js.nonEmpty (Js.cString (r_keyName r)) && _); [|discriminate].
        injection Ha as Hn <-.
        rewrite (Hall r Hr Hre Hn) in Ev0. now injection Ev0 as ->.
      - right. exists row. split; [now apply Hmem|].
        unfold assignment. rewrite (Hall row Hrow Hen Hc), Hc, Hplain, Hv.
        reflexivity. }
    split; [exact Hlook|].
    apply poolOf_elem. cbn [keyIndex keyName keyValue].
    split; [exact Hname|]. split; [exact Hlook|].
    apply (restorable_usable row), (Hall row Hrow Hen Hc).
  - intros Hall. apply restoredEnv_unchanged.
    intros r Hr. apply list_elem_of_In, filter_In in Hr as [Hr Hen].
    unfold assignment. rewrite Hall; [reflexivity | now apply list_elem_of_In | exact Hen].
Qed.

Lemma keeps_usage_dbStatement {A} (f : Database -> A * Database) :
  (forall d, praggoAIUsage (snd (f d)) = praggoAIUsage d) ->
  Keeps (fun w => praggoAIUsage (db w)) (dbStatement f).
Proof.
  intros Hf w. unfold dbStatement.
  destruct (dbFaults w) as [|[|] rest]; [| reflexivity |];
    specialize (Hf (db w)); now destruct (f (db w)).
Qed.

Lemma initializeDatabaseKeys_usage w :
  praggoAIUsage (db (snd (initializeDatabaseKeys w))) = praggoAIUsage (db w).
Proof.
  revert w. change (Keeps (fun w => praggoAIUsage (db w)) initializeDatabaseKeys).
  unfold initializeDatabaseKeys.
  apply keeps_tryCatch; [|intros e w; reflexivity].
  apply keeps_bind; [intros w; reflexivity|]. intros keys.
  apply keeps_forEach. intros key.
  apply keeps_bind; [now apply keeps_usage_dbStatement|]. intros existingKey.
  destruct (_ =? 0); [now apply keeps_usage_dbStatement | intros w; reflexivity].
Qed.

(** X17. When the database cannot be read, a rebuild still completes:
    the environment is left as it was and the pool is the one the
    environment alone gives. *)
Theorem rebuild_without_database (w : World) :
  nextStatementFails w = true ->
  exists w',
    refreshKeys w = (Return tt, w') /\
    processEnv w' = processEnv w /\
    apiKeys w' = poolOf (processEnv w) /\
    praggoAIUsage (db w') = praggoAIUsage (db w) /\
    currentKeyIndex w' = currentKeyIndex w.
Proof.
  unfold nextStatementFails. intros Hfail.
  destruct (dbFaults w) as [|[|] rest] eqn:E; try discriminate.
  unfold refreshKeys, initializeAPIKeys.
  assert (Hrestore : restoreKeys w = (Return tt, setDbFaults rest w)).
  { unfold restoreKeys, tryCatch, selectKeyRows.
    now rewrite (bind_throw _ _ _ _ _ (dbStatement_failing _ w rest E)). }
  rewrite (bind_return _ _ _ _ _ Hrestore), bind_gets.
  unfold bind at 1, modify at 1.
  set (w2 := setApiKeys _ (setDbFaults rest w)).
  destruct (swallowed_run _ w2 storeOnly_databaseKeys)
    as (w3 & Hrun & Hk3 & Hc3 & He3 & _).
  fold initializeDatabaseKeys in Hrun.
  exists w3. split; [exact Hrun|].
  rewrite <- He3, <- Hk3, <- Hc3. repeat split.
  replace w3 with (snd (initializeDatabaseKeys w2)) by now rewrite Hrun.
  now rewrite initializeDatabaseKeys_usage.
Qed.

(** ** The rows of the keys table *)

Lemma hasRow_app name rows more :
  hasRow name (rows ++ more)%list = hasRow name rows || hasRow name more.
Proof. apply existsb_app. Qed.

Lemma hasRow_fresh key : hasRow (keyName key) [freshKeyRow key] = true.
Proof. unfold hasRow. simpl. now rewrite String.eqb_refl. Qed.

Lemma no_row_selected name rows :
  (length (take 1 (List.filter (fun r => String.eqb (r_keyName r) name) rows)) =? 0)
  = negb (hasRow name rows).
Proof.
  unfold hasRow. induction rows as [|r rows IH]; [reflexivity|].
  simpl. destruct (String.eqb (r_keyName r) name); [reflexivity | exact IH].
Qed.

Lemma ensureRows_grows keys :
  forall rows,
    exists added,
      ensureRows keys rows = (rows ++ added)%list /\
      Forall (fun r => exists k, k ∈ keys /\ r = freshKeyRow k /\
                                 hasRow (keyName k) rows = false) added.
Proof.
  unfold ensureRows. induction keys as [|key keys IH]; intros rows.
  - exists []. now rewrite app_nil_r.
  - cbn [fold_left]. destruct (hasRow (keyName key) rows) eqn:Ehas.
    + destruct (IH rows) as (added & -> & Hall). exists added. split; [reflexivity|].
      eapply Forall_impl; [exact Hall|].
      intros r (k & Hk & Hr & Hno). exists k. split; [now right | now split].
    + destruct (IH (rows ++ [freshKeyRow key])%list) as (added & -> & Hall).
      exists (freshKeyRow key :: added). split; [now rewrite <- app_assoc|].
      constructor.
      * exists key. split; [now left | now split].
      * eapply Forall_impl; [exact Hall|].
        intros r (k & Hk & Hr & Hno). exists k. split; [now right|].
        split; [exact Hr|]. rewrite hasRow_app in Hno.
        now apply orb_false_iff in Hno.
Qed.

Lemma ensureRows_keeps_rows keys rows name :
  hasRow name rows = true -> hasRow name (ensureRows keys rows) = true.
Proof.
  intros H. destruct (ensureRows_grows keys rows) as (added & -> & _).
  now rewrite hasRow_app, H.
Qed.

Lemma ensureRows_has keys :
  forall rows k, k ∈ keys -> hasRow (keyName k) (ensureRows keys rows) = true.
Proof.
  induction keys as [|key keys IH]; intros rows k Hk; [inversion Hk|].
  apply elem_of_cons in Hk as [->|Hk]; [|apply IH, Hk].
  unfold ensureRows. cbn [fold_left]. fold (ensureRows keys).
  destruct (hasRow (keyName key) rows) eqn:Ehas.
  - now apply ensureRows_keeps_rows.
  - apply ensureRows_keeps_rows. now rewrite hasRow_app, hasRow_fresh, orb_true_r.
Qed.

Lemma ensureRows_fixed keys :
  forall rows,
    (forall k, k ∈ keys -> hasRow (keyName k) rows = true) ->
    ensureRows keys rows = rows.
Proof.
  unfold ensureRows. induction keys as [|key keys IH]; intros rows Hall; [reflexivity|].
  cbn [fold_left]. rewrite (Hall key (list_elem_of_here _ _)).
  apply IH. intros k Hk. apply Hall. now right.
Qed.

Lemma ensure_one key w :
  dbFaults w = [] ->
  exists w',
    (let* existingKey :=
       selectKeyRows (fun r => String.eqb (r_keyName r) (keyName key)) in
     if length (take 1 existingKey) =? 0
     then insertKeyRow
            (mkKeyRow (keyName key) (keyIndex key) None active true 0%Z None None)
     else ret tt) w = (Return tt, w') /\
    sameService w w' /\
    dbFaults w' = [] /\
    praggoAIUsage (db w') = praggoAIUsage (db w) /\
    praggoAIKeys (db w')
    = (if hasRow (keyName key) (praggoAIKeys (db w)) then praggoAIKeys (db w)
       else praggoAIKeys (db w) ++ [freshKeyRow key])%list.
Proof.
  intros E. unfold selectKeyRows.
  erewrite bind_return; [|apply dbStatement_healthy, E]. cbn [fst snd].
  rewrite no_row_selected.
  destruct (hasRow (keyName key) (praggoAIKeys (db w))); cbn [negb].
  - eexists. split; [reflexivity|]. now repeat split.
  - unfold insertKeyRow. rewrite dbStatement_healthy by exact E.
    eexists. split; [reflexivity|]. now repeat split.
Qed.

Lemma forEach_ensure keys :
  forall w,
    dbFaults w = [] ->
    exists w',
      forEach keys (fun key =>
        let* existingKey :=
          selectKeyRows (fun r => String.eqb (r_keyName r) (keyName key)) in
        if length (take 1 existingKey) =? 0
        then insertKeyRow
               (mkKeyRow (keyName key) (keyIndex key) None active true 0%Z None None)
        else ret tt) w = (Return tt, w') /\
      sameService w w' /\
      dbFaults w' = [] /\
      praggoAIUsage (db w') = praggoAIUsage (db w) /\
      praggoAIKeys (db w') = ensureRows keys (praggoAIKeys (db w)).
Proof.
  induction keys as [|key keys IH]; intros w E.
  - exists w. repeat split; auto.
  - cbn [forEach].
    destruct (ensure_one key w E) as (w1 & Hone & Hs1 & Hf1 & Hu1 & Hk1).
    rewrite (bind_return _ _ _ _ _ Hone).
    destruct (IH w1 Hf1) as (w' & Hrun & Hs & Hf & Hu & Hk).
    exists w'. split; [exact Hrun|].
    split; [eapply sameService_trans; eassumption|].
    split; [exact Hf|]. split; [congruence|].
    rewrite Hk, Hk1. reflexivity.
Qed.

Lemma initializeDatabaseKeys_healthy w :
  dbFaults w = [] ->
  exists w',
    initializeDatabaseKeys w = (Return tt, w') /\
    sameService w w' /\
    dbFaults w' = [] /\
    praggoAIUsage (db w') = praggoAIUsage (db w) /\
    praggoAIKeys (db w') = ensureRows (apiKeys w) (praggoAIKeys (db w)).
Proof.
  intros E. unfold initializeDatabaseKeys, tryCatch. rewrite bind_gets.
  destruct (forEach_ensure (apiKeys w) w E) as (w' & -> & H). now exists w'.
Qed.

(** X18. On a healthy database, [initializeDatabaseKeys] is an upsert by
    key name: the rows that were there stay as they are, in place; what is
    added, at the end, is a fresh active row for a key of the pool that had
    no row of its name; afterwards every key of the pool has a row, no
    usage record has changed, and a second run adds nothing. *)
Theorem database_keys_are_upserted (w : World) :
  dbFaults w = [] ->
  exists w' added,
    initializeDatabaseKeys w = (Return tt, w') /\
    sameService w w' /\
    praggoAIUsage (db w') = praggoAIUsage (db w) /\
    praggoAIKeys (db w') = (praggoAIKeys (db w) ++ added)%list /\
    Forall (fun r => exists k, k ∈ apiKeys w /\ r = freshKeyRow k /\
                               hasRow (keyName k) (praggoAIKeys (db w)) = false)
           added /\
    (forall k, k ∈ apiKeys w -> hasRow (keyName k) (praggoAIKeys (db w')) = true) /\
    praggoAIKeys (db (snd (initializeDatabaseKeys w'))) = praggoAIKeys (db w').
Proof.
  intros E.
  destruct (initializeDatabaseKeys_healthy w E) as (w' & Hrun & Hs & Hf & Hu & Hk).
  destruct (ensureRows_grows (apiKeys w) (praggoAIKeys (db w))) as (added & Hadd & Hall).
  exists w', added. split; [exact Hrun|]. split; [exact Hs|]. split; [exact Hu|].
  split; [now rewrite Hk|]. split; [exact Hall|].
  assert (Hhas : forall k, k ∈ apiKeys w ->
                           hasRow (keyName k) (praggoAIKeys (db w')) = true)
    by (intros k Hin; rewrite Hk; now apply ensureRows_has).
  split; [exact Hhas|].
  destruct (initializeDatabaseKeys_healthy w' Hf) as (w2 & -> & Hs2 & _ & _ & Hk2).
  cbn [snd]. rewrite Hk2. apply ensureRows_fixed.
  destruct Hs as (<- & _). exact Hhas.
Qed.

(** ** Rebuilding twice *)

Lemma restoredEnv_app rows more env :
  restoredEnv (rows ++ more) env = restoredEnv more (restoredEnv rows env).
Proof. unfold restoredEnv. apply fold_left_app. Qed.

Lemma restoredEnv_lookup_cases rows name :
  (exists v, forall env, restoredEnv rows env !! name = Some v) \/
  (forall env, restoredEnv rows env !! name = env !! name).
Proof.
  unfold restoredEnv. induction rows as [|r rows IH]; [now right|].
  cbn [fold_left]. destruct IH as [[v Hv] | Hpass]; [left; now exists v|].
  destruct (assignment r) as [[n v]|]; [|now right].
  destruct (String.eqb_spec n name) as [<-|Hne].
  - left. exists v. intros env. rewrite Hpass. apply lookup_insert_eq.
  - right. intros env. rewrite Hpass. now apply lookup_insert_ne.
Qed.

Lemma restoredEnv_idem rows env :
  restoredEnv rows (restoredEnv rows env) = restoredEnv rows env.
Proof.
  apply map_eq. intros name.
  destruct (restoredEnv_lookup_cases rows name) as [[v Hv] | Hpass].
  - now rewrite !Hv.
  - now rewrite Hpass.
Qed.

Lemma refreshKeys_healthy w :
  dbFaults w = [] ->
  exists w',
    refreshKeys w = (Return tt, w') /\
    dbFaults w' = [] /\
    currentKeyIndex w' = currentKeyIndex w /\
    backendCalls w' = backendCalls w /\
    processEnv w'
    = restoredEnv (List.filter r_isEnabled (praggoAIKeys (db w))) (processEnv w) /\
    apiKeys w' = poolOf (processEnv w') /\
    praggoAIUsage (db w') = praggoAIUsage (db w) /\
    praggoAIKeys (db w') = ensureRows (apiKeys w') (praggoAIKeys (db w)).
Proof.
  intros E. unfold refreshKeys, initializeAPIKeys.
  set (rows := List.filter r_isEnabled (praggoAIKeys (db w))).
  assert (Hrestore :
            exists w1, restoreKeys w = (Return tt, w1) /\
                       dbFaults w1 = [] /\ db w1 = db w /\
                       apiKeys w1 = apiKeys w /\
                       currentKeyIndex w1 = currentKeyIndex w /\
                       backendCalls w1 = backendCalls w /\
                       processEnv w1 = restoredEnv rows (processEnv w)).
  { unfold restoreKeys, tryCatch, selectKeyRows.
    erewrite bind_return; [|apply dbStatement_healthy, E]. cbn [fst snd]. fold rows.
    destruct (forEach_restoreKey rows (setDb (db w) w)) as [-> | [Hnil ->]].
    - eexists. split; [reflexivity|]. now repeat split.
    - eexists. split; [reflexivity|]. rewrite Hnil. now repeat split. }
  destruct Hrestore as (w1 & Hrun1 & Hf1 & Hdb1 & Hk1 & Hc1 & Hb1 & He1).
  rewrite (bind_return _ _ _ _ _ Hrun1), bind_gets.
  unfold bind at 1, modify at 1. fold (poolOf (processEnv w1)).
  set (w2 := setApiKeys (poolOf (processEnv w1)) w1).
  destruct (initializeDatabaseKeys_healthy w2 Hf1)
    as (w3 & Hrun & (Hk3 & Hc3 & He3 & Hb3) & Hf3 & Hu3 & Hkeys3).
  exists w3. split; [exact Hrun|]. split; [exact Hf3|].
  rewrite <- Hc3, <- Hb3, <- He3, <- Hk3, Hu3, Hkeys3.
  cbn [currentKeyIndex backendCalls processEnv apiKeys db w2 setApiKeys].
  rewrite Hdb1. now repeat split.
Qed.

(** X19. On a healthy database, rebuilding the pool is idempotent: a
    second rebuild right after the first leaves the environment, the pool,
    the cursor and both tables as the first left them. *)
Theorem rebuild_is_idempotent (w : World) :
  dbFaults w = [] ->
  let w1 := snd (refreshKeys w) in
  let w2 := snd (refreshKeys w1) in
  processEnv w2 = processEnv w1 /\
  apiKeys w2 = apiKeys w1 /\
  currentKeyIndex w2 = currentKeyIndex w1 /\
  praggoAIKeys (db w2) = praggoAIKeys (db w1) /\
  praggoAIUsage (db w2) = praggoAIUsage (db w1).
Proof.
  intros E w1 w2. subst w1 w2.
  destruct (refreshKeys_healthy w E)
    as (w1 & -> & Hf1 & Hc1 & Hb1 & He1 & Hk1 & Hu1 & Hr1).
  cbn [snd].
  destruct (refreshKeys_healthy w1 Hf1)
    as (w2 & -> & Hf2 & Hc2 & Hb2 & He2 & Hk2 & Hu2 & Hr2).
  cbn [snd].
  destruct (ensureRows_grows (apiKeys w1) (praggoAIKeys (db w)))
    as (added & Hadd & Hall).
  assert (Henv : processEnv w2 = processEnv w1).
  { rewrite He2, Hr1, Hadd, List.filter_app, restoredEnv_app, He1.
    rewrite restoredEnv_idem. apply restoredEnv_unchanged.
    intros r Hr. apply list_elem_of_In, filter_In in Hr as [Hr _].
    rewrite List.Forall_forall in Hall.
    destruct (Hall r Hr) as (k & _ & -> & _). reflexivity. }
  split; [exact Henv|].
  assert (Hpool : apiKeys w2 = apiKeys w1) by now rewrite Hk2, Henv, Hk1.
  split; [exact Hpool|]. split; [exact Hc2|]. split; [|exact Hu2].
  rewrite Hr2, Hpool, Hr1. apply ensureRows_fixed.
  intros k Hk. now apply ensureRows_has.
Qed.

(** ** The error a call ends with, and the text it returns *)

Section Exits.

Variable backend : nat -> string -> string -> BackendReply.
Variable clock : nat -> Z.
Variables (prompt userId : string) (userRole : UserRole)
          (requestType : RequestType) (subject : string).
Variable startTime : Z.

Local Abbreviation loop :=
  (attemptLoop backend clock prompt userId userRole requestType subject
               startTime).

Lemma attemptOnce_returned k w text w' :
  attemptOnce backend clock prompt userId userRole requestType subject
              startTime (keyValue k) k w = (Return text, w') ->
  exists r,
    backend (length (backendCalls w)) (keyValue k) prompt = resolves r /\
    forall v, extractText r v = (Return text, v).
Proof.
  unfold attemptOnce, bind at 1, generateContent.
  destruct (backend _ _ _) as [e| |r]; try discriminate.
  destruct (extractText_world r) as [[t|e] Htext].
  - rewrite (bind_return _ _ _ _ _ (Htext _)). unfold now. rewrite bind_gets.
    unfold bind, ret.
    destruct (logUsage _ _ _ _ _ _ _ _ _ _ _ _) as [[[]|e] v]; [|discriminate].
    intros [= <- _]. now exists r.
  - rewrite (bind_throw _ _ _ _ _ (Htext _)). discriminate.
Qed.

Lemma attemptOnce_thrown k w err w' :
  attemptOnce backend clock prompt userId userRole requestType subject
              startTime (keyValue k) k w = (Throw err, w') ->
  attemptError (backend (length (backendCalls w)) (keyValue k) prompt) err.
Proof.
  unfold attemptOnce, bind at 1, generateContent, attemptError.
  destruct (backend _ _ _) as [e| |r].
  - now intros [= <- _].
  - unfold throw. now intros [= <- _].
  - destruct (extractText_world r) as [[t|e] Htext].
    + rewrite (bind_return _ _ _ _ _ (Htext _)). unfold now. rewrite bind_gets.
      set (w0 := logBackendCall _ w).
      destruct (logUsage_run clock userId userRole requestType subject true
                  (Some (keyName k)) None
                  (Some (clock (length (backendCalls w0)) - startTime)%Z)
                  (Some (Js.length prompt)) (Some (Js.length t)) w0)
        as (w1 & Hlog & _).
      rewrite (bind_return _ _ _ _ _ Hlog). discriminate.
    + rewrite (bind_throw _ _ _ _ _ (Htext _)). now intros [= <- _].
Qed.

(** With the cursor in range and fuel to spare, the loop does not throw;
    it is left either with the budget used up, or on the error of the
    last invocation, one that is not quota-classified, or with the text of
    the last invocation; that invocation was made with the key the cursor
    is on. *)
Lemma attemptLoop_exits fuel :
  forall attempt lastError w o w',
    maxRetries < fuel + attempt ->
    inRange w ->
    loop fuel attempt lastError w = (o, w') ->
    match o with
    | Throw _ => False
    | Return (Exited attempt' lastError') =>
        Nat.min maxRetries (length (apiKeys w)) <= attempt' \/
        exists err k pre,
          lastError' = Some err /\ isQuotaError (Some err) = false /\
          apiKeys w' !! currentKeyIndex w' = Some k /\
          backendCalls w' = (pre ++ [(keyValue k, prompt)])%list /\
          attemptError (backend (length pre) (keyValue k) prompt) err
    | Return (Returned text) =>
        exists k pre r,
          apiKeys w' !! currentKeyIndex w' = Some k /\
          backendCalls w' = (pre ++ [(keyValue k, prompt)])%list /\
          backend (length pre) (keyValue k) prompt = resolves r /\
          forall v, extractText r v = (Return text, v)
    end.
Proof.
  induction fuel as [|fuel IH]; intros attempt lastError w o w' Hfuel Hin Hrun.
  - injection Hrun as <- <-. left. cbn [Nat.add] in Hfuel. lia.
  - destruct (Nat.lt_ge_cases attempt (Nat.min maxRetries (length (apiKeys w))))
      as [Hlt|Hge].
    2:{ rewrite loop_exhausted in Hrun by lia. injection Hrun as <- <-. now left. }
    destruct (lookup_lt_is_Some_2 _ _ Hin) as [k Hcur].
    rewrite (iteration_enters backend clock prompt userId userRole requestType
               subject startTime fuel attempt lastError w k
               ltac:(lia) ltac:(lia) Hcur) in Hrun.
    destruct (attemptOnce_run backend clock prompt userId userRole requestType
                subject startTime k w)
      as (o1 & w1 & Hon & Hk1 & Hc1 & Hb1 & _).
    unfold tryCatch in Hrun. destruct o1 as [text|error].
    + rewrite (bind_return _ _ _ _ _ Hon) in Hrun. injection Hrun as <- <-.
      destruct (attemptOnce_returned k w text w1 Hon) as (r & Hr & Htext).
      exists k, (backendCalls w), r.
      split; [now rewrite Hk1, Hc1|]. now split.
    + rewrite (bind_throw _ _ _ _ _ Hon) in Hrun.
      destruct (attemptFailed_run clock prompt userId userRole requestType subject
                  startTime k error w1)
        as (w2 & Hfail & (Hk2 & Hc2 & _ & Hb2) & _).
      rewrite (bind_return _ _ _ _ _ Hfail) in Hrun.
      destruct (isQuotaError (Some error)) eqn:Hq.
      * destruct (rotateToNextKey_run clock w2)
          as (w3 & Hrot & Hk3 & Hc3 & _ & Hb3 & _).
        rewrite (bind_return _ _ _ _ _ Hrot) in Hrun.
        assert (Hk30 : apiKeys w3 = apiKeys w) by congruence.
        assert (Hin3 : inRange w3).
        { unfold inRange. rewrite Hk3, Hc3, <- Hk2, <- Hc2, Hk1, Hc1.
          unfold nextIndex. destruct (length (apiKeys w) <=? 1); [exact Hin|].
          apply Nat.mod_upper_bound. unfold inRange in Hin. lia. }
        assert (Hfuel' : maxRetries < fuel + S attempt) by lia.
        pose proof (IH _ _ _ _ _ Hfuel' Hin3 Hrun) as Hexit.
        now rewrite Hk30 in Hexit.
      * injection Hrun as <- <-. right. exists error, k, (backendCalls w).
        split; [reflexivity|]. split; [exact Hq|].
        split; [now rewrite <- Hk2, <- Hc2, Hk1, Hc1|].
        split; [now rewrite <- Hb2|].
        exact (attemptOnce_thrown k w error w1 Hon).
Qed.

End Exits.

(** X20. The text a call returns is the text of the response to its
    last backend invocation, and that invocation was made with the key the
    cursor is on when the call returns, whatever happened before. *)
Theorem returned_text_came_from_current_key
    (backend : nat -> string -> string -> BackendReply) (clock : nat -> Z)
    (prompt userId : string) (userRole : UserRole) (requestType : RequestType)
    (subject : string) (w w' : World) (text : string) :
  inRange w ->
  makeAPICall backend clock prompt userId userRole requestType subject w
  = (Return text, w') ->
  exists k pre r,
    apiKeys w' !! currentKeyIndex w' = Some k /\
    backendCalls w' = (pre ++ [(keyValue k, prompt)])%list /\
    backend (length pre) (keyValue k) prompt = resolves r /\
    forall v, extractText r v = (Return text, v).
Proof.
  intros Hin. rewrite makeAPICall_from_loop.
  destruct (attemptLoop _ _ _ _ _ _ _ _ _ _ _ w) as [o v] eqn:Hrun.
  assert (Hfuel : maxRetries < S maxRetries + 0) by lia.
  pose proof (attemptLoop_exits backend clock prompt userId userRole requestType
                subject _ _ _ _ _ _ _ Hfuel Hin Hrun) as Hexit.
  destruct o as [[result|attempt lastError]|e]; [|discriminate|contradiction].
  intros [= <- <-]. exact Hexit.
Qed.

(** X21. In a pool of at most [maxRetries] keys, as every rebuilt pool
    is, with the cursor in range, the loop of a call is never left with
    keys still untried and a last error that is quota-classified: the
    branch for the all-keys-limit text is never taken. So a call that
    fails throws either the daily-limit error, or an error with the
    message of the error its last attempt, the last backend invocation,
    failed with (the service-problem text when that error has no message);
    that error is not quota-classified and its message does not mention
    "exhausted". *)
Theorem failed_call_reports_limit_or_last_error
    (backend : nat -> string -> string -> BackendReply) (clock : nat -> Z)
    (prompt userId : string) (userRole : UserRole) (requestType : RequestType)
    (subject : string) (w : World) :
  inRange w ->
  length (apiKeys w) <= maxRetries ->
  (forall attempt lastError w1,
      attemptLoop backend clock prompt userId userRole requestType subject
                  (clock (length (backendCalls w))) (S maxRetries) 0 None w
      = (Return (Exited attempt lastError), w1) ->
      length (apiKeys w1) <= attempt \/ isQuotaError lastError = false) /\
  (forall e w',
      makeAPICall backend clock prompt userId userRole requestType subject w
      = (Throw e, w') ->
      e = newError MSG_DAILY_LIMIT \/
      exists err k pre,
        apiKeys w' !! currentKeyIndex w' = Some k /\
        backendCalls w' = (pre ++ [(keyValue k, prompt)])%list /\
        attemptError (backend (length pre) (keyValue k) prompt) err /\
        isQuotaError (Some err) = false /\
        mentionsExhausted (Some err) = false /\
        e = newError (orElse (message err) MSG_SERVICE_PROBLEM)).
Proof.
  intros Hin Hmax.
  assert (Hfuel : maxRetries < S maxRetries + 0) by lia.
  split.
  - intros attempt lastError w1 Hrun.
    pose proof (attemptLoop_exits backend clock prompt userId userRole requestType
                  subject _ _ _ _ _ _ _ Hfuel Hin Hrun) as Hexit.
    destruct (attemptLoop_accounting _ _ _ _ _ _ _ _ _ _ _ _ _ _ Hin Hrun)
      as (Hk & _).
    destruct Hexit as [Hspent | (err & k & pre & -> & Hq & _)].
    + left. rewrite Hk. lia.
    + now right.
  - intros e w'. rewrite makeAPICall_from_loop.
    destruct (attemptLoop _ _ _ _ _ _ _ _ _ _ _ w) as [o v] eqn:Hrun.
    pose proof (attemptLoop_exits backend clock prompt userId userRole requestType
                  subject _ _ _ _ _ _ _ Hfuel Hin Hrun) as Hexit.
    destruct (attemptLoop_accounting _ _ _ _ _ _ _ _ _ _ _ _ _ _ Hin Hrun)
      as (Hk & _).
    destruct o as [[result|attempt lastError]|err]; [discriminate| |contradiction].
    intros [= <- <-]. unfold finalMessage. rewrite Hk.
    destruct Hexit as [Hspent | (err & k & pre & -> & Hq & Hcur & Hcalls & Herr)].
    + left. replace (length (apiKeys w) <=? attempt) with true
        by (symmetry; apply Nat.leb_le; lia).
      now rewrite orb_true_r.
    + destruct (mentionsExhausted (Some err)) eqn:Hex; [now left|].
      destruct (length (apiKeys w) <=? attempt); [now left|].
      right. exists err, k, pre. cbn [orb]. rewrite Hq, <- Hk.
      split; [exact Hcur|]. split; [exact Hcalls|]. split; [exact Herr|].
      now repeat split.
Qed.

(** X22. A first attempt rejected with an error that is not
    quota-classified but whose message mentions "exhausted" is reported to
    the caller as the daily limit: the backend's own message is not
    passed on, although no key was rotated and the call stopped after one
    invocation. *)
Theorem exhausted_word_reports_daily_limit
    (backend : nat -> string -> string -> BackendReply) (clock : nat -> Z)
    (prompt userId : string) (userRole : UserRole) (requestType : RequestType)
    (subject : string) (w : World) (k : ApiKey) (e : JsError) :
  apiKeys w !! currentKeyIndex w = Some k ->
  backend (length (backendCalls w)) (keyValue k) prompt = rejects e ->
  isQuotaError (Some e) = false ->
  mentionsExhausted (Some e) = true ->
  exists w',
    makeAPICall backend clock prompt userId userRole requestType subject w
    = (Throw (newError MSG_DAILY_LIMIT), w') /\
    currentKeyIndex w' = currentKeyIndex w /\
    backendCalls w' = (backendCalls w ++ [(keyValue k, prompt)])%list /\
    praggoAIKeys (db w') = praggoAIKeys (db w).
Proof.
  intros Hcur Hb Hq Hex.
  destruct (first_attempt_thrown backend clock prompt userId userRole requestType
              subject w k e Hcur
              (attemptOnce_rejected backend clock prompt userId userRole requestType
                 subject (clock (length (backendCalls w))) w k e Hb) Hq)
    as (w' & Hrun & _ & Hc & Hcalls & Hkeys & _).
  exists w'. rewrite Hrun. unfold finalMessage. rewrite Hex. now repeat split.
Qed.

(** * Worked examples of the further properties *)

Lemma makeAPICall_without_keys_witness :
  makeAPICall alwaysAnswers tick "p" "u1" student solve_doubt "ict" (service [] 0)
  = (Throw (newError MSG_DAILY_LIMIT), service [] 0).
Proof.
  apply (makeAPICall_without_keys alwaysAnswers tick "p" "u1" student solve_doubt
           "ict" (service [] 0)).
  reflexivity.
Defined.

Lemma makeAPICall_cursor_beyond_pool_witness :
  exists w',
    makeAPICall alwaysAnswers tick "p" "u1" student solve_doubt "ict"
                (service [key1] 1)
    = (Throw (newError MSG_NO_KEYS), w') /\
    backendCalls w' = [].
Proof.
  destruct (makeAPICall_cursor_beyond_pool alwaysAnswers tick "p" "u1" student
              solve_doubt "ict" (service [key1] 1))
    as (w' & Hrun & (_ & _ & _ & Hb) & _).
  - discriminate.
  - simpl. lia.
  - exists w'. split; [exact Hrun | now rewrite <- Hb].
Defined.

Lemma makeAPICall_stays_within_budget_witness :
  inRange (snd (makeAPICall onlySecondKeyAnswers tick "p" "u1" student solve_doubt
                            "ict" (service [key1; key2] 0))).
Proof.
  apply (makeAPICall_stays_within_budget onlySecondKeyAnswers tick "p" "u1" student
           solve_doubt "ict" (service [key1; key2] 0)).
  unfold inRange. simpl. lia.
Defined.

Lemma every_attempt_leaves_one_usage_record_witness :
  exists new newU,
    backendCalls (snd (makeAPICall onlySecondKeyAnswers tick "p" "u1" student
                                   solve_doubt "ict" (service [key1; key2] 0)))
    = new /\
    praggoAIUsage (db (snd (makeAPICall onlySecondKeyAnswers tick "p" "u1" student
                                        solve_doubt "ict" (service [key1; key2] 0))))
    = newU /\
    length newU = length new.
Proof.
  destruct (every_attempt_leaves_one_usage_record onlySecondKeyAnswers tick "p" "u1"
              student solve_doubt "ict" (service [key1; key2] 0))
    as (new & newU & Hb & Hu & Hlen & _).
  - unfold inRange. simpl. lia.
  - reflexivity.
  - exists new, newU. split; [exact Hb|]. split; [exact Hu | exact Hlen].
Defined.

Lemma unusable_response_ends_call_witness :
  exists w',
    makeAPICall silentBackend tick "p" "u1" student solve_doubt "ict"
                (service [key1; key2] 0)
    = (Throw (newError MSG_NO_RESPONSE), w') /\
    currentKeyIndex w' = 0.
Proof.
  destruct (unusable_response_ends_call silentBackend tick "p" "u1" student
              solve_doubt "ict" (service [key1; key2] 0) key1 MSG_NO_RESPONSE)
    as (w' & Hrun & _ & Hc & _).
  - reflexivity.
  - left. split; reflexivity.
  - exists w'. split; [exact Hrun | exact Hc].
Defined.

Lemma extraction_failures_are_wrapped_witness :
  (status (newError (EXTRACT_PREFIX ++ "boom")) = Js.undefined /\
   isQuotaError (Some (newError (EXTRACT_PREFIX ++ "boom"))) = false) /\
  extractText topThrowingResponse (service [] 0)
  = (Throw (newError (EXTRACT_PREFIX ++ "bang")), service [] 0).
Proof.
  split.
  - destruct (proj2 (extraction_failures_are_wrapped throwingResponse (service [] 0)
                       (service [] 0) (newError (EXTRACT_PREFIX ++ "boom"))))
      as (Hs & _ & Hq).
    + reflexivity.
    + split; [exact Hs|]. rewrite Hq. reflexivity.
  - apply (proj1 (extraction_failures_are_wrapped topThrowingResponse (service [] 0)
                    (service [] 0) (newError (EXTRACT_PREFIX ++ "bang")))).
    split; [reflexivity|]. exists "bang". split; [reflexivity|].
    right. left. exists (newError "bang"). now repeat split.
Defined.

Lemma makeAPICall_throws_plain_errors_witness :
  fst (makeAPICall alwaysInternalError tick "p" "u1" student solve_doubt "ict"
                   (service [key1; key2] 0))
  = Throw (newError "Internal error") /\
  status internalError = Js.number 500 /\
  status (newError "Internal error") = Js.undefined /\
  code (newError "Internal error") = Js.undefined.
Proof.
  split; [vm_compute; reflexivity|]. split; [reflexivity|].
  destruct (makeAPICall_throws_plain_errors alwaysInternalError tick "p" "u1" student
              solve_doubt "ict" (service [key1; key2] 0)
              (snd (makeAPICall alwaysInternalError tick "p" "u1" student solve_doubt
                                "ict" (service [key1; key2] 0)))
              (newError "Internal error"))
    as (Hs & Hc & _).
  - vm_compute. reflexivity.
  - split; [exact Hs | exact Hc].
Defined.

Lemma exhausted_call_returns_cursor_witness :
  exists w',
    makeAPICall alwaysQuota tick "p" "u1" student solve_doubt "ict"
                (service [key1; key2; key3] 1)
    = (Throw (newError MSG_DAILY_LIMIT), w') /\
    currentKeyIndex w' = 1.
Proof.
  destruct (exhausted_call_returns_cursor alwaysQuota tick "p" "u1" student
              solve_doubt "ict" (service [key1; key2; key3] 1))
    as (w' & Hrun & _ & Hc & _).
  - unfold inRange. simpl. lia.
  - unfold maxRetries. simpl. lia.
  - intros i Hi. exists quotaError. split; reflexivity.
  - exists w'. split; [exact Hrun | exact Hc].
Defined.

Lemma rotation_marks_old_key_witness :
  praggoAIKeys (db (snd (rotateToNextKey tick serviceWithRows))) !! 0
  = Some (mkKeyRow "GEMINI_API_KEY" 0 None quota_exceeded true 3%Z
                   (Some 86400000%Z) None).
Proof.
  destruct (rotation_marks_old_key tick serviceWithRows key1) as (_ & _ & _ & H).
  - simpl. lia.
  - reflexivity.
  - destruct (H eq_refl) as [_ Hrows]. apply (Hrows 0 row1). reflexivity.
Defined.

Lemma successful_use_is_counted_witness :
  exists w',
    makeAPICall alwaysAnswers tick "রসায়ন কী?" "u1" student solve_doubt "ict"
                serviceWithRows
    = (Return "pH is a measure of acidity", w') /\
    praggoAIUsage (db w')
    = [mkUsage "u1" student solve_doubt "GEMINI_API_KEY" "ict" true None
               (Some 1000%Z) (Some 10) (Some 26)] /\
    exists row',
      praggoAIKeys (db w') !! 0 = Some row' /\
      r_dailyUsageCount row' = 4%Z /\ is_Some (r_lastUsed row').
Proof.
  destruct (successful_use_is_counted alwaysAnswers tick "রসায়ন কী?" "u1" student
              solve_doubt "ict" serviceWithRows key1 phAnswer
              "pH is a measure of acidity")
    as (w' & Hrun & Husage & _ & Hrows).
  - reflexivity.
  - reflexivity.
  - discriminate.
  - reflexivity.
  - intros v. reflexivity.
  - exists w'. split; [exact Hrun|]. split; [exact Husage|].
    destruct (Hrows 0 row1 eq_refl) as (row' & Hrow' & Hcount).
    exists row'. split; [exact Hrow'|].
    destruct Hcount as [lastUsed ->]. split; [reflexivity | now eexists].
Defined.

Lemma exhausted_call_marks_every_key_witness :
  exists w',
    makeAPICall alwaysQuota tick "p" "u1" student solve_doubt "ict" serviceWithRows
    = (Throw (newError MSG_DAILY_LIMIT), w') /\
    length (praggoAIKeys (db w')) = 3.
Proof.
  destruct (exhausted_call_marks_every_key alwaysQuota tick "p" "u1" student
              solve_doubt "ict" serviceWithRows)
    as (w' & Hrun & Hmarks).
  - unfold inRange. simpl. lia.
  - simpl. lia.
  - unfold maxRetries. simpl. lia.
  - reflexivity.
  - intros i Hi. exists quotaError. split; reflexivity.
  - exists w'. split; [exact Hrun|].
    apply Forall2_length in Hmarks. now rewrite <- Hmarks.
Defined.

Lemma single_key_is_never_marked_witness :
  exists w',
    makeAPICall alwaysQuota tick "p" "u1" student solve_doubt "ict" (service [key1] 0)
    = (Throw (newError MSG_DAILY_LIMIT), w') /\
    praggoAIKeys (db w') = [].
Proof.
  destruct (single_key_is_never_marked alwaysQuota tick "p" "u1" student solve_doubt
              "ict" (service [key1] 0) key1 quotaError)
    as (w' & Hrun & _ & _ & Hkeys).
  - reflexivity.
  - reflexivity.
  - reflexivity.
  - reflexivity.
  - exists w'. split; [exact Hrun | exact Hkeys].
Defined.

Lemma usage_stats_add_up_witness :
  exists stats w',
    getUsageStats tick createdAtDay (fun _ => 50%Z) "u1" serviceWithUsage
    = (Return stats, w') /\
    todayUsage stats = 2 /\ successfulCalls stats = 1.
Proof.
  destruct (usage_stats_add_up tick createdAtDay (fun _ => 50%Z) "u1" serviceWithUsage)
    as (stats & w' & Hrun & _ & _ & _ & _ & _ & Hcounts).
  destruct (Hcounts eq_refl) as (Htoday & Hsucc & _).
  exists stats, w'. split; [exact Hrun|]. split; [exact Htoday | exact Hsucc].
Defined.

Lemma status_hides_code_witness :
  isQuotaError (Some (mkError (Some "Internal error") (Js.number 500) (Js.number 429)))
  = isQuotaError (Some (mkError (Some "Internal error") (Js.number 500) Js.undefined)).
Proof.
  apply (proj1 (status_hides_code (Some "Internal error") (Js.number 500)
                  (Js.number 429) Js.undefined)).
  reflexivity.
Defined.

Lemma rebuilt_pool_is_the_configured_keys_witness :
  key1 ∈ apiKeys (snd (refreshKeys (setProcessEnv envBlankKey (service [] 0)))) /\
  mkApiKey "GEMINI_API_KEY_2" nbsp 1
  ∉ apiKeys (snd (refreshKeys (setProcessEnv envBlankKey (service [] 0)))).
Proof.
  destruct (rebuilt_pool_is_the_configured_keys
              (setProcessEnv envBlankKey (service [] 0))) as (Hpool & _).
  split.
  - apply Hpool. split; [reflexivity|]. split; [reflexivity|].
    apply usableValue_blank. reflexivity.
  - intros Hin. apply Hpool in Hin as (_ & _ & Hblank). apply Hblank.
    exists [nbsp]. split; [|reflexivity].
    constructor; [|constructor]. apply isSpace_In. reflexivity.
Defined.

Lemma database_key_overrides_environment_witness :
  mkApiKey "GEMINI_API_KEY_2" "AIzaSy-stored-key" 1
  ∈ apiKeys (snd (refreshKeys serviceWithStore)) /\
  processEnv (snd (refreshKeys serviceWithShortStore))
  = processEnv serviceWithShortStore.
Proof.
  split.
  - destruct (database_key_overrides_environment serviceWithStore storedRow
                "AIzaSy-stored-key" 1) as [Hrow _].
    + reflexivity.
    + apply Hrow.
      * now left.
      * reflexivity.
      * reflexivity.
      * reflexivity.
      * intros r Hr _ _. apply list_elem_of_singleton in Hr as ->. reflexivity.
  - destruct (database_key_overrides_environment serviceWithShortStore shortStoredRow
                "" 2) as [_ Henv].
    + reflexivity.
    + apply Henv. intros r Hr _.
      apply list_elem_of_singleton in Hr as ->. reflexivity.
Defined.

Lemma rebuild_without_database_witness :
  exists w',
    refreshKeys offlineService = (Return tt, w') /\
    apiKeys w' = [key1; key2].
Proof.
  destruct (rebuild_without_database offlineService)
    as (w' & Hrun & _ & Hpool & _).
  - reflexivity.
  - exists w'. split; [exact Hrun|]. rewrite Hpool. vm_compute. reflexivity.
Defined.

Lemma database_keys_are_upserted_witness :
  exists w',
    initializeDatabaseKeys (service [key1; key2] 0) = (Return tt, w') /\
    praggoAIKeys (db w') = [freshKeyRow key1; freshKeyRow key2].
Proof.
  destruct (database_keys_are_upserted (service [key1; key2] 0))
    as (w' & added & Hrun & _ & _ & Hrows & _).
  - reflexivity.
  - exists w'. split; [exact Hrun|].
    replace w' with (snd (initializeDatabaseKeys (service [key1; key2] 0)))
      by (rewrite Hrun; reflexivity).
    vm_compute. reflexivity.
Defined.

Lemma rebuild_is_idempotent_witness :
  apiKeys (snd (refreshKeys (snd (refreshKeys serviceWithStore))))
  = apiKeys (snd (refreshKeys serviceWithStore)).
Proof.
  apply (rebuild_is_idempotent serviceWithStore). reflexivity.
Defined.

Lemma returned_text_came_from_current_key_witness :
  exists k pre r,
    apiKeys (snd (makeAPICall onlySecondKeyAnswers tick "p" "u1" student solve_doubt
                              "ict" (service [key1; key2] 0)))
    !! currentKeyIndex
         (snd (makeAPICall onlySecondKeyAnswers tick "p" "u1" student solve_doubt
                           "ict" (service [key1; key2] 0)))
    = Some k /\
    backendCalls (snd (makeAPICall onlySecondKeyAnswers tick "p" "u1" student
                                   solve_doubt "ict" (service [key1; key2] 0)))
    = (pre ++ [(keyValue k, "p")])%list /\
    onlySecondKeyAnswers (length pre) (keyValue k) "p" = resolves r /\
    forall v, extractText r v = (Return "pH is a measure of acidity", v).
Proof.
  apply (returned_text_came_from_current_key onlySecondKeyAnswers tick "p" "u1"
           student solve_doubt "ict" (service [key1; key2] 0)).
  - unfold inRange. simpl. lia.
  - vm_compute. reflexivity.
Defined.

Lemma failed_call_reports_limit_or_last_error_witness :
  let w' := snd (makeAPICall alwaysInternalError tick "p" "u1" student solve_doubt
                             "ict" (service [key1; key2] 0)) in
  newError "Internal error" = newError MSG_DAILY_LIMIT \/
  exists err k pre,
    apiKeys w' !! currentKeyIndex w' = Some k /\
    backendCalls w' = (pre ++ [(keyValue k, "p")])%list /\
    attemptError (alwaysInternalError (length pre) (keyValue k) "p") err /\
    isQuotaError (Some err) = false /\
    mentionsExhausted (Some err) = false /\
    newError "Internal error" = newError (orElse (message err) MSG_SERVICE_PROBLEM).
Proof.
  intros w'.
  apply (proj2 (failed_call_reports_limit_or_last_error alwaysInternalError tick "p"
                  "u1" student solve_doubt "ict" (service [key1; key2] 0)
                  ltac:(unfold inRange; simpl; lia)
                  ltac:(unfold maxRetries; simpl; lia))
               (newError "Internal error") w').
  vm_compute. reflexivity.
Defined.

Lemma exhausted_word_reports_daily_limit_witness :
  exists w',
    makeAPICall alwaysPoolError tick "p" "u1" student solve_doubt "ict"
                (service [key1; key2] 0)
    = (Throw (newError MSG_DAILY_LIMIT), w') /\
    currentKeyIndex w' = 0.
Proof.
  destruct (exhausted_word_reports_daily_limit alwaysPoolError tick "p" "u1" student
              solve_doubt "ict" (service [key1; key2] 0) key1 poolError)
    as (w' & Hrun & Hc & _).
  - reflexivity.
  - reflexivity.
  - reflexivity.
  - reflexivity.
  - exists w'. split; [exact Hrun | exact Hc].
Defined.
